(** * Address lookup tables demo script (index.js)

    A shallow embedding of [index.js]: the script creates an address lookup
    table on a Solana cluster, extends it with four addresses and compares
    the serialized size of a transaction compiled with and without the table.

    The script is a sequence of calls into [@solana/web3.js] and of awaited
    RPC requests on a [Connection].  The embedding has three layers:

    - [Web3]: the operations of the [web3] module object the script calls,
      as an interface (the script never looks inside a message, a
      transaction or an instruction);
    - [Prog]: the script's own control flow, a tree of awaited RPC calls,
      [console.log] lines and timers, with JavaScript exceptions;
    - [Web3js]: the message compiler and the wire format of the SDK, used
      where a property is about serialized bytes. *)

From Stdlib Require Import List ZArith NArith String Ascii Bool Lia.
Import ListNotations.

Set Implicit Arguments.

(** ** JavaScript exceptions *)

Inductive Exn : Type :=
| TypeError (msg : string)
| RangeError (msg : string)
| Error (msg : string)
| RpcError (msg : string).

(** The result of a call that may throw. *)
Inductive Result (A : Type) : Type :=
| Ok (a : A)
| Thrown (e : Exn).

Arguments Ok {A} a.
Arguments Thrown {A} e.

Definition rbind {A B} (r : Result A) (f : A -> Result B) : Result B :=
  match r with
  | Ok a => f a
  | Thrown e => Thrown e
  end.

Definition is_ok {A} (r : Result A) : bool :=
  match r with Ok _ => true | Thrown _ => false end.

(** ** Data the script reads field by field *)

(** [AddressLookupTableAccount]: the script reads [key] and
    [state.addresses]. *)
Record AddressLookupTableState (PK : Type) : Type := {
  deactivationSlot : Z;
  lastExtendedSlot : Z;
  lastExtendedSlotStartIndex : Z;
  authority : option PK;
  addresses : list PK
}.

Record AddressLookupTableAccount (PK : Type) : Type := {
  key : PK;
  state : AddressLookupTableState PK
}.

(** The value of [connection.getLatestBlockhash]. *)
Record BlockhashWithExpiryBlockHeight : Type := {
  blockhash : string;
  lastValidBlockHeight : Z
}.

(** The value of [connection.confirmTransaction]: [err] is [null] when the
    transaction executed without error. *)
Record SignatureResult : Type := {
  err : option string
}.

Inductive Commitment : Type := processed | confirmed | finalized.

(** ** The [web3] module object *)

Class Web3 : Type := {
  PublicKey : Type;
  Keypair : Type;
  TransactionInstruction : Type;
  MessageV0 : Type;
  VersionedTransaction : Type;
  (** [keypair.publicKey] *)
  publicKey : Keypair -> PublicKey;
  (** [new web3.PublicKey(base58)] *)
  new_PublicKey : string -> Result PublicKey;
  (** [key.toBase58()], which is also [key.toString()] *)
  toBase58 : PublicKey -> string;
  (** [new web3.TransactionMessage({payerKey, recentBlockhash, instructions})
      .compileToV0Message(tables)]; [None] is the call without argument *)
  compileToV0Message :
    forall (payerKey : PublicKey) (recentBlockhash : string)
           (instructions : list TransactionInstruction)
           (addressLookupTableAccounts :
              option (list (AddressLookupTableAccount PublicKey))),
      Result MessageV0;
  (** [new web3.VersionedTransaction(message)] *)
  new_VersionedTransaction : MessageV0 -> VersionedTransaction;
  (** [transaction.sign(signers)]: the transaction with its signatures set *)
  sign : VersionedTransaction -> list Keypair -> Result VersionedTransaction;
  (** [transaction.serialize()] *)
  serialize : VersionedTransaction -> Result (list Z);
  (** [web3.SystemProgram.transfer({fromPubkey, toPubkey, lamports})] *)
  SystemProgram_transfer :
    forall (fromPubkey toPubkey : PublicKey) (lamports : Z),
      Result TransactionInstruction;
  (** [web3.AddressLookupTableProgram.createLookupTable
       ({authority, payer, recentSlot})] *)
  createLookupTable :
    forall (authority payer : PublicKey) (recentSlot : Z),
      Result (TransactionInstruction * PublicKey);
  (** [web3.AddressLookupTableProgram.extendLookupTable
       ({payer, authority, lookupTable, addresses})] *)
  extendLookupTable :
    forall (payer authority lookupTable : PublicKey)
           (addresses : list PublicKey),
      Result TransactionInstruction
}.

(** The value of [connection.getAddressLookupTable] for an existing table. *)
Abbreviation LookupTable := (AddressLookupTableAccount PublicKey).

Section Script.

Context {web3 : Web3}.

(** ** Requests on the connection *)

(** The awaited methods of [connection] the script uses. *)
Inductive Call : Type :=
| getSlot
| getLatestBlockhash (commitment : Commitment)
| sendTransaction (transaction : VersionedTransaction)
| confirmTransaction (signature : string) (blockhash : string)
                     (lastValidBlockHeight : Z)
| getAddressLookupTable (accountKey : PublicKey).

(** What each request resolves to; [getAddressLookupTable] resolves to the
    [value] field of its response, [null] being [None]. *)
Definition Resp (c : Call) : Type :=
  match c with
  | getSlot => Z
  | getLatestBlockhash _ => BlockhashWithExpiryBlockHeight
  | sendTransaction _ => string
  | confirmTransaction _ _ _ => SignatureResult
  | getAddressLookupTable _ => option LookupTable
  end.

(** An argument of [console.log]. *)
Inductive LogArg : Type :=
| LStr (s : string)
| LNum (n : Z)
| LKey (k : PublicKey)
| LAccount (a : option LookupTable).

(** ** Programs *)

(** An [async] function body: it returns, throws, awaits a request on the
    connection (a rejected promise throws at the [await]), prints a line, or
    awaits a timer. *)
Inductive Prog (A : Type) : Type :=
| Return (a : A)
| Throw (e : Exn)
| Await (c : Call) (k : Resp c -> Prog A)
| ConsoleLog (args : list LogArg) (k : Prog A)
| SetTimeout (ms : Z) (k : Prog A).

Arguments Return {A} a.
Arguments Throw {A} e.
Arguments Await {A} c k.
Arguments ConsoleLog {A} args k.
Arguments SetTimeout {A} ms k.

Fixpoint bind {A B} (p : Prog A) (f : A -> Prog B) : Prog B :=
  match p with
  | Return a => f a
  | Throw e => Throw e
  | Await c k => Await c (fun x => bind (k x) f)
  | ConsoleLog args k => ConsoleLog args (bind k f)
  | SetTimeout ms k => SetTimeout ms (bind k f)
  end.

Definition await (c : Call) : Prog (Resp c) := Await c Return.
Definition console_log (args : list LogArg) : Prog unit :=
  ConsoleLog args (Return tt).
Definition setTimeout (ms : Z) : Prog unit := SetTimeout ms (Return tt).

(** A synchronous SDK call inside an [async] body. *)
Definition call {A} (r : Result A) : Prog A :=
  match r with
  | Ok a => Return a
  | Thrown e => Throw e
  end.

End Script.

Arguments Return {web3 A} a.
Arguments Throw {web3 A} e.
Arguments Await {web3 A} c k.
Arguments ConsoleLog {web3 A} args k.
Arguments SetTimeout {web3 A} ms k.

Declare Scope prog_scope.
Delimit Scope prog_scope with prog.
Notation "x <- p ;; q" := (bind p (fun x => q))
  (at level 61, p at next level, right associativity) : prog_scope.
Notation "p ;; q" := (bind p (fun _ => q))
  (at level 61, right associativity) : prog_scope.

(** ** The script *)

Section Index.

Context {web3 : Web3}.

(** [payer]: the key pair decoded from the operator's secret key when the
    script is loaded. *)
Variable payer : Keypair.

Local Open Scope prog_scope.

(** The line feed of ['\n']. *)
Definition newline : string := String (ascii_of_nat 10) EmptyString.

(** Reading a property of a value that is [null]. *)
Definition null_property (name : string) : Exn :=
  TypeError ("Cannot read properties of null (reading '" ++ name ++ "')")%string.

Definition property_of {A} (v : option A) (name : string) : Prog A :=
  match v with
  | Some a => Return a
  | None => Throw (null_property name)
  end.

(** [for (let i = 0; i < l.length; i++) body(i, l[i])], started at [i]. *)
Fixpoint for_each {A} (body : Z -> A -> Prog unit) (i : Z) (l : list A)
  : Prog unit :=
  match l with
  | [] => Return tt
  | a :: rest => body i a ;; for_each body (i + 1)%Z rest
  end.

(** [new TransactionMessage({payerKey: payer.publicKey, recentBlockhash,
    instructions}).compileToV0Message(tables)], then
    [new VersionedTransaction(message)] and [transaction.sign([payer])]:
    the three SDK calls every transaction of the script goes through. *)
Definition signedV0 (recentBlockhash : string)
    (instructions : list TransactionInstruction)
    (tables : option (list LookupTable)) : Result VersionedTransaction :=
  rbind (compileToV0Message (publicKey payer) recentBlockhash instructions tables)
    (fun message => sign (new_VersionedTransaction message) [payer]).

Definition createAndSendV0Tx
    (arrayOfInstructions : list TransactionInstruction) : Prog unit :=
  latestBlockhash <- await (getLatestBlockhash finalized) ;;
  console_log [LStr "   ✅ - Fetched latest blockhash. Last valid height:";
               LNum (lastValidBlockHeight latestBlockhash)] ;;
  messageV0 <- call (compileToV0Message (publicKey payer)
                       (blockhash latestBlockhash) arrayOfInstructions None) ;;
  console_log [LStr "   ✅ - Compiled transaction message"] ;;
  let transactionV0 := new_VersionedTransaction messageV0 in
  transactionV0 <- call (sign transactionV0 [payer]) ;;
  console_log [LStr "   ✅ - Transaction Signed"] ;;
  txid <- await (sendTransaction transactionV0) ;;
  await (confirmTransaction txid (blockhash latestBlockhash)
           (lastValidBlockHeight latestBlockhash)) ;;
  console_log [LStr "🎉 Transaction succesfully confirmed!"; LStr newline;
               LStr ("https://explorer.solana.com/tx/" ++ txid
                     ++ "?cluster=devnet")%string].

Definition createALTs : Prog PublicKey :=
  slot <- await getSlot ;;
  console_log [LStr "slot:"; LNum slot] ;;
  created <- call (createLookupTable (publicKey payer) (publicKey payer) slot) ;;
  let lookupTableInst := fst created in
  let lookupTableAddress := snd created in
  console_log [LStr "lookup table address:";
               LStr (toBase58 lookupTableAddress)] ;;
  createAndSendV0Tx [lookupTableInst] ;;
  console_log [LStr "   ✅ - Create lookup table"] ;;
  Return lookupTableAddress.

Definition addAddress (lookupTableAddress : PublicKey)
    (addresses : list PublicKey) : Prog unit :=
  extendInstruction <- call (extendLookupTable (publicKey payer)
                               (publicKey payer) lookupTableAddress addresses) ;;
  createAndSendV0Tx [extendInstruction] ;;
  console_log [LStr "Lookup Table Entries: ";
               LStr ("https://explorer.solana.com/address/"
                     ++ toBase58 lookupTableAddress
                     ++ "/entries?cluster=devnet")%string].

Definition fetchALTs (lookupTableAddress : PublicKey)
  : Prog (option LookupTable) :=
  lookupTableAccount <- await (getAddressLookupTable lookupTableAddress) ;;
  console_log [LStr "lookupTableAccount:"; LAccount lookupTableAccount] ;;
  account <- property_of lookupTableAccount "key" ;;
  console_log [LStr "Table address from cluster:";
               LStr (toBase58 (key account))] ;;
  for_each (fun i address => console_log [LNum i; LKey address]) 0%Z
           (addresses (state account)) ;;
  Return lookupTableAccount.

(** [0.01 * 100000000], the [lamports] of every transfer. *)
Definition lamports_per_transfer : Z := 1000000.

(** The loop that fills [txInstructions]: one transfer from the payer to
    each address of the table, in table order. *)
Fixpoint transferInstructions (tableAddresses : list PublicKey)
  : Result (list TransactionInstruction) :=
  match tableAddresses with
  | [] => Ok []
  | address :: rest =>
      rbind (SystemProgram_transfer (publicKey payer) address
               lamports_per_transfer)
        (fun instruction =>
           rbind (transferInstructions rest)
             (fun txInstructions => Ok (instruction :: txInstructions)))
  end.

Definition compareTxSize (lookupTableAddress : PublicKey) : Prog unit :=
  fetched <- await (getAddressLookupTable lookupTableAddress) ;;
  match fetched with
  | None => Return tt
  | Some lookupTable =>
      console_log [LStr "   ✅ - Fetched lookup table:";
                   LStr (toBase58 (key lookupTable))] ;;
      txInstructions <-
        call (transferInstructions (addresses (state lookupTable))) ;;
      latestBlockhash <- await (getLatestBlockhash finalized) ;;
      console_log [LStr "   ✅ - Fetched latest blockhash. Last valid height:";
                   LNum (lastValidBlockHeight latestBlockhash)] ;;
      messageWithLookupTable <-
        call (compileToV0Message (publicKey payer) (blockhash latestBlockhash)
                txInstructions (Some [lookupTable])) ;;
      let transactionWithLookupTable :=
        new_VersionedTransaction messageWithLookupTable in
      transactionWithLookupTable <-
        call (sign transactionWithLookupTable [payer]) ;;
      messageWithoutLookupTable <-
        call (compileToV0Message (publicKey payer) (blockhash latestBlockhash)
                txInstructions None) ;;
      let transactionWithoutLookupTable :=
        new_VersionedTransaction messageWithoutLookupTable in
      transactionWithoutLookupTable <-
        call (sign transactionWithoutLookupTable [payer]) ;;
      console_log [LStr "   ✅ - Compiled transactions"] ;;
      serializedWithout <- call (serialize transactionWithoutLookupTable) ;;
      console_log [LStr "Transaction size without address lookup table: ";
                   LNum (Z.of_nat (List.length serializedWithout)); LStr "bytes"] ;;
      serializedWith <- call (serialize transactionWithLookupTable) ;;
      console_log [LStr "Transaction size with address lookup table:    ";
                   LNum (Z.of_nat (List.length serializedWith)); LStr "bytes"]
  end.

(** The four [new web3.PublicKey(...)] of [main], evaluated left to right. *)
Fixpoint publicKeys (literals : list string) : Result (list PublicKey) :=
  match literals with
  | [] => Ok []
  | s :: rest =>
      rbind (new_PublicKey s)
        (fun k => rbind (publicKeys rest) (fun ks => Ok (k :: ks)))
  end.

Definition address_literals : list string :=
  [ "8Z17Y623ZjNV8xaAdxgn5ZkqkVTEo8Yc6uaapvcrFB62";
    "846HwwmSGguDbipzs2xDYCsfyhi4j2LLiuQri11woums";
    "FueGNmz4M2wphGnDL5RuH2fCo6EQxxtheVn6syGE4Fh1";
    "8io2LqthLyQfFncj6QAaQ2q5d7z9WgRcVKrAz4DGNiee" ]%string.

Definition main : Prog unit :=
  console_log [LStr "Step 1: create address lookup table"] ;;
  lookupTableAddress <- createALTs ;;
  console_log [LStr "Waiting for 1 minute..."] ;;
  setTimeout 60000 ;;
  addresses <- call (publicKeys address_literals) ;;
  console_log [LStr "Step 2: add address to lookup table"] ;;
  addAddress lookupTableAddress addresses ;;
  console_log [LStr "Step 3: check the transaction size"] ;;
  compareTxSize lookupTableAddress.

End Index.

(** ** Running a program against a cluster *)

Section Execution.

Context {web3 : Web3}.

(** What a run does that is visible from outside: requests with what they
    resolved to or were rejected with, printed lines, and timers. *)
Inductive Event : Type :=
| Requested (c : Call) (r : Result (Resp c))
| Printed (args : list LogArg)
| Slept (ms : Z).

(** The cluster behind [connection]: some state of its own (the ledger, its
    clock), an answer to each request, and what the passing of time does. *)
Record Cluster : Type := {
  ledger : Type;
  rpc : forall c : Call, ledger -> Result (Resp c) * ledger;
  elapse : Z -> ledger -> ledger
}.

Record Run (L A : Type) : Type := {
  trace : list Event;
  final : L;
  outcome : Result A
}.

Definition after {L A} (e : Event) (r : Run L A) : Run L A :=
  {| trace := e :: trace r; final := final r; outcome := outcome r |}.

Fixpoint exec (net : Cluster) {A} (p : Prog A) (st : ledger net)
  : Run (ledger net) A :=
  match p with
  | Return a => {| trace := []; final := st; outcome := Ok a |}
  | Throw e => {| trace := []; final := st; outcome := Thrown e |}
  | Await c k =>
      match fst (rpc net c st) with
      | Ok x =>
          after (Requested c (Ok x)) (exec net (k x) (snd (rpc net c st)))
      | Thrown e =>
          {| trace := [Requested c (Thrown e)];
             final := snd (rpc net c st);
             outcome := Thrown e |}
      end
  | ConsoleLog args k => after (Printed args) (exec net k st)
  | SetTimeout ms k => after (Slept ms) (exec net k (elapse net ms st))
  end.

End Execution.

(** ** Reading a run *)

Section Reading.

Context {web3 : Web3}.

(** Sequencing of runs: what [p] does, then what [f] does with its value
    from the ledger [p] left; a throw in [p] ends the run. *)
Definition andThen {L A B} (r : Run L A) (next : A -> L -> Run L B)
  : Run L B :=
  match outcome r with
  | Ok a =>
      let r' := next a (final r) in
      {| trace := trace r ++ trace r'; final := final r';
         outcome := outcome r' |}
  | Thrown e => {| trace := trace r; final := final r; outcome := Thrown e |}
  end.

(** The line [createAndSendV0Tx] prints last. *)
Definition confirmed_line (txid : string) : list LogArg :=
  [LStr "🎉 Transaction succesfully confirmed!"; LStr newline;
   LStr ("https://explorer.solana.com/tx/" ++ txid ++ "?cluster=devnet")%string].

(** What [createAndSendV0Tx] does when every step goes through. *)
Definition submitted_trace (latestBlockhash : BlockhashWithExpiryBlockHeight)
    (transactionV0 : VersionedTransaction) (txid : string)
    (status : SignatureResult) : list Event :=
  [ Requested (getLatestBlockhash finalized) (Ok latestBlockhash);
    Printed [LStr "   ✅ - Fetched latest blockhash. Last valid height:";
             LNum (lastValidBlockHeight latestBlockhash)];
    Printed [LStr "   ✅ - Compiled transaction message"];
    Printed [LStr "   ✅ - Transaction Signed"];
    Requested (sendTransaction transactionV0) (Ok txid);
    Requested (confirmTransaction txid (blockhash latestBlockhash)
                 (lastValidBlockHeight latestBlockhash)) (Ok status);
    Printed (confirmed_line txid) ].

(** What [compareTxSize] does for a table it found, down to the two sizes
    it prints. *)
Definition compared_trace (lookupTableAddress : PublicKey)
    (lookupTable : LookupTable)
    (latestBlockhash : BlockhashWithExpiryBlockHeight)
    (sizeWithout sizeWith : Z) : list Event :=
  [ Requested (getAddressLookupTable lookupTableAddress) (Ok (Some lookupTable));
    Printed [LStr "   ✅ - Fetched lookup table:";
             LStr (toBase58 (key lookupTable))];
    Requested (getLatestBlockhash finalized) (Ok latestBlockhash);
    Printed [LStr "   ✅ - Fetched latest blockhash. Last valid height:";
             LNum (lastValidBlockHeight latestBlockhash)];
    Printed [LStr "   ✅ - Compiled transactions"];
    Printed [LStr "Transaction size without address lookup table: ";
             LNum sizeWithout; LStr "bytes"];
    Printed [LStr "Transaction size with address lookup table:    ";
             LNum sizeWith; LStr "bytes"] ].

(** ** The steps of a run *)

(** An event without its data: the method requested, the text a printed
    line starts with, or the delay waited. *)
Inductive Step : Type :=
| Calls (method : string)
| Prints (text : string)
| Waits (ms : Z).

Definition method_name (c : Call) : string :=
  match c with
  | getSlot => "getSlot"
  | getLatestBlockhash _ => "getLatestBlockhash"
  | sendTransaction _ => "sendTransaction"
  | confirmTransaction _ _ _ => "confirmTransaction"
  | getAddressLookupTable _ => "getAddressLookupTable"
  end.

Definition step_of (e : Event) : Step :=
  match e with
  | Requested c _ => Calls (method_name c)
  | Printed (LStr s :: _) => Prints s
  | Printed _ => Prints ""
  | Slept ms => Waits ms
  end.

(** The steps of [createAndSendV0Tx]. *)
Definition submit_schedule : list Step :=
  [ Calls "getLatestBlockhash";
    Prints "   ✅ - Fetched latest blockhash. Last valid height:";
    Prints "   ✅ - Compiled transaction message";
    Prints "   ✅ - Transaction Signed";
    Calls "sendTransaction";
    Calls "confirmTransaction";
    Prints "🎉 Transaction succesfully confirmed!" ].

(** The steps of [main], from the first line to the last. *)
Definition main_schedule : list Step :=
  [ Prints "Step 1: create address lookup table";
    Calls "getSlot";
    Prints "slot:";
    Prints "lookup table address:" ]
  ++ submit_schedule
  ++ [ Prints "   ✅ - Create lookup table";
       Prints "Waiting for 1 minute...";
       Waits 60000;
       Prints "Step 2: add address to lookup table" ]
  ++ submit_schedule
  ++ [ Prints "Lookup Table Entries: ";
       Prints "Step 3: check the transaction size";
       Calls "getAddressLookupTable";
       Prints "   ✅ - Fetched lookup table:";
       Calls "getLatestBlockhash";
       Prints "   ✅ - Fetched latest blockhash. Last valid height:";
       Prints "   ✅ - Compiled transactions";
       Prints "Transaction size without address lookup table: ";
       Prints "Transaction size with address lookup table:    " ].

(** Requests that only read the cluster, printed lines and timers: every
    event but the submission of a transaction and the wait for its
    confirmation. *)
Definition read_only (e : Event) : bool :=
  match e with
  | Requested (sendTransaction _) _ => false
  | Requested (confirmTransaction _ _ _) _ => false
  | _ => true
  end.



(** The transactions a run submitted, in order. *)
Definition submitted (e : Event) : list VersionedTransaction :=
  match e with
  | Requested (sendTransaction transaction) _ => [transaction]
  | _ => []
  end.

Definition submissions (tr : list Event) : list VersionedTransaction :=
  flat_map submitted tr.

(** The blockhashes a run fetched, in order. *)
Definition fetched (e : Event) : list BlockhashWithExpiryBlockHeight :=
  match e with
  | Requested c r =>
      match c return Result (Resp c) -> list BlockhashWithExpiryBlockHeight with
      | getLatestBlockhash _ =>
          fun r => match r with Ok b => [b] | Thrown _ => [] end
      | _ => fun _ => []
      end r
  | _ => []
  end.

Definition blockhashes (tr : list Event)
  : list BlockhashWithExpiryBlockHeight :=
  flat_map fetched tr.

(** Whether an event is the line that announces a confirmed transaction. *)
Definition announces_confirmation (e : Event) : bool :=
  match e with
  | Printed (LStr s :: _) =>
      String.eqb s "🎉 Transaction succesfully confirmed!"
  | _ => false
  end.

(** The requests of a run, in order. *)
Definition requested (e : Event) : list Call :=
  match e with
  | Requested c _ => [c]
  | _ => []
  end.

Definition requests (tr : list Event) : list Call := flat_map requested tr.

(** The line [addAddress] prints last. *)
Definition entries_line (lookupTableAddress : PublicKey) : list LogArg :=
  [LStr "Lookup Table Entries: ";
   LStr ("https://explorer.solana.com/address/"
         ++ toBase58 lookupTableAddress ++ "/entries?cluster=devnet")%string].

(** One line for each address of a table: its index, then the address. *)
Definition indexed_lines (l : list PublicKey) : list Event :=
  map (fun entry => Printed [LNum (Z.of_nat (fst entry)); LKey (snd entry)])
      (combine (seq 0 (List.length l)) l).

(** What [createALTs] does when every step goes through. *)
Definition created_trace (slot : Z) (lookupTableAddress : PublicKey)
    (latestBlockhash : BlockhashWithExpiryBlockHeight)
    (transactionV0 : VersionedTransaction) (txid : string)
    (status : SignatureResult) : list Event :=
  [ Requested getSlot (Ok slot);
    Printed [LStr "slot:"; LNum slot];
    Printed [LStr "lookup table address:"; LStr (toBase58 lookupTableAddress)] ]
  ++ submitted_trace latestBlockhash transactionV0 txid status
  ++ [ Printed [LStr "   ✅ - Create lookup table"] ].

(** What [compareTxSize] does before it compiles the two transactions. *)
Definition fetched_trace (lookupTableAddress : PublicKey)
    (lookupTable : LookupTable)
    (latestBlockhash : BlockhashWithExpiryBlockHeight) : list Event :=
  [ Requested (getAddressLookupTable lookupTableAddress) (Ok (Some lookupTable));
    Printed [LStr "   ✅ - Fetched lookup table:";
             LStr (toBase58 (key lookupTable))];
    Requested (getLatestBlockhash finalized) (Ok latestBlockhash);
    Printed [LStr "   ✅ - Fetched latest blockhash. Last valid height:";
             LNum (lastValidBlockHeight latestBlockhash)] ].

(** What [createAndSendV0Tx] does up to a signature that throws. *)
Definition compiled_trace (latestBlockhash : BlockhashWithExpiryBlockHeight)
  : list Event :=
  [ Requested (getLatestBlockhash finalized) (Ok latestBlockhash);
    Printed [LStr "   ✅ - Fetched latest blockhash. Last valid height:";
             LNum (lastValidBlockHeight latestBlockhash)];
    Printed [LStr "   ✅ - Compiled transaction message"] ].

End Reading.

(** * The SDK: message compilation and wire format

    [@solana/web3.js] is a dependency of the script, not part of it.  This
    module follows the SDK's v1 sources for the functions the script calls:
    [CompiledKeys], [MessageV0.compile], [MessageV0.serialize],
    [VersionedTransaction], [SystemProgram.transfer] and
    [AddressLookupTableProgram].  Hashing, the curve test and the signature
    scheme are left as [Primitives]. *)

Module Web3js.

Local Open Scope Z_scope.

(** SHA-256, the ed25519 curve test and [nacl.sign.detached]. *)
Class Primitives : Type := {
  sha256 : list Z -> list Z;
  isOnCurve : list Z -> bool;
  ed25519_sign : forall (message secretKey : list Z), list Z
}.

(** ** Bytes *)

(** [width] bytes of [n], least significant first. *)
Fixpoint le_bytes (width : nat) (n : Z) : list Z :=
  match width with
  | O => []
  | S w => (n mod 256) :: le_bytes w (n / 256)
  end.

Definition be_bytes (width : nat) (n : Z) : list Z := rev (le_bytes width n).

(** [BufferLayout.u32] and the 8-byte little-endian layout [u64], for the
    non-negative integers below [2^32] and [2^64] the script encodes. *)
Definition u32 (n : Z) : list Z := le_bytes 4 n.
Definition u64 (n : Z) : list Z := le_bytes 8 n.

(** Digits of [n] in [base], most significant first, none for [0]. *)
Fixpoint digits_fuel (fuel : nat) (base n : N) (acc : list N) : list N :=
  match fuel with
  | O => acc
  | S f =>
      if (n =? 0)%N then acc
      else digits_fuel f base (n / base)%N ((n mod base)%N :: acc)
  end.

Definition digits (base n : N) : list N :=
  digits_fuel (N.size_nat n) base n [].

Definition number (base : N) (ds : list N) : N :=
  fold_left (fun acc d => (acc * base + d)%N) ds 0%N.

Fixpoint leading {A} (is_zero : A -> bool) (l : list A) : nat :=
  match l with
  | a :: rest => if is_zero a then S (leading is_zero rest) else O
  | [] => O
  end.

(** ** [bs58] *)

Definition ALPHABET : string :=
  "123456789ABCDEFGHJKLMNPQRSTUVWXYZabcdefghijkmnopqrstuvwxyz".

Fixpoint index_in (c : ascii) (alphabet : string) : option N :=
  match alphabet with
  | EmptyString => None
  | String a rest =>
      if Ascii.eqb a c then Some 0%N
      else option_map N.succ (index_in c rest)
  end.

Fixpoint base58_digits (s : string) : Result (list N) :=
  match s with
  | EmptyString => Ok []
  | String c rest =>
      match index_in c ALPHABET with
      | None => Thrown (Error "Non-base58 character")
      | Some d => rbind (base58_digits rest) (fun ds => Ok (d :: ds))
      end
  end.

Definition bs58_decode (s : string) : Result (list Z) :=
  rbind (base58_digits s)
    (fun ds =>
       Ok (repeat 0 (leading (N.eqb 0) ds)
           ++ map Z.of_N (digits 256 (number 58 ds)))).

Definition base58_char (d : N) : ascii :=
  match String.get (N.to_nat d) ALPHABET with
  | Some c => c
  | None => "1"%char
  end.

Definition bs58_encode (bytes : list Z) : string :=
  string_of_list_ascii
    (repeat "1"%char (leading (Z.eqb 0) bytes)
     ++ map base58_char (digits 58 (number 256 (map Z.to_N bytes)))).

(** ** [PublicKey] *)

(** A public key is its [_bn], a number of at most 32 bytes; the
    constructors below reject anything longer. *)
Definition PublicKey : Type := N.

Definition PUBLIC_KEY_LENGTH : nat := 32.

Definition equals (a b : PublicKey) : bool := N.eqb a b.

(** [key.toBytes()]: 32 bytes, most significant first. *)
Definition toBytes (k : PublicKey) : list Z :=
  be_bytes PUBLIC_KEY_LENGTH (Z.of_N k).

Definition toBase58 (k : PublicKey) : string := bs58_encode (toBytes k).

(** [new PublicKey(string)] *)
Definition new_PublicKey (value : string) : Result PublicKey :=
  rbind (bs58_decode value)
    (fun decoded =>
       if Nat.eqb (List.length decoded) PUBLIC_KEY_LENGTH
       then Ok (number 256 (map Z.to_N decoded))
       else Thrown (Error "Invalid public key input")).

(** [new PublicKey(bytes)] *)
Definition PublicKey_of_bytes (value : list Z) : Result PublicKey :=
  let bn := number 256 (map Z.to_N value) in
  if Nat.ltb PUBLIC_KEY_LENGTH (List.length (digits 256 bn))
  then Thrown (Error "Invalid public key input")
  else Ok bn.

Record Keypair : Type := {
  publicKey : PublicKey;
  secretKey : list Z
}.

(** ** Instructions *)

Record AccountMeta : Type := {
  pubkey : PublicKey;
  isSigner : bool;
  isWritable : bool
}.

Record TransactionInstruction : Type := {
  keys : list AccountMeta;
  programId : PublicKey;
  data : list Z
}.

(** [SystemProgram.programId], [11111111111111111111111111111111]. *)
Definition SystemProgram_programId : PublicKey := 0%N.

(** [SystemProgram.transfer]: instruction index 2, then the lamports. *)
Definition SystemProgram_transfer (fromPubkey toPubkey : PublicKey)
    (lamports : Z) : TransactionInstruction :=
  {| keys := [ {| pubkey := fromPubkey; isSigner := true; isWritable := true |};
               {| pubkey := toPubkey; isSigner := false; isWritable := true |} ];
     programId := SystemProgram_programId;
     data := u32 2 ++ u64 lamports |}.

(** ** [CompiledKeys] *)

Record CompiledKeyMeta : Type := {
  keyIsSigner : bool;
  keyIsWritable : bool;
  keyIsInvoked : bool
}.

(** The [keyMetaMap]: a JavaScript [Map] from addresses to their flags.  A
    [Map] iterates in insertion order, so it is a list of entries; its keys
    are the base-58 texts of the addresses, compared here as the addresses
    themselves. *)
Definition KeyMetaMap : Type := list (PublicKey * CompiledKeyMeta).

Record CompiledKeys : Type := {
  payer : PublicKey;
  keyMetaMap : KeyMetaMap
}.

Definition defaultKeyMeta : CompiledKeyMeta :=
  {| keyIsSigner := false; keyIsWritable := false; keyIsInvoked := false |}.

(** [getOrInsertDefault(pubkey)] followed by an update [f] of the entry: an
    entry already there is updated in place, a new one goes last. *)
Fixpoint getOrInsertDefault (address : PublicKey)
    (f : CompiledKeyMeta -> CompiledKeyMeta) (m : KeyMetaMap) : KeyMetaMap :=
  match m with
  | [] => [(address, f defaultKeyMeta)]
  | (a, meta) :: rest =>
      if equals a address then (a, f meta) :: rest
      else (a, meta) :: getOrInsertDefault address f rest
  end.

Definition setPayer (meta : CompiledKeyMeta) : CompiledKeyMeta :=
  {| keyIsSigner := true; keyIsWritable := true;
     keyIsInvoked := keyIsInvoked meta |}.

Definition setInvoked (meta : CompiledKeyMeta) : CompiledKeyMeta :=
  {| keyIsSigner := keyIsSigner meta; keyIsWritable := keyIsWritable meta;
     keyIsInvoked := true |}.

Definition mergeAccountMeta (accountMeta : AccountMeta)
    (meta : CompiledKeyMeta) : CompiledKeyMeta :=
  {| keyIsSigner := keyIsSigner meta || isSigner accountMeta;
     keyIsWritable := keyIsWritable meta || isWritable accountMeta;
     keyIsInvoked := keyIsInvoked meta |}.

(** One round of the loop over the instructions in [CompiledKeys.compile]. *)
Definition compileInstructionKeys (m : KeyMetaMap) (ix : TransactionInstruction)
  : KeyMetaMap :=
  fold_left
    (fun m accountMeta =>
       getOrInsertDefault (pubkey accountMeta) (mergeAccountMeta accountMeta) m)
    (keys ix)
    (getOrInsertDefault (programId ix) setInvoked m).

(** [CompiledKeys.compile(instructions, payer)] *)
Definition CompiledKeys_compile (instructions : list TransactionInstruction)
    (payerKey : PublicKey) : CompiledKeys :=
  {| payer := payerKey;
     keyMetaMap :=
       fold_left compileInstructionKeys instructions
         (getOrInsertDefault payerKey setPayer []) |}.

Fixpoint findIndex {A} (p : A -> bool) (l : list A) : option nat :=
  match l with
  | [] => None
  | a :: rest => if p a then Some O else option_map S (findIndex p rest)
  end.

(** [drainKeysFoundInLookupTable(lookupTableEntries, keyMetaFilter)]: the
    table indexes and the keys drained, and the map without them. *)
Fixpoint drainKeysFoundInLookupTable (lookupTableEntries : list PublicKey)
    (keyMetaFilter : CompiledKeyMeta -> bool) (m : KeyMetaMap)
  : Result (list Z * list PublicKey * KeyMetaMap) :=
  match m with
  | [] => Ok ([], [], [])
  | (address, meta) :: rest =>
      let lookupTableIndex :=
        if keyMetaFilter meta
        then findIndex (fun entry => equals entry address) lookupTableEntries
        else None in
      match lookupTableIndex with
      | Some i =>
          if Nat.ltb i 256 then
            rbind (drainKeysFoundInLookupTable lookupTableEntries
                     keyMetaFilter rest)
              (fun r => Ok (Z.of_nat i :: fst (fst r),
                            address :: snd (fst r), snd r))
          else Thrown (Error "Max lookup table index exceeded")
      | None =>
          rbind (drainKeysFoundInLookupTable lookupTableEntries
                   keyMetaFilter rest)
            (fun r => Ok (fst (fst r), snd (fst r), (address, meta) :: snd r))
      end
  end.

Record MessageAddressTableLookup : Type := {
  accountKey : PublicKey;
  writableIndexes : list Z;
  readonlyIndexes : list Z
}.

Record AccountKeysFromLookups : Type := {
  writable : list PublicKey;
  readonly : list PublicKey
}.

Definition writableFilter (meta : CompiledKeyMeta) : bool :=
  negb (keyIsSigner meta) && negb (keyIsInvoked meta) && keyIsWritable meta.

Definition readonlyFilter (meta : CompiledKeyMeta) : bool :=
  negb (keyIsSigner meta) && negb (keyIsInvoked meta)
  && negb (keyIsWritable meta).

(** [extractTableLookup(lookupTable)]: [None] is [undefined], returned when
    no key of the map is in the table. *)
Definition extractTableLookup (lookupTable : AddressLookupTableAccount PublicKey)
    (m : KeyMetaMap)
  : Result (option (MessageAddressTableLookup * AccountKeysFromLookups)
            * KeyMetaMap) :=
  rbind (drainKeysFoundInLookupTable (addresses (state lookupTable))
           writableFilter m)
    (fun w =>
       rbind (drainKeysFoundInLookupTable (addresses (state lookupTable))
                readonlyFilter (snd w))
         (fun r =>
            match fst (fst w), fst (fst r) with
            | [], [] => Ok (None, snd r)
            | _, _ =>
                Ok (Some ({| accountKey := key lookupTable;
                             writableIndexes := fst (fst w);
                             readonlyIndexes := fst (fst r) |},
                          {| writable := snd (fst w);
                             readonly := snd (fst r) |}),
                    snd r)
            end)).

Record MessageHeader : Type := {
  numRequiredSignatures : Z;
  numReadonlySignedAccounts : Z;
  numReadonlyUnsignedAccounts : Z
}.

Definition entries_where (p : CompiledKeyMeta -> bool) (m : KeyMetaMap)
  : list PublicKey :=
  map fst (filter (fun entry => p (snd entry)) m).

(** [getMessageComponents()] *)
Definition getMessageComponents (ck : CompiledKeys)
  : Result (MessageHeader * list PublicKey) :=
  let m := keyMetaMap ck in
  if Nat.ltb 256 (List.length m)
  then Thrown (Error "Max static account keys length exceeded")
  else
    let writableSigners :=
      entries_where (fun meta => keyIsSigner meta && keyIsWritable meta) m in
    let readonlySigners :=
      entries_where (fun meta => keyIsSigner meta && negb (keyIsWritable meta)) m in
    let writableNonSigners :=
      entries_where (fun meta => negb (keyIsSigner meta) && keyIsWritable meta) m in
    let readonlyNonSigners :=
      entries_where
        (fun meta => negb (keyIsSigner meta) && negb (keyIsWritable meta)) m in
    let header :=
      {| numRequiredSignatures :=
           Z.of_nat (List.length writableSigners + List.length readonlySigners);
         numReadonlySignedAccounts := Z.of_nat (List.length readonlySigners);
         numReadonlyUnsignedAccounts :=
           Z.of_nat (List.length readonlyNonSigners) |} in
    match writableSigners with
    | [] => Thrown (Error "Expected at least one writable signer key")
    | payerAddress :: _ =>
        if equals payerAddress (payer ck) then
          Ok (header,
              writableSigners ++ readonlySigners ++ writableNonSigners
              ++ readonlyNonSigners)
        else
          Thrown (Error "Expected first writable signer key to be the fee payer")
    end.

(** ** [MessageV0] *)

Record MessageCompiledInstruction : Type := {
  programIdIndex : Z;
  accountKeyIndexes : list Z;
  compiledData : list Z
}.

Record MessageV0 : Type := {
  header : MessageHeader;
  staticAccountKeys : list PublicKey;
  recentBlockhash : string;
  compiledInstructions : list MessageCompiledInstruction;
  addressTableLookups : list MessageAddressTableLookup
}.

Declare Scope result_scope.
Delimit Scope result_scope with result.
Notation "x <- r ;; k" := (rbind r (fun x => k))
  (at level 61, r at next level, right associativity) : result_scope.
Local Open Scope result_scope.

(** The loop over the lookup tables in [MessageV0.compile]. *)
Fixpoint extractLookups (tables : list (AddressLookupTableAccount PublicKey))
    (m : KeyMetaMap)
  : Result (list MessageAddressTableLookup * AccountKeysFromLookups
            * KeyMetaMap) :=
  match tables with
  | [] => Ok ([], {| writable := []; readonly := [] |}, m)
  | lookupTable :: rest =>
      extractResult <- extractTableLookup lookupTable m ;;
      later <- extractLookups rest (snd extractResult) ;;
      match fst extractResult with
      | None => Ok later
      | Some (addressTableLookup, drained) =>
          Ok (addressTableLookup :: fst (fst later),
              {| writable := writable drained ++ writable (snd (fst later));
                 readonly := readonly drained ++ readonly (snd (fst later)) |},
              snd later)
      end
  end.

(** The index [keyIndexMap] gives a key: the map is filled from the flat key
    list in order, so the last position of a key is the one it keeps. *)
Definition findKeyIndex (flat : list PublicKey) (k : PublicKey) : Result Z :=
  match findIndex (fun entry => equals entry k) (rev flat) with
  | Some i => Ok (Z.of_nat (List.length flat - 1 - i))
  | None =>
      Thrown (Error
        "Encountered an unknown instruction account key during compilation")
  end.

Fixpoint findKeyIndexes (flat : list PublicKey) (ks : list PublicKey)
  : Result (list Z) :=
  match ks with
  | [] => Ok []
  | k :: rest =>
      i <- findKeyIndex flat k ;;
      others <- findKeyIndexes flat rest ;;
      Ok (i :: others)
  end.

Fixpoint compileEach (flat : list PublicKey)
    (instructions : list TransactionInstruction)
  : Result (list MessageCompiledInstruction) :=
  match instructions with
  | [] => Ok []
  | instruction :: rest =>
      p <- findKeyIndex flat (programId instruction) ;;
      accounts <- findKeyIndexes flat (map pubkey (keys instruction)) ;;
      compiledRest <- compileEach flat rest ;;
      Ok ({| programIdIndex := p;
             accountKeyIndexes := accounts;
             compiledData := data instruction |} :: compiledRest)
  end.

(** [MessageAccountKeys.compileInstructions(instructions)] over the key
    segments: static keys, then writable and readonly keys from lookups. *)
Definition compileInstructions (static : list PublicKey)
    (fromLookups : AccountKeysFromLookups)
    (instructions : list TransactionInstruction)
  : Result (list MessageCompiledInstruction) :=
  let flat := static ++ writable fromLookups ++ readonly fromLookups in
  if Nat.ltb 256 (List.length flat)
  then Thrown (Error "Account index overflow encountered during compilation")
  else compileEach flat instructions.

(** [MessageV0.compile({payerKey, recentBlockhash, instructions,
    addressLookupTableAccounts})] *)
Definition MessageV0_compile (payerKey : PublicKey) (blockhash : string)
    (instructions : list TransactionInstruction)
    (addressLookupTableAccounts :
       option (list (AddressLookupTableAccount PublicKey)))
  : Result MessageV0 :=
  let compiledKeys := CompiledKeys_compile instructions payerKey in
  let lookupTableAccounts :=
    match addressLookupTableAccounts with
    | Some tables => tables
    | None => []
    end in
  extracted <- extractLookups lookupTableAccounts (keyMetaMap compiledKeys) ;;
  components <- getMessageComponents
                  {| payer := payer compiledKeys;
                     keyMetaMap := snd extracted |} ;;
  compiled <- compileInstructions (snd components) (snd (fst extracted))
                instructions ;;
  Ok {| header := fst components;
        staticAccountKeys := snd components;
        recentBlockhash := blockhash;
        compiledInstructions := compiled;
        addressTableLookups := fst (fst extracted) |}.

(** ** Wire format *)

(** The size of the buffers a message is serialized into. *)
Definition PACKET_DATA_SIZE : nat := 1232.

Definition SIGNATURE_LENGTH_IN_BYTES : nat := 64.

(** [shortvec.encodeLength]: seven bits a byte, least significant first. *)
Fixpoint encodeLength_fuel (fuel : nat) (len : Z) : list Z :=
  match fuel with
  | O => []
  | S f =>
      let elem := Z.land len 127 in
      let rem_len := Z.shiftr len 7 in
      if rem_len =? 0 then [elem]
      else Z.lor elem 128 :: encodeLength_fuel f rem_len
  end.

Definition encodeLength (len : nat) : list Z :=
  encodeLength_fuel (S (Z.to_nat (Z.log2 (Z.of_nat len)))) (Z.of_nat len).

(** A layout's [encode] into a buffer of [capacity] bytes, at the end of
    what is [written] so far: an encoding past the end of the buffer throws
    a [RangeError]. *)
Definition encode (capacity : nat) (src : list Z) (written : list Z)
  : Result (list Z) :=
  if Nat.leb (List.length written + List.length src) capacity
  then Ok (written ++ src)
  else Thrown (RangeError "encoding overruns Uint8Array").

(** [BufferLayout.blob(n)]: the source must have exactly [n] bytes. *)
Definition encodeBlob (n capacity : nat) (src : list Z) (written : list Z)
  : Result (list Z) :=
  if Nat.eqb (List.length src) n then encode capacity src written
  else Thrown (TypeError "Blob.encode requires a Uint8Array of its length as src").

Fixpoint encodeSeq {A} (element : A -> list Z -> Result (list Z))
    (src : list A) (written : list Z) : Result (list Z) :=
  match src with
  | [] => Ok written
  | a :: rest =>
      w <- element a written ;;
      encodeSeq element rest w
  end.

Definition encodeInstruction (capacity : nat)
    (instruction : MessageCompiledInstruction) (written : list Z)
  : Result (list Z) :=
  w <- encode capacity [programIdIndex instruction] written ;;
  w <- encode capacity
         (encodeLength (List.length (accountKeyIndexes instruction))) w ;;
  w <- encode capacity (accountKeyIndexes instruction) w ;;
  w <- encode capacity
         (encodeLength (List.length (compiledData instruction))) w ;;
  encode capacity (compiledData instruction) w.

(** [serializeInstructions()] *)
Definition serializeInstructions (instructions : list MessageCompiledInstruction)
  : Result (list Z) :=
  encodeSeq (encodeInstruction PACKET_DATA_SIZE) instructions [].

Definition encodeLookup (capacity : nat) (lookup : MessageAddressTableLookup)
    (written : list Z) : Result (list Z) :=
  w <- encodeBlob PUBLIC_KEY_LENGTH capacity (toBytes (accountKey lookup))
         written ;;
  w <- encode capacity
         (encodeLength (List.length (writableIndexes lookup))) w ;;
  w <- encode capacity (writableIndexes lookup) w ;;
  w <- encode capacity
         (encodeLength (List.length (readonlyIndexes lookup))) w ;;
  encode capacity (readonlyIndexes lookup) w.

(** [serializeAddressTableLookups()] *)
Definition serializeAddressTableLookups
    (lookups : list MessageAddressTableLookup) : Result (list Z) :=
  encodeSeq (encodeLookup PACKET_DATA_SIZE) lookups [].

Definition MESSAGE_VERSION_0_PREFIX : Z := Z.shiftl 1 7.

(** [MessageV0.serialize()] *)
Definition MessageV0_serialize (message : MessageV0) : Result (list Z) :=
  let capacity := PACKET_DATA_SIZE in
  serializedInstructions <-
    serializeInstructions (compiledInstructions message) ;;
  serializedAddressTableLookups <-
    serializeAddressTableLookups (addressTableLookups message) ;;
  blockhashBytes <- bs58_decode (recentBlockhash message) ;;
  w <- encode capacity [MESSAGE_VERSION_0_PREFIX] [] ;;
  w <- encode capacity
         [numRequiredSignatures (header message);
          numReadonlySignedAccounts (header message);
          numReadonlyUnsignedAccounts (header message)] w ;;
  w <- encode capacity
         (encodeLength (List.length (staticAccountKeys message))) w ;;
  w <- encodeSeq
         (fun k => encodeBlob PUBLIC_KEY_LENGTH capacity (toBytes k))
         (staticAccountKeys message) w ;;
  w <- encodeBlob PUBLIC_KEY_LENGTH capacity blockhashBytes w ;;
  w <- encode capacity
         (encodeLength (List.length (compiledInstructions message))) w ;;
  w <- encode capacity serializedInstructions w ;;
  w <- encode capacity
         (encodeLength (List.length (addressTableLookups message))) w ;;
  encode capacity serializedAddressTableLookups w.

(** ** The bytes of a message

    What the encoders above write when nothing overruns a buffer. *)

Definition instructionBytes (instruction : MessageCompiledInstruction)
  : list Z :=
  [programIdIndex instruction]
  ++ encodeLength (List.length (accountKeyIndexes instruction))
  ++ accountKeyIndexes instruction
  ++ encodeLength (List.length (compiledData instruction))
  ++ compiledData instruction.

Definition lookupBytes (lookup : MessageAddressTableLookup) : list Z :=
  toBytes (accountKey lookup)
  ++ encodeLength (List.length (writableIndexes lookup))
  ++ writableIndexes lookup
  ++ encodeLength (List.length (readonlyIndexes lookup))
  ++ readonlyIndexes lookup.

Definition messageBytes (m : MessageV0) (blockhashBytes : list Z) : list Z :=
  [MESSAGE_VERSION_0_PREFIX]
  ++ [numRequiredSignatures (header m);
      numReadonlySignedAccounts (header m);
      numReadonlyUnsignedAccounts (header m)]
  ++ encodeLength (List.length (staticAccountKeys m))
  ++ List.concat (map toBytes (staticAccountKeys m))
  ++ blockhashBytes
  ++ encodeLength (List.length (compiledInstructions m))
  ++ List.concat (map instructionBytes (compiledInstructions m))
  ++ encodeLength (List.length (addressTableLookups m))
  ++ List.concat (map lookupBytes (addressTableLookups m)).

(** ** Transactions of transfers

    The shape of what [compareTxSize] compiles: transfers from the payer to
    the addresses of a table. *)

(** The flags of the payer, of the invoked program (writable when it is
    itself a recipient) and of a recipient. *)
Definition payerMeta : CompiledKeyMeta :=
  {| keyIsSigner := true; keyIsWritable := true; keyIsInvoked := false |}.

Definition programMetaOf (isRecipient : bool) : CompiledKeyMeta :=
  {| keyIsSigner := false; keyIsWritable := isRecipient;
     keyIsInvoked := true |}.

Definition recipientMeta : CompiledKeyMeta :=
  {| keyIsSigner := false; keyIsWritable := true; keyIsInvoked := false |}.

Definition recipients (l : list PublicKey) : KeyMetaMap :=
  map (fun a => (a, recipientMeta)) l.

(** The key map of such a transaction: the payer, the System Program, then
    the other recipients. *)
Definition transferKeys (from : PublicKey) (programIsRecipient : bool)
    (others : list PublicKey) : KeyMetaMap :=
  (from, payerMeta)
  :: (SystemProgram_programId, programMetaOf programIsRecipient)
  :: recipients others.

(** The recipients that get an entry of their own in the key map: an
    address that is neither the payer's nor the System Program's, the first
    time it is seen. *)
Definition addRecipient (from : PublicKey) (seen : list PublicKey)
    (to : PublicKey) : list PublicKey :=
  if equals to from || equals to SystemProgram_programId
     || existsb (equals to) seen
  then seen
  else seen ++ [to].

(** The distinct addresses of [l] other than the payer's and the System
    Program's, in the order of their first occurrence: the keys a lookup
    table holding [l] replaces by an index. *)
Definition replaced (from : PublicKey) (l : list PublicKey) : list PublicKey :=
  fold_left (addRecipient from) l [].

(** A compiled transfer: two account indexes and twelve bytes of data. *)
Definition transferShape (instruction : MessageCompiledInstruction) : Prop :=
  List.length (accountKeyIndexes instruction) = 2%nat
  /\ List.length (compiledData instruction) = 12%nat.

(** The length of the message that carries [k] such transfers when [d]
    recipients have a key of their own.  Without a lookup table: the version
    byte, three header bytes, the key count, 32 bytes for each of the
    [d + 2] static keys, the 32-byte blockhash, the instruction count, 17
    bytes for each transfer and the count of table lookups. *)
Definition messageSizeWithout (d k : nat) : nat := 103 + 32 * d + 17 * k.

(** With a table that holds the recipients, only the payer and the program
    stay static; the lookup adds the table's 32-byte address, two list
    lengths and one index byte for each of the [d] recipients.  When no
    recipient has a key of its own the table is not referenced. *)
Definition messageSizeWith (d k : nat) : nat :=
  match d with
  | O => messageSizeWithout 0 k
  | S _ => 137 + d + 17 * k
  end.

(** A transaction with one signature: the signature count, the signature,
    the message. *)
Definition signedSize (messageSize : nat) : nat := 1 + 64 + messageSize.

(** ** [VersionedTransaction] *)

Record VersionedTransaction : Type := {
  signatures : list (list Z);
  message : MessageV0
}.

(** [new VersionedTransaction(message)]: one all-zero signature for each
    required signer. *)
Definition new_VersionedTransaction (m : MessageV0) : VersionedTransaction :=
  {| signatures :=
       repeat (repeat 0 SIGNATURE_LENGTH_IN_BYTES)
              (Z.to_nat (numRequiredSignatures (header m)));
     message := m |}.

(** [array[i] = v] for an index inside the array. *)
Fixpoint assign {A} (l : list A) (i : nat) (v : A) : list A :=
  match l, i with
  | [], _ => []
  | _ :: rest, O => v :: rest
  | a :: rest, S j => a :: assign rest j v
  end.

Section Signing.

Context {primitives : Primitives}.

Fixpoint signEach (messageData : list Z) (signerPubkeys : list PublicKey)
    (signers : list Keypair) (sigs : list (list Z)) : Result (list (list Z)) :=
  match signers with
  | [] => Ok sigs
  | signer :: rest =>
      match findIndex (fun k => equals k (publicKey signer)) signerPubkeys with
      | Some signerIndex =>
          signEach messageData signerPubkeys rest
            (assign sigs signerIndex
               (ed25519_sign messageData (secretKey signer)))
      | None =>
          Thrown (Error ("Cannot sign with non signer key "
                         ++ toBase58 (publicKey signer)))
      end
  end.

(** [transaction.sign(signers)] *)
Definition sign (transaction : VersionedTransaction) (signers : list Keypair)
  : Result VersionedTransaction :=
  messageData <- MessageV0_serialize (message transaction) ;;
  let signerPubkeys :=
    firstn (Z.to_nat (numRequiredSignatures (header (message transaction))))
           (staticAccountKeys (message transaction)) in
  sigs <- signEach messageData signerPubkeys signers (signatures transaction) ;;
  Ok {| signatures := sigs; message := message transaction |}.

(** [transaction.serialize()], into a buffer of 2048 bytes. *)
Definition serialize (transaction : VersionedTransaction) : Result (list Z) :=
  let capacity := 2048%nat in
  serializedMessage <- MessageV0_serialize (message transaction) ;;
  w <- encode capacity
         (encodeLength (List.length (signatures transaction))) [] ;;
  w <- encodeSeq (encodeBlob SIGNATURE_LENGTH_IN_BYTES capacity)
         (signatures transaction) w ;;
  encode capacity serializedMessage w.

(** ** [AddressLookupTableProgram] *)

(** [AddressLookupTab1e1111111111111111111111111] *)
Definition AddressLookupTableProgram_programId : PublicKey :=
  Eval vm_compute in
    match new_PublicKey "AddressLookupTab1e1111111111111111111111111" with
    | Ok k => k
    | Thrown _ => 0%N
    end.

Definition MAX_SEED_LENGTH : nat := 32.

Fixpoint concatSeeds (seeds : list (list Z)) : Result (list Z) :=
  match seeds with
  | [] => Ok []
  | seed :: rest =>
      if Nat.ltb MAX_SEED_LENGTH (List.length seed)
      then Thrown (TypeError "Max seed length exceeded")
      else (buffer <- concatSeeds rest ;; Ok (seed ++ buffer))
  end.

Definition ascii_bytes (s : string) : list Z :=
  map (fun c => Z.of_nat (nat_of_ascii c)) (list_ascii_of_string s).

(** [PublicKey.createProgramAddressSync(seeds, programId)] *)
Definition createProgramAddressSync (seeds : list (list Z))
    (program : PublicKey) : Result PublicKey :=
  buffer <- concatSeeds seeds ;;
  let publicKeyBytes :=
    sha256 (buffer ++ toBytes program ++ ascii_bytes "ProgramDerivedAddress") in
  if isOnCurve publicKeyBytes
  then Thrown (Error "Invalid seeds, address must fall off the curve")
  else PublicKey_of_bytes publicKeyBytes.

(** The loop of [PublicKey.findProgramAddressSync], from [nonce] down to 1:
    a [TypeError] is thrown on, any other error tries the next nonce. *)
Fixpoint findProgramAddress_from (nonce : nat) (seeds : list (list Z))
    (program : PublicKey) : Result (PublicKey * Z) :=
  match nonce with
  | O => Thrown (Error "Unable to find a viable program address nonce")
  | S next =>
      match createProgramAddressSync (seeds ++ [[Z.of_nat nonce]]) program with
      | Ok address => Ok (address, Z.of_nat nonce)
      | Thrown (TypeError msg) => Thrown (TypeError msg)
      | Thrown _ => findProgramAddress_from next seeds program
      end
  end.

Definition findProgramAddressSync (seeds : list (list Z))
    (program : PublicKey) : Result (PublicKey * Z) :=
  findProgramAddress_from 255 seeds program.

(** [AddressLookupTableProgram.createLookupTable({authority, payer,
    recentSlot})]: the table's address is derived from the authority and
    the slot; the instruction has index 0. *)
Definition createLookupTable (authority payerKey : PublicKey) (recentSlot : Z)
  : Result (TransactionInstruction * PublicKey) :=
  derived <- findProgramAddressSync [toBytes authority; u64 recentSlot]
               AddressLookupTableProgram_programId ;;
  let lookupTableAddress := fst derived in
  let bumpSeed := snd derived in
  Ok ({| keys :=
           [ {| pubkey := lookupTableAddress; isSigner := false;
                isWritable := true |};
             {| pubkey := authority; isSigner := true; isWritable := false |};
             {| pubkey := payerKey; isSigner := true; isWritable := true |};
             {| pubkey := SystemProgram_programId; isSigner := false;
                isWritable := false |} ];
         programId := AddressLookupTableProgram_programId;
         data := u32 0 ++ u64 recentSlot ++ [bumpSeed] |},
      lookupTableAddress).

(** [AddressLookupTableProgram.extendLookupTable({payer, authority,
    lookupTable, addresses})]: instruction index 2, the number of addresses,
    then the addresses, 32 bytes each. *)
Definition extendLookupTable (payerKey : option PublicKey)
    (authority lookupTable : PublicKey) (newAddresses : list PublicKey)
  : TransactionInstruction :=
  {| keys :=
       [ {| pubkey := lookupTable; isSigner := false; isWritable := true |};
         {| pubkey := authority; isSigner := true; isWritable := false |} ]
       ++ match payerKey with
          | Some p =>
              [ {| pubkey := p; isSigner := true; isWritable := true |};
                {| pubkey := SystemProgram_programId; isSigner := false;
                   isWritable := false |} ]
          | None => []
          end;
     programId := AddressLookupTableProgram_programId;
     data := u32 2 ++ u64 (Z.of_nat (List.length newAddresses))
             ++ List.concat (map toBytes newAddresses) |}.

(** The SDK as the [web3] object of the script. *)
#[export] Instance web3js : Web3 :=
  @Build_Web3 PublicKey Keypair TransactionInstruction MessageV0
    VersionedTransaction
    publicKey new_PublicKey toBase58
    MessageV0_compile new_VersionedTransaction sign serialize
    (fun fromPubkey toPubkey lamports =>
       Ok (SystemProgram_transfer fromPubkey toPubkey lamports))
    createLookupTable
    (fun payerKey authority lookupTable newAddresses =>
       Ok (extendLookupTable (Some payerKey) authority lookupTable newAddresses)).

End Signing.

End Web3js.

(** * A scripted cluster

    Closed examples run the script with the SDK above on a cluster that
    answers every request from a fixed script, with stand-ins for the
    primitives and a key pair of its own. *)

Module Demo.

(** Stand-ins for the primitives: they have the sizes of the real ones. *)
Definition primitives : Web3js.Primitives :=
  {| Web3js.sha256 :=
       fun buffer => repeat 0%Z 31 ++ [Z.of_nat (List.length buffer) mod 256]%Z;
     Web3js.isOnCurve := fun _ => false;
     Web3js.ed25519_sign := fun _ _ => repeat 0%Z 64 |}.

Definition sdk : Web3 := @Web3js.web3js primitives.

Definition me : Web3js.Keypair :=
  {| Web3js.publicKey := 2024%N; Web3js.secretKey := repeat 0%Z 64 |}.

(** The answers of a scripted cluster. *)
Record Answers : Type := {
  slot : Result Z;
  latest : Result BlockhashWithExpiryBlockHeight;
  sent : Result string;
  status : Result SignatureResult;
  table : Result (option (AddressLookupTableAccount Web3js.PublicKey))
}.

Definition scripted (a : Answers) : @Cluster sdk :=
  {| ledger := unit;
     rpc := fun c st =>
       (match c return Result (@Resp sdk c) with
        | getSlot => slot a
        | getLatestBlockhash _ => latest a
        | sendTransaction _ => sent a
        | confirmTransaction _ _ _ => status a
        | getAddressLookupTable _ => table a
        end, st);
     elapse := fun _ st => st |}.

Definition tableAddress : Web3js.PublicKey := 4242%N.

Definition tableOf (l : list Web3js.PublicKey)
  : AddressLookupTableAccount Web3js.PublicKey :=
  {| key := tableAddress;
     state := {| deactivationSlot := 18446744073709551615;
                 lastExtendedSlot := 0;
                 lastExtendedSlotStartIndex := 0;
                 authority := Some (Web3js.publicKey me);
                 addresses := l |} |}.

(** The four addresses of [main]. *)
Definition fourAddresses : list Web3js.PublicKey :=
  Eval vm_compute in
    match @publicKeys sdk address_literals with
    | Ok ks => ks
    | Thrown _ => []
    end.

(** A cluster on which every request resolves; [getAddressLookupTable]
    answers [found]. *)
Definition answering (blockhashText : string)
    (found : option (AddressLookupTableAccount Web3js.PublicKey)) : Answers :=
  {| slot := Ok 250000000%Z;
     latest := Ok {| blockhash := blockhashText; lastValidBlockHeight := 1500 |};
     sent := Ok "5VERv8NMvzbJMEkV8xnrLkEaWRtSz9CosKDYjCJjBRnbJLgp8uirBgmQpjKhoR4tjF3ZpRzrFmBV6UjKdiSZkQUW"%string;
     status := Ok {| err := None |};
     table := Ok found |}.

(** The same, but the confirmation is rejected. *)
Definition expiring (blockhashText : string) : Answers :=
  {| slot := Ok 250000000%Z;
     latest := Ok {| blockhash := blockhashText; lastValidBlockHeight := 1500 |};
     sent := Ok "5VERv8NMvzbJMEkV8xnrLkEaWRtSz9CosKDYjCJjBRnbJLgp8uirBgmQpjKhoR4tjF3ZpRzrFmBV6UjKdiSZkQUW"%string;
     status := Thrown (RpcError "block height exceeded");
     table := Ok None |}.

Definition blockhash1 : string := "11111111111111111111111111111111".
Definition blockhash2 : string := "4vJ9JU1bJJE96FWSJKvHsmmFADCg4gpZQff4P3bkLKi".

(** Clusters and values for the examples. *)

Definition absentCluster : @Cluster sdk :=
  scripted (answering blockhash1 None).

Definition otherCluster : @Cluster sdk :=
  scripted (answering blockhash2 None).

Definition expiringCluster : @Cluster sdk :=
  scripted (expiring blockhash2).

Definition clusterWith (l : list Web3js.PublicKey) : @Cluster sdk :=
  scripted (answering blockhash2 (Some (tableOf l))).

Definition latestOf (text : string) : BlockhashWithExpiryBlockHeight :=
  {| blockhash := text; lastValidBlockHeight := 1500 |}.

(** The instruction [addAddress] submits for the four addresses. *)
Definition extendWithFour : Web3js.TransactionInstruction :=
  Web3js.extendLookupTable (Some (Web3js.publicKey me))
    (Web3js.publicKey me) tableAddress fourAddresses.

(** [n] distinct addresses, none of them the payer's, the table's or a
    program's. *)
Definition addressesFrom (n : nat) : list Web3js.PublicKey :=
  map N.of_nat (seq 1000 n).

(** The transactions the script builds on these clusters. *)
Definition noTransaction : Web3js.VersionedTransaction :=
  {| Web3js.signatures := [];
     Web3js.message :=
       {| Web3js.header := {| Web3js.numRequiredSignatures := 0;
                              Web3js.numReadonlySignedAccounts := 0;
                              Web3js.numReadonlyUnsignedAccounts := 0 |};
          Web3js.staticAccountKeys := [];
          Web3js.recentBlockhash := "";
          Web3js.compiledInstructions := [];
          Web3js.addressTableLookups := [] |} |}.

Definition signed (text : string)
    (instructions : list Web3js.TransactionInstruction)
    (tables : option (list (AddressLookupTableAccount Web3js.PublicKey)))
  : Web3js.VersionedTransaction :=
  match @signedV0 sdk me text instructions tables with
  | Ok transaction => transaction
  | Thrown _ => noTransaction
  end.

Definition serialized (transaction : Web3js.VersionedTransaction) : list Z :=
  match @serialize sdk transaction with
  | Ok bytes => bytes
  | Thrown _ => []
  end.

Definition extensionTransaction : Web3js.VersionedTransaction :=
  Eval vm_compute in signed blockhash2 [extendWithFour] None.

(** What [createLookupTable] gives for the payer and the slot the clusters
    answer. *)
Definition created : Web3js.TransactionInstruction * Web3js.PublicKey :=
  Eval vm_compute in
    match @createLookupTable sdk (Web3js.publicKey me) (Web3js.publicKey me)
            250000000%Z with
    | Ok instructionAndAddress => instructionAndAddress
    | Thrown _ => (extendWithFour, 0%N)
    end.

Definition creationTransaction : Web3js.VersionedTransaction :=
  Eval vm_compute in signed blockhash2 [fst created] None.

Definition transfersToFour : list Web3js.TransactionInstruction :=
  map (fun to => Web3js.SystemProgram_transfer (Web3js.publicKey me) to
                   lamports_per_transfer) fourAddresses.

Definition withTable : Web3js.VersionedTransaction :=
  Eval vm_compute in
    signed blockhash2 transfersToFour (Some [tableOf fourAddresses]).

Definition withoutTable : Web3js.VersionedTransaction :=
  Eval vm_compute in signed blockhash2 transfersToFour None.

(** The extension of the table [createLookupTable] gives. *)
Definition extensionOfCreated : Web3js.VersionedTransaction :=
  Eval vm_compute in
    signed blockhash2
      [Web3js.extendLookupTable (Some (Web3js.publicKey me))
         (Web3js.publicKey me) (snd created) fourAddresses] None.

End Demo.

(** * Properties of the script

    The properties of this section hold for every implementation of the
    [web3] object and every cluster. *)

Section Properties.

Context {web3 : Web3}.
Variable payer : Keypair.
Variable net : Cluster.

Lemma exec_bind : forall A B (p : Prog A) (f : A -> Prog B) (st : ledger net),
    exec net (bind p f) st
    = andThen (exec net p st) (fun a st' => exec net (f a) st').
Proof.
  intros A B p f. induction p as [a|e|c k IH|args k IH|ms k IH]; intros st.
  - unfold andThen; simpl. destruct (exec net (f a) st); reflexivity.
  - reflexivity.
  - simpl. destruct (fst (rpc net c st)) as [x|e]; [|reflexivity].
    rewrite IH. unfold andThen, after; simpl.
    destruct (outcome (exec net (k x) (snd (rpc net c st)))); reflexivity.
  - simpl. rewrite IH. unfold andThen, after; simpl.
    destruct (outcome (exec net k st)); reflexivity.
  - simpl. rewrite IH. unfold andThen, after; simpl.
    destruct (outcome (exec net k (elapse net ms st))); reflexivity.
Qed.

Lemma andThen_ext : forall L A B (r : Run L A) (f g : A -> L -> Run L B),
    (forall a st, f a st = g a st) -> andThen r f = andThen r g.
Proof.
  intros L A B r f g H. unfold andThen.
  destruct (outcome r); [rewrite H|]; reflexivity.
Qed.

Lemma exec_log_then : forall A args (k : Prog A) (st : ledger net),
    exec net (console_log args ;; k)%prog st
    = after (Printed args) (exec net k st).
Proof. reflexivity. Qed.

Lemma exec_timeout_then : forall A ms (k : Prog A) (st : ledger net),
    exec net (setTimeout ms ;; k)%prog st
    = after (Slept ms) (exec net k (elapse net ms st)).
Proof. reflexivity. Qed.

Lemma exec_await_then : forall A (c : Call) (k : Resp c -> Prog A)
                               (st : ledger net),
    exec net (x <- await c ;; k x)%prog st
    = match fst (rpc net c st) with
      | Ok x => after (Requested c (Ok x)) (exec net (k x) (snd (rpc net c st)))
      | Thrown e => {| trace := [Requested c (Thrown e)];
                       final := snd (rpc net c st);
                       outcome := Thrown e |}
      end.
Proof. reflexivity. Qed.

Lemma exec_call_then : forall A B (r : Result A) (k : A -> Prog B)
                              (st : ledger net),
    exec net (x <- call r ;; k x)%prog st
    = match r with
      | Ok a => exec net (k a) st
      | Thrown e => {| trace := []; final := st; outcome := Thrown e |}
      end.
Proof. intros A B [a|e] k st; reflexivity. Qed.

Lemma signedV0_inv : forall recentBlockhash instructions tables transaction,
    signedV0 payer recentBlockhash instructions tables = Ok transaction ->
    exists message,
      compileToV0Message (publicKey payer) recentBlockhash instructions tables
      = Ok message
      /\ sign (new_VersionedTransaction message) [payer] = Ok transaction.
Proof.
  unfold signedV0. intros b ixs tables tx H.
  destruct (compileToV0Message (publicKey payer) b ixs tables) as [m|e].
  - exists m. split; [reflexivity|exact H].
  - discriminate H.
Qed.

Lemma createAndSendV0Tx_run :
  forall arrayOfInstructions (st st1 st2 st3 : ledger net)
         latestBlockhash transactionV0 txid status,
    rpc net (getLatestBlockhash finalized) st = (Ok latestBlockhash, st1) ->
    signedV0 payer (blockhash latestBlockhash) arrayOfInstructions None
    = Ok transactionV0 ->
    rpc net (sendTransaction transactionV0) st1 = (Ok txid, st2) ->
    rpc net (confirmTransaction txid (blockhash latestBlockhash)
               (lastValidBlockHeight latestBlockhash)) st2
    = (Ok status, st3) ->
    exec net (createAndSendV0Tx payer arrayOfInstructions) st
    = {| trace := submitted_trace latestBlockhash transactionV0 txid status;
         final := st3;
         outcome := Ok tt |}.
Proof.
  intros ixs st st1 st2 st3 bh tx txid status Hbh Hsigned Hsend Hconfirm.
  destruct (signedV0_inv _ _ _ Hsigned) as [m [Hm Hs]].
  unfold createAndSendV0Tx. simpl.
  rewrite Hbh. simpl. rewrite Hm. simpl. rewrite Hs. simpl.
  rewrite Hsend. simpl. rewrite Hconfirm. reflexivity.
Qed.

(** One step of a run: destruct the answer to the next request, or the
    result of the next SDK call. *)
Ltac run_step :=
  match goal with
  | |- context [rpc ?n ?c ?s] =>
      let r := fresh "answer" in
      let s' := fresh "st" in
      let E := fresh "E" in
      destruct (rpc n c s) as [r s'] eqn:E; destruct r; simpl
  | |- context [call ?r] =>
      let E := fresh "E" in destruct r eqn:E; simpl
  | |- context [match ?x with Some _ => _ | None => _ end] =>
      is_var x; destruct x; simpl
  end.

(** C4. Whenever the cluster answers and the SDK compiles and signs,
    [createAndSendV0Tx] does, in this order: fetch a blockhash, compile a v0
    message from that blockhash, the given instructions and the payer's key,
    sign it with the payer, send the transaction, and await its confirmation
    with the signature, the blockhash and its last valid block height; the
    run is then exactly this sequence and it completes.  It completes in no
    other case.  In every run, completed or not, a transaction that was sent
    carries the blockhash fetched in that same run. *)
Theorem createAndSendV0Tx_sequence :
  forall (arrayOfInstructions : list TransactionInstruction) (st : ledger net),
    let r := exec net (createAndSendV0Tx payer arrayOfInstructions) st in
    (forall latestBlockhash transactionV0 txid status st1 st2 st3,
        rpc net (getLatestBlockhash finalized) st = (Ok latestBlockhash, st1) ->
        signedV0 payer (blockhash latestBlockhash) arrayOfInstructions None
        = Ok transactionV0 ->
        rpc net (sendTransaction transactionV0) st1 = (Ok txid, st2) ->
        rpc net (confirmTransaction txid (blockhash latestBlockhash)
                   (lastValidBlockHeight latestBlockhash)) st2
        = (Ok status, st3) ->
        r = {| trace := submitted_trace latestBlockhash transactionV0 txid
                          status;
               final := st3;
               outcome := Ok tt |})
    /\ (outcome r = Ok tt <->
        exists latestBlockhash transactionV0 txid status st1 st2 st3,
          rpc net (getLatestBlockhash finalized) st = (Ok latestBlockhash, st1)
          /\ signedV0 payer (blockhash latestBlockhash) arrayOfInstructions None
             = Ok transactionV0
          /\ rpc net (sendTransaction transactionV0) st1 = (Ok txid, st2)
          /\ rpc net (confirmTransaction txid (blockhash latestBlockhash)
                        (lastValidBlockHeight latestBlockhash)) st2
             = (Ok status, st3))
    /\ (forall transaction, In transaction (submissions (trace r)) ->
        exists latestBlockhash,
          blockhashes (trace r) = [latestBlockhash]
          /\ signedV0 payer (blockhash latestBlockhash) arrayOfInstructions None
             = Ok transaction).
Proof.
  intros ixs st r. split; [|split; [split|]].
  - intros bh tx txid status st1 st2 st3 Hbh Hs Hsend Hc.
    subst r. apply (createAndSendV0Tx_run _ _ Hbh Hs Hsend Hc).
  - subst r. unfold createAndSendV0Tx, signedV0. simpl.
    repeat run_step; intro H; try discriminate H.
    do 7 eexists. rewrite E0. simpl.
    repeat split; try eassumption; reflexivity.
  - intros (bh & tx & txid & status & st1 & st2 & st3 & Hbh & Hs & Hsend & Hc).
    subst r. rewrite (createAndSendV0Tx_run _ _ Hbh Hs Hsend Hc). reflexivity.
  - subst r. unfold createAndSendV0Tx, signedV0. simpl.
    repeat run_step; simpl; intros tx' Hin;
      repeat (destruct Hin as [Hin|Hin]; [subst tx'|]); try contradiction;
      eexists; (split; [reflexivity|]); rewrite E0; simpl; assumption.
Qed.

(** C5 (amended). The confirmation is awaited: the line announcing a
    confirmed transaction is printed exactly when [sendTransaction] resolved
    to a signature and [confirmTransaction], called with that signature, the
    fetched blockhash and its last valid block height, resolved as well --
    to whatever status. *)
Theorem confirmation_announced_iff_awaited :
  forall (arrayOfInstructions : list TransactionInstruction) (st : ledger net),
    let r := exec net (createAndSendV0Tx payer arrayOfInstructions) st in
    existsb announces_confirmation (trace r) = true <->
    exists latestBlockhash transactionV0 txid status st1 st2 st3,
      rpc net (getLatestBlockhash finalized) st = (Ok latestBlockhash, st1)
      /\ signedV0 payer (blockhash latestBlockhash) arrayOfInstructions None
         = Ok transactionV0
      /\ rpc net (sendTransaction transactionV0) st1 = (Ok txid, st2)
      /\ rpc net (confirmTransaction txid (blockhash latestBlockhash)
                    (lastValidBlockHeight latestBlockhash)) st2
         = (Ok status, st3).
Proof.
  intros ixs st r. split.
  - subst r. unfold createAndSendV0Tx, signedV0. simpl.
    repeat run_step; intro H; try discriminate H.
    do 7 eexists. rewrite E0. simpl.
    repeat split; try eassumption; reflexivity.
  - intros (bh & tx & txid & status & st1 & st2 & st3 & Hbh & Hs & Hsend & Hc).
    subst r. erewrite createAndSendV0Tx_run; try eassumption. reflexivity.
Qed.

(** C6. On a table address with no account, [fetchALTs] prints the [null]
    it fetched and then throws a [TypeError] on [lookupTableAccount.key]. *)
Theorem fetchALTs_absent_throws :
  forall (lookupTableAddress : PublicKey) (st st1 : ledger net),
    rpc net (getAddressLookupTable lookupTableAddress) st = (Ok None, st1) ->
    exec net (fetchALTs lookupTableAddress) st
    = {| trace := [ Requested (getAddressLookupTable lookupTableAddress)
                      (Ok None);
                    Printed [LStr "lookupTableAccount:"; LAccount None] ];
         final := st1;
         outcome := Thrown (null_property "key") |}.
Proof.
  intros a st st1 H. unfold fetchALTs. simpl. rewrite H. reflexivity.
Qed.

(** C10. When the table's account is absent, [compareTxSize] returns right
    after the fetch: it requests nothing else, prints nothing and does not
    throw, whatever the SDK would do with a message or a transaction. *)
Theorem compareTxSize_absent_returns :
  forall (lookupTableAddress : PublicKey) (st st1 : ledger net),
    rpc net (getAddressLookupTable lookupTableAddress) st = (Ok None, st1) ->
    exec net (compareTxSize payer lookupTableAddress) st
    = {| trace := [ Requested (getAddressLookupTable lookupTableAddress)
                      (Ok None) ];
         final := st1;
         outcome := Ok tt |}.
Proof.
  intros a st st1 H. unfold compareTxSize. simpl. rewrite H. reflexivity.
Qed.

(** What [compareTxSize] prints for a table it found. *)
Lemma compareTxSize_run :
  forall (lookupTableAddress : PublicKey) (st st1 st2 : ledger net)
         lookupTable txInstructions latestBlockhash
         transactionWithLookupTable transactionWithoutLookupTable
         serializedWithout serializedWith,
    rpc net (getAddressLookupTable lookupTableAddress) st
    = (Ok (Some lookupTable), st1) ->
    transferInstructions payer (addresses (state lookupTable))
    = Ok txInstructions ->
    rpc net (getLatestBlockhash finalized) st1 = (Ok latestBlockhash, st2) ->
    signedV0 payer (blockhash latestBlockhash) txInstructions
      (Some [lookupTable]) = Ok transactionWithLookupTable ->
    signedV0 payer (blockhash latestBlockhash) txInstructions None
    = Ok transactionWithoutLookupTable ->
    serialize transactionWithoutLookupTable = Ok serializedWithout ->
    serialize transactionWithLookupTable = Ok serializedWith ->
    exec net (compareTxSize payer lookupTableAddress) st
    = {| trace := compared_trace lookupTableAddress lookupTable latestBlockhash
                    (Z.of_nat (List.length serializedWithout))
                    (Z.of_nat (List.length serializedWith));
         final := st2;
         outcome := Ok tt |}.
Proof.
  intros a st st1 st2 table ixs bh txWith txWithout bytesWithout bytesWith
         Htable Hixs Hbh HsWith HsWithout Hwithout Hwith.
  destruct (signedV0_inv _ _ _ HsWith) as [mWith [HmWith HtWith]].
  destruct (signedV0_inv _ _ _ HsWithout) as [mWithout [HmWithout HtWithout]].
  unfold compareTxSize. simpl. rewrite Htable. simpl.
  rewrite Hixs. simpl. rewrite Hbh. simpl.
  rewrite HmWith. simpl. rewrite HtWith. simpl.
  rewrite HmWithout. simpl. rewrite HtWithout. simpl.
  rewrite Hwithout. simpl. rewrite Hwith. reflexivity.
Qed.

(** C1. Whenever the table is found, the transfers are built, a blockhash is
    fetched and the SDK compiles, signs and serializes, [compareTxSize]
    builds two signed transactions from the same payer, the same blockhash
    -- the one fetched in this run -- and the same instructions, the
    transfers to the table's addresses, one compiled with the fetched table
    and the other with none, and prints the length of the serialization of
    each: the run is exactly the two fetches and these lines, and it
    completes.  It completes in no other case but that of an absent
    table. *)
Theorem compareTxSize_reports :
  forall (lookupTableAddress : PublicKey) (st : ledger net),
    let r := exec net (compareTxSize payer lookupTableAddress) st in
    (forall lookupTable txInstructions latestBlockhash st1 st2
            transactionWithLookupTable transactionWithoutLookupTable
            serializedWithout serializedWith,
        rpc net (getAddressLookupTable lookupTableAddress) st
        = (Ok (Some lookupTable), st1) ->
        transferInstructions payer (addresses (state lookupTable))
        = Ok txInstructions ->
        rpc net (getLatestBlockhash finalized) st1 = (Ok latestBlockhash, st2) ->
        signedV0 payer (blockhash latestBlockhash) txInstructions
          (Some [lookupTable]) = Ok transactionWithLookupTable ->
        signedV0 payer (blockhash latestBlockhash) txInstructions None
        = Ok transactionWithoutLookupTable ->
        serialize transactionWithoutLookupTable = Ok serializedWithout ->
        serialize transactionWithLookupTable = Ok serializedWith ->
        r = {| trace :=
                 compared_trace lookupTableAddress lookupTable latestBlockhash
                   (Z.of_nat (List.length serializedWithout))
                   (Z.of_nat (List.length serializedWith));
               final := st2;
               outcome := Ok tt |})
    /\ (outcome r = Ok tt <->
        fst (rpc net (getAddressLookupTable lookupTableAddress) st) = Ok None
        \/ (exists lookupTable txInstructions latestBlockhash st1 st2
                   transactionWithLookupTable transactionWithoutLookupTable
                   serializedWithout serializedWith,
               rpc net (getAddressLookupTable lookupTableAddress) st
               = (Ok (Some lookupTable), st1)
               /\ transferInstructions payer (addresses (state lookupTable))
                  = Ok txInstructions
               /\ rpc net (getLatestBlockhash finalized) st1
                  = (Ok latestBlockhash, st2)
               /\ signedV0 payer (blockhash latestBlockhash) txInstructions
                    (Some [lookupTable]) = Ok transactionWithLookupTable
               /\ signedV0 payer (blockhash latestBlockhash) txInstructions
                    None = Ok transactionWithoutLookupTable
               /\ serialize transactionWithoutLookupTable
                  = Ok serializedWithout
               /\ serialize transactionWithLookupTable = Ok serializedWith)).
Proof.
  intros a st r. split; [|split].
  - intros table ixs bh st1 st2 txWith txWithout bytesWithout bytesWith
           H1 H2 H3 H4 H5 H6 H7.
    subst r. eapply compareTxSize_run; eassumption.
  - subst r. unfold compareTxSize, signedV0. simpl.
    destruct (rpc net (getAddressLookupTable a) st) as [[[table|]|e] st1] eqn:E;
      simpl; [| intros _; left; reflexivity | discriminate ].
    repeat run_step; intro H; try discriminate H.
    right. do 9 eexists. rewrite E2, E4. simpl.
    repeat split; try eassumption; reflexivity.
  - intros [Hnone|H].
    + subst r. unfold compareTxSize. simpl.
      destruct (rpc net (getAddressLookupTable a) st) as [answer st1].
      simpl in Hnone. subst answer. reflexivity.
    + destruct H as (table & ixs & bh & st1 & st2 & txWith & txWithout
                     & bytesWithout & bytesWith
                     & H1 & H2 & H3 & H4 & H5 & H6 & H7).
      subst r. erewrite compareTxSize_run; try eassumption. reflexivity.
Qed.

(** The run of [createALTs] when every step goes through. *)
Lemma createALTs_run :
  forall (st st1 st2 st3 st4 : ledger net) slot lookupTableInst
         lookupTableAddress latestBlockhash transactionV0 txid status,
    rpc net getSlot st = (Ok slot, st1) ->
    createLookupTable (publicKey payer) (publicKey payer) slot
    = Ok (lookupTableInst, lookupTableAddress) ->
    rpc net (getLatestBlockhash finalized) st1 = (Ok latestBlockhash, st2) ->
    signedV0 payer (blockhash latestBlockhash) [lookupTableInst] None
    = Ok transactionV0 ->
    rpc net (sendTransaction transactionV0) st2 = (Ok txid, st3) ->
    rpc net (confirmTransaction txid (blockhash latestBlockhash)
               (lastValidBlockHeight latestBlockhash)) st3
    = (Ok status, st4) ->
    exec net (createALTs payer) st
    = {| trace := created_trace slot lookupTableAddress latestBlockhash
                    transactionV0 txid status;
         final := st4;
         outcome := Ok lookupTableAddress |}.
Proof.
  intros st st1 st2 st3 st4 slot inst address bh tx txid status
         Hslot Hcreate Hbh Hs Hsend Hconfirm.
  unfold createALTs. rewrite exec_await_then, Hslot. cbn [fst snd].
  rewrite exec_log_then, exec_call_then, Hcreate. cbn [fst snd].
  rewrite exec_log_then, exec_bind.
  rewrite (createAndSendV0Tx_run _ _ Hbh Hs Hsend Hconfirm).
  reflexivity.
Qed.

(** The run of [addAddress] when every step goes through. *)
Lemma addAddress_run_completed :
  forall (st st1 st2 st3 : ledger net) lookupTableAddress newAddresses
         extendInstruction latestBlockhash transactionV0 txid status,
    extendLookupTable (publicKey payer) (publicKey payer) lookupTableAddress
      newAddresses = Ok extendInstruction ->
    rpc net (getLatestBlockhash finalized) st = (Ok latestBlockhash, st1) ->
    signedV0 payer (blockhash latestBlockhash) [extendInstruction] None
    = Ok transactionV0 ->
    rpc net (sendTransaction transactionV0) st1 = (Ok txid, st2) ->
    rpc net (confirmTransaction txid (blockhash latestBlockhash)
               (lastValidBlockHeight latestBlockhash)) st2
    = (Ok status, st3) ->
    exec net (addAddress payer lookupTableAddress newAddresses) st
    = {| trace := submitted_trace latestBlockhash transactionV0 txid status
                  ++ [Printed (entries_line lookupTableAddress)];
         final := st3;
         outcome := Ok tt |}.
Proof.
  intros st st1 st2 st3 address l ext bh tx txid status
         Hextend Hbh Hs Hsend Hconfirm.
  unfold addAddress. rewrite exec_call_then, Hextend, exec_bind.
  rewrite (createAndSendV0Tx_run _ _ Hbh Hs Hsend Hconfirm).
  reflexivity.
Qed.

(** C9. Every run of [main], on every cluster, goes through one fixed
    sequence of steps and stops where a step throws or, in the last step,
    where the table is absent: the steps done are an initial segment of
    [main_schedule].  Whenever the cluster answers and the SDK succeeds, the
    run is: the creation of the table, confirmed; then the wait of 60000
    ms; then the extension of that table with the four addresses of the
    source, in their order, sent from where the wait left the cluster and
    confirmed; then the comparison for that table, started where the
    extension left the cluster.  In every run each step starts from the
    state the step before it returned. *)
Theorem main_sequential :
  forall st : ledger net,
    let r := exec net (main payer) st in
    (exists rest, main_schedule = map step_of (trace r) ++ rest)
    /\ (forall slot lookupTableInst lookupTableAddress latestBlockhash1
               transaction1 txid1 status1 st1 st2 st3 st4
               address1 address2 address3 address4 extendInstruction
               latestBlockhash2 transaction2 txid2 status2 st5 st6 st7,
           rpc net getSlot st = (Ok slot, st1) ->
           createLookupTable (publicKey payer) (publicKey payer) slot
           = Ok (lookupTableInst, lookupTableAddress) ->
           rpc net (getLatestBlockhash finalized) st1
           = (Ok latestBlockhash1, st2) ->
           signedV0 payer (blockhash latestBlockhash1) [lookupTableInst] None
           = Ok transaction1 ->
           rpc net (sendTransaction transaction1) st2 = (Ok txid1, st3) ->
           rpc net (confirmTransaction txid1 (blockhash latestBlockhash1)
                      (lastValidBlockHeight latestBlockhash1)) st3
           = (Ok status1, st4) ->
           new_PublicKey "8Z17Y623ZjNV8xaAdxgn5ZkqkVTEo8Yc6uaapvcrFB62"
           = Ok address1 ->
           new_PublicKey "846HwwmSGguDbipzs2xDYCsfyhi4j2LLiuQri11woums"
           = Ok address2 ->
           new_PublicKey "FueGNmz4M2wphGnDL5RuH2fCo6EQxxtheVn6syGE4Fh1"
           = Ok address3 ->
           new_PublicKey "8io2LqthLyQfFncj6QAaQ2q5d7z9WgRcVKrAz4DGNiee"
           = Ok address4 ->
           extendLookupTable (publicKey payer) (publicKey payer)
             lookupTableAddress [address1; address2; address3; address4]
           = Ok extendInstruction ->
           rpc net (getLatestBlockhash finalized) (elapse net 60000 st4)
           = (Ok latestBlockhash2, st5) ->
           signedV0 payer (blockhash latestBlockhash2) [extendInstruction] None
           = Ok transaction2 ->
           rpc net (sendTransaction transaction2) st5 = (Ok txid2, st6) ->
           rpc net (confirmTransaction txid2 (blockhash latestBlockhash2)
                      (lastValidBlockHeight latestBlockhash2)) st6
           = (Ok status2, st7) ->
           r = {| trace :=
                    Printed [LStr "Step 1: create address lookup table"]
                    :: created_trace slot lookupTableAddress latestBlockhash1
                         transaction1 txid1 status1
                    ++ [ Printed [LStr "Waiting for 1 minute..."];
                         Slept 60000;
                         Printed [LStr "Step 2: add address to lookup table"] ]
                    ++ submitted_trace latestBlockhash2 transaction2 txid2
                         status2
                    ++ [ Printed (entries_line lookupTableAddress);
                         Printed [LStr "Step 3: check the transaction size"] ]
                    ++ trace (exec net (compareTxSize payer lookupTableAddress)
                                st7);
                  final :=
                    final (exec net (compareTxSize payer lookupTableAddress)
                             st7);
                  outcome :=
                    outcome (exec net (compareTxSize payer lookupTableAddress)
                               st7) |})
    /\ r = after (Printed [LStr "Step 1: create address lookup table"])
             (andThen (exec net (createALTs payer) st)
                (fun lookupTableAddress st1 =>
                   after (Printed [LStr "Waiting for 1 minute..."])
                     (after (Slept 60000)
                        (andThen
                           (exec net
                              (call
                                 (publicKeys
                                    [ "8Z17Y623ZjNV8xaAdxgn5ZkqkVTEo8Yc6uaapvcrFB62";
                                      "846HwwmSGguDbipzs2xDYCsfyhi4j2LLiuQri11woums";
                                      "FueGNmz4M2wphGnDL5RuH2fCo6EQxxtheVn6syGE4Fh1";
                                      "8io2LqthLyQfFncj6QAaQ2q5d7z9WgRcVKrAz4DGNiee" ]%string))
                              (elapse net 60000 st1))
                           (fun addresses st2 =>
                              after
                                (Printed
                                   [LStr "Step 2: add address to lookup table"])
                                (andThen
                                   (exec net
                                      (addAddress payer lookupTableAddress
                                         addresses) st2)
                                   (fun _ st3 =>
                                      after
                                        (Printed
                                           [LStr
                                              "Step 3: check the transaction size"])
                                        (exec net
                                           (compareTxSize payer
                                              lookupTableAddress) st3)))))))).
Proof.
  intros st r. split; [|split].
  - subst r.
    unfold main, createALTs, addAddress, compareTxSize, createAndSendV0Tx.
    simpl. repeat run_step; eexists; reflexivity.
  - intros slot inst address bh1 tx1 txid1 status1 st1 st2 st3 st4
           k1 k2 k3 k4 ext bh2 tx2 txid2 status2 st5 st6 st7
           Hslot Hcreate Hbh1 Hs1 Hsend1 Hconfirm1 Hk1 Hk2 Hk3 Hk4
           Hextend Hbh2 Hs2 Hsend2 Hconfirm2.
    assert (Hkeys : publicKeys address_literals = Ok [k1; k2; k3; k4]).
    { unfold address_literals. cbn [publicKeys].
      rewrite Hk1, Hk2, Hk3, Hk4. reflexivity. }
    subst r. unfold main.
    rewrite exec_log_then, exec_bind.
    erewrite createALTs_run; try eassumption.
    unfold andThen. cbn [outcome trace final].
    rewrite exec_log_then, exec_timeout_then, exec_call_then, Hkeys.
    rewrite exec_log_then, exec_bind.
    erewrite addAddress_run_completed; try eassumption.
    unfold andThen. cbn [outcome trace final].
    rewrite exec_log_then. unfold after. cbn [outcome trace final].
    rewrite <- !app_assoc. reflexivity.
  - subst r. unfold main.
    rewrite exec_log_then. f_equal.
    rewrite exec_bind. apply andThen_ext. intros address st1.
    rewrite exec_log_then, exec_timeout_then. do 2 f_equal.
    rewrite exec_bind. apply andThen_ext. intros ks st2.
    rewrite exec_log_then. f_equal.
    rewrite exec_bind. apply andThen_ext. intros [] st3.
    rewrite exec_log_then. reflexivity.
Qed.


(** ** Failures and what a run never does *)

(** [createAndSendV0Tx] does not retry: whatever the cluster and the SDK
    answer, a run goes through an initial segment of one schedule, so that
    it fetches at most one blockhash and sends at most one transaction. *)
Theorem createAndSendV0Tx_no_retry :
  forall (arrayOfInstructions : list TransactionInstruction) (st : ledger net),
    let r := exec net (createAndSendV0Tx payer arrayOfInstructions) st in
    (exists rest, submit_schedule = map step_of (trace r) ++ rest)
    /\ (List.length (blockhashes (trace r)) <= 1)%nat
    /\ (List.length (submissions (trace r)) <= 1)%nat.
Proof.
  intros ixs st r. subst r. unfold createAndSendV0Tx. simpl.
  repeat run_step; (split; [eexists; reflexivity|]); simpl; lia.
Qed.

(** [createAndSendV0Tx] throws exactly what the step that failed threw, and
    stops there: a rejected blockhash fetch is the only request of the run;
    when the SDK fails to compile or sign nothing is sent; a rejected
    submission is not followed by a confirmation request; and the last case
    is a rejected confirmation. *)
Theorem createAndSendV0Tx_failure :
  forall (arrayOfInstructions : list TransactionInstruction) (st : ledger net)
         (e : Exn),
    let r := exec net (createAndSendV0Tx payer arrayOfInstructions) st in
    outcome r = Thrown e <->
    (fst (rpc net (getLatestBlockhash finalized) st) = Thrown e
     /\ requests (trace r) = [getLatestBlockhash finalized])
    \/ (exists latestBlockhash st1,
           rpc net (getLatestBlockhash finalized) st = (Ok latestBlockhash, st1)
           /\ ((signedV0 payer (blockhash latestBlockhash) arrayOfInstructions
                  None = Thrown e
                /\ requests (trace r) = [getLatestBlockhash finalized])
               \/ (exists transactionV0,
                      signedV0 payer (blockhash latestBlockhash)
                        arrayOfInstructions None = Ok transactionV0
                      /\ ((fst (rpc net (sendTransaction transactionV0) st1)
                           = Thrown e
                           /\ requests (trace r)
                              = [getLatestBlockhash finalized;
                                 sendTransaction transactionV0])
                          \/ (exists txid st2,
                                 rpc net (sendTransaction transactionV0) st1
                                 = (Ok txid, st2)
                                 /\ fst (rpc net
                                           (confirmTransaction txid
                                              (blockhash latestBlockhash)
                                              (lastValidBlockHeight
                                                 latestBlockhash)) st2)
                                    = Thrown e
                                 /\ requests (trace r)
                                    = [getLatestBlockhash finalized;
                                       sendTransaction transactionV0;
                                       confirmTransaction txid
                                         (blockhash latestBlockhash)
                                         (lastValidBlockHeight
                                            latestBlockhash)]))))).
Proof.
  intros ixs st e r. subst r. unfold createAndSendV0Tx, signedV0. simpl.
  destruct (rpc net (getLatestBlockhash finalized) st) as [[bh|e0] st1] eqn:Ebh;
    simpl.
  2:{ split.
      - intros H. injection H as <-. left. split; reflexivity.
      - intros [[H _]|(bh & st1' & H & _)]; [injection H as <-; reflexivity|discriminate H]. }
  destruct (compileToV0Message (publicKey payer) (blockhash bh) ixs None)
    as [m|e1] eqn:Em; simpl.
  2:{ split.
      - intros H. injection H as <-. right. exists bh, st1.
        split; [reflexivity|]. left. rewrite Em. split; reflexivity.
      - intros [[H _]|(bh' & st1' & H & Hcases)]; [discriminate H|].
        injection H as <- <-. rewrite Em in Hcases. simpl in Hcases.
        destruct Hcases as [[H _]|(tx & H & _)]; [injection H as <-; reflexivity|discriminate H]. }
  destruct (sign (new_VersionedTransaction m) [payer]) as [tx|e2] eqn:Es;
    simpl.
  2:{ split.
      - intros H. injection H as <-. right. exists bh, st1.
        split; [reflexivity|]. left. rewrite Em. simpl.
        split; [exact Es|reflexivity].
      - intros [[H _]|(bh' & st1' & H & Hcases)]; [discriminate H|].
        injection H as <- <-. rewrite Em in Hcases. simpl in Hcases.
        rewrite Es in Hcases.
        destruct Hcases as [[H _]|(tx & H & _)]; [injection H as <-; reflexivity|discriminate H]. }
  destruct (rpc net (sendTransaction tx) st1) as [[txid|e3] st2] eqn:Esend;
    simpl.
  2:{ split.
      - intros H. injection H as <-. right. exists bh, st1.
        split; [reflexivity|]. right. exists tx. rewrite Em. simpl.
        split; [exact Es|]. left. rewrite Esend. split; reflexivity.
      - intros [[H _]|(bh' & st1' & H & Hcases)]; [discriminate H|].
        injection H as <- <-. rewrite Em in Hcases. simpl in Hcases.
        rewrite Es in Hcases.
        destruct Hcases as [[H _]|(tx' & H & Hsent)]; [discriminate H|].
        injection H as <-. rewrite Esend in Hsent.
        destruct Hsent as [[H _]|(txid & st2' & H & _)];
          [injection H as <-; reflexivity|discriminate H]. }
  destruct (rpc net (confirmTransaction txid (blockhash bh)
                       (lastValidBlockHeight bh)) st2)
    as [[status|e4] st3] eqn:Econfirm; simpl.
  - split; [discriminate|].
    intros [[H _]|(bh' & st1' & H & Hcases)]; [discriminate H|].
    injection H as <- <-. rewrite Em in Hcases. simpl in Hcases.
    rewrite Es in Hcases.
    destruct Hcases as [[H _]|(tx' & H & Hsent)]; [discriminate H|].
    injection H as <-. rewrite Esend in Hsent.
    destruct Hsent as [[H _]|(txid' & st2' & H & Hc & _)];
      [discriminate H|].
    injection H as <- <-. rewrite Econfirm in Hc. discriminate Hc.
  - split.
    + intros H. injection H as <-. right. exists bh, st1.
      split; [reflexivity|]. right. exists tx. rewrite Em. simpl.
      split; [exact Es|]. right. exists txid, st2. rewrite Esend, Econfirm.
      repeat split; reflexivity.
    + intros [[H _]|(bh' & st1' & H & Hcases)]; [discriminate H|].
      injection H as <- <-. rewrite Em in Hcases. simpl in Hcases.
      rewrite Es in Hcases.
      destruct Hcases as [[H _]|(tx' & H & Hsent)]; [discriminate H|].
      injection H as <-. rewrite Esend in Hsent.
      destruct Hsent as [[H _]|(txid' & st2' & H & Hc & _)];
        [discriminate H|].
      injection H as <- <-. rewrite Econfirm in Hc.
      injection Hc as <-. reflexivity.
Qed.

(** A run of [createAndSendV0Tx] that completed went through every step. *)
Lemma createAndSendV0Tx_completed :
  forall arrayOfInstructions (st : ledger net),
    outcome (exec net (createAndSendV0Tx payer arrayOfInstructions) st) = Ok tt ->
    exists latestBlockhash transactionV0 txid status st1 st2 st3,
      rpc net (getLatestBlockhash finalized) st = (Ok latestBlockhash, st1)
      /\ signedV0 payer (blockhash latestBlockhash) arrayOfInstructions None
         = Ok transactionV0
      /\ rpc net (sendTransaction transactionV0) st1 = (Ok txid, st2)
      /\ rpc net (confirmTransaction txid (blockhash latestBlockhash)
                    (lastValidBlockHeight latestBlockhash)) st2
         = (Ok status, st3)
      /\ exec net (createAndSendV0Tx payer arrayOfInstructions) st
         = {| trace := submitted_trace latestBlockhash transactionV0 txid status;
              final := st3;
              outcome := Ok tt |}.
Proof.
  intros ixs st. unfold createAndSendV0Tx, signedV0. simpl.
  repeat run_step; intro H; try discriminate H.
  do 7 eexists. rewrite E0. simpl.
  repeat split; try eassumption; reflexivity.
Qed.

(** [createALTs] returns the table's address only after the transaction
    that creates the table was sent and its confirmation resolved.  Whenever
    [getSlot] answers a slot, [createLookupTable] gives an instruction and
    an address for the payer and that slot, and the transaction carrying
    that one instruction is compiled, signed, sent and confirmed, the run
    prints the slot and the address in base 58, submits, prints that the
    table was created and returns that address; it returns in no other
    case. *)
Theorem createALTs_returns_after_confirmation :
  forall st : ledger net,
    let r := exec net (createALTs payer) st in
    (forall slot lookupTableInst lookupTableAddress latestBlockhash
            transactionV0 txid status st1 st2 st3 st4,
        rpc net getSlot st = (Ok slot, st1) ->
        createLookupTable (publicKey payer) (publicKey payer) slot
        = Ok (lookupTableInst, lookupTableAddress) ->
        rpc net (getLatestBlockhash finalized) st1 = (Ok latestBlockhash, st2) ->
        signedV0 payer (blockhash latestBlockhash) [lookupTableInst] None
        = Ok transactionV0 ->
        rpc net (sendTransaction transactionV0) st2 = (Ok txid, st3) ->
        rpc net (confirmTransaction txid (blockhash latestBlockhash)
                   (lastValidBlockHeight latestBlockhash)) st3
        = (Ok status, st4) ->
        r = {| trace := created_trace slot lookupTableAddress latestBlockhash
                          transactionV0 txid status;
               final := st4;
               outcome := Ok lookupTableAddress |})
    /\ (forall lookupTableAddress,
           outcome r = Ok lookupTableAddress <->
           exists slot lookupTableInst latestBlockhash transactionV0 txid
                  status st1 st2 st3 st4,
             rpc net getSlot st = (Ok slot, st1)
             /\ createLookupTable (publicKey payer) (publicKey payer) slot
                = Ok (lookupTableInst, lookupTableAddress)
             /\ rpc net (getLatestBlockhash finalized) st1
                = (Ok latestBlockhash, st2)
             /\ signedV0 payer (blockhash latestBlockhash) [lookupTableInst]
                  None = Ok transactionV0
             /\ rpc net (sendTransaction transactionV0) st2 = (Ok txid, st3)
             /\ rpc net (confirmTransaction txid (blockhash latestBlockhash)
                           (lastValidBlockHeight latestBlockhash)) st3
                = (Ok status, st4)).
Proof.
  intros st r. split.
  - intros slot inst address bh tx txid status st1 st2 st3 st4
           Hslot Hcreate Hbh Hs Hsend Hconfirm.
    subst r. eapply createALTs_run; eassumption.
  - intros address. split.
    + intros H. subst r. unfold createALTs in H.
      rewrite exec_await_then in H.
      destruct (rpc net getSlot st) as [[slot|e] st1] eqn:Eslot;
        cbn [fst snd] in H; [|discriminate H].
      rewrite exec_log_then, exec_call_then in H.
      destruct (createLookupTable (publicKey payer) (publicKey payer) slot)
        as [[inst address']|e] eqn:Ecreate; [|discriminate H].
      cbn [fst snd] in H. rewrite exec_log_then, exec_bind in H.
      destruct (outcome (exec net (createAndSendV0Tx payer [inst]) st1))
        as [[]|e] eqn:Eout.
      * destruct (createAndSendV0Tx_completed _ _ Eout)
          as (bh & tx & txid & status & s1 & s2 & s3 & Hbh & Hs & Hsend & Hc
              & Hrun).
        rewrite Hrun in H. unfold andThen in H.
        cbn [outcome trace final] in H. rewrite exec_log_then in H.
        cbn [exec after outcome trace final] in H. injection H as <-.
        exists slot, inst, bh, tx, txid, status, st1, s1, s2, s3.
        repeat split; assumption.
      * unfold andThen in H. rewrite Eout in H. discriminate H.
    + intros (slot & inst & bh & tx & txid & status & st1 & st2 & st3 & st4
              & Hslot & Hcreate & Hbh & Hs & Hsend & Hconfirm).
      subst r. erewrite createALTs_run; try eassumption. reflexivity.
Qed.


(** The loop of [fetchALTs]: one printed line for each address, then what
    follows the loop. *)
Lemma exec_for_each_lines :
  forall A (l : list PublicKey) (i : nat) (k : unit -> Prog A) (st : ledger net),
    exec net
      (bind (for_each (fun i address => console_log [LNum i; LKey address])
               (Z.of_nat i) l) k) st
    = {| trace :=
           map (fun entry =>
                  Printed [LNum (Z.of_nat (fst entry)); LKey (snd entry)])
               (combine (seq i (List.length l)) l)
           ++ trace (exec net (k tt) st);
         final := final (exec net (k tt) st);
         outcome := outcome (exec net (k tt) st) |}.
Proof.
  intros A l. induction l as [|a rest IH]; intros i k st.
  - simpl. destruct (exec net (k tt) st); reflexivity.
  - cbn [for_each]. specialize (IH (S i) k st).
    replace (Z.of_nat (S i)) with (Z.of_nat i + 1)%Z in IH by lia.
    change (exec net
              (bind (bind (console_log [LNum (Z.of_nat i); LKey a])
                       (fun _ => for_each
                                   (fun i address =>
                                      console_log [LNum i; LKey address])
                                   (Z.of_nat i + 1)%Z rest)) k) st)
      with (after (Printed [LNum (Z.of_nat i); LKey a])
              (exec net
                 (bind (for_each
                          (fun i address => console_log [LNum i; LKey address])
                          (Z.of_nat i + 1)%Z rest) k) st)).
    rewrite IH. reflexivity.
Qed.

Lemma requests_indexed_lines : forall l : list PublicKey,
    flat_map requested (indexed_lines l) = [].
Proof.
  intros l. unfold indexed_lines.
  generalize (combine (seq 0 (List.length l)) l) as entries.
  induction entries as [|entry rest IH]; simpl; [reflexivity|exact IH].
Qed.

Lemma submissions_indexed_lines : forall l : list PublicKey,
    flat_map submitted (indexed_lines l) = [].
Proof.
  intros l. unfold indexed_lines.
  generalize (combine (seq 0 (List.length l)) l) as entries.
  induction entries as [|entry rest IH]; simpl; [reflexivity|exact IH].
Qed.

(** The run of [fetchALTs] on a table that exists. *)
Lemma fetchALTs_run :
  forall (lookupTableAddress : PublicKey) (account : LookupTable)
         (st st1 : ledger net),
    rpc net (getAddressLookupTable lookupTableAddress) st
    = (Ok (Some account), st1) ->
    exec net (fetchALTs lookupTableAddress) st
    = {| trace :=
           Requested (getAddressLookupTable lookupTableAddress)
             (Ok (Some account))
           :: Printed [LStr "lookupTableAccount:"; LAccount (Some account)]
           :: Printed [LStr "Table address from cluster:";
                       LStr (toBase58 (key account))]
           :: indexed_lines (addresses (state account));
         final := st1;
         outcome := Ok (Some account) |}.
Proof.
  intros address account st st1 H. unfold fetchALTs.
  rewrite exec_await_then, H. cbn [fst snd].
  rewrite exec_log_then. cbn [property_of bind].
  rewrite exec_log_then. change 0%Z with (Z.of_nat 0).
  rewrite (@exec_for_each_lines (Resp (getAddressLookupTable address))
             (addresses (state account)) 0
             (fun _ => @Return _ (Resp (getAddressLookupTable address))
                         (Some account)) st1).
  unfold after, indexed_lines. cbn [exec trace final outcome].
  rewrite app_nil_r. reflexivity.
Qed.

(** On a table that exists, [fetchALTs] prints the account, the table's
    address and then every address of the table with its index, in table
    order, and returns the account as it was fetched; the fetch is its only
    request. *)
Theorem fetchALTs_present_lists_addresses :
  forall (lookupTableAddress : PublicKey) (account : LookupTable)
         (st st1 : ledger net),
    rpc net (getAddressLookupTable lookupTableAddress) st
    = (Ok (Some account), st1) ->
    exec net (fetchALTs lookupTableAddress) st
    = {| trace :=
           Requested (getAddressLookupTable lookupTableAddress)
             (Ok (Some account))
           :: Printed [LStr "lookupTableAccount:"; LAccount (Some account)]
           :: Printed [LStr "Table address from cluster:";
                       LStr (toBase58 (key account))]
           :: indexed_lines (addresses (state account));
         final := st1;
         outcome := Ok (Some account) |}.
Proof.
  intros address account st st1 H. exact (fetchALTs_run _ H).
Qed.

(** [fetchALTs] never returns [null]: a run that returns gives the account
    the cluster answered.  Every run makes the one request and submits
    nothing. *)
Theorem fetchALTs_returns_an_account :
  forall (lookupTableAddress : PublicKey) (st : ledger net),
    let r := exec net (fetchALTs lookupTableAddress) st in
    requests (trace r) = [getAddressLookupTable lookupTableAddress]
    /\ submissions (trace r) = []
    /\ (forall fetchedAccount, outcome r = Ok fetchedAccount ->
        exists account,
          fetchedAccount = Some account
          /\ rpc net (getAddressLookupTable lookupTableAddress) st
             = (Ok (Some account), final r)).
Proof.
  intros address st r. subst r.
  destruct (rpc net (getAddressLookupTable address) st)
    as [[[account|]|e] st1] eqn:Efetch.
  - rewrite (fetchALTs_run _ Efetch).
    cbn [trace final outcome]. split; [|split].
    + unfold requests. cbn [flat_map requested app].
      rewrite requests_indexed_lines. reflexivity.
    + unfold submissions. cbn [flat_map submitted app].
      rewrite submissions_indexed_lines. reflexivity.
    + intros v H. injection H as <-. exists account. split; reflexivity.
  - unfold fetchALTs. rewrite exec_await_then, Efetch. cbn [fst snd].
    simpl. repeat split. intros v H. discriminate H.
  - unfold fetchALTs. rewrite exec_await_then, Efetch. cbn [fst snd].
    simpl. repeat split. intros v H. discriminate H.
Qed.

(** [compareTxSize] only reads: it asks for the table and then for a
    blockhash, in this order and at most once each, and never submits a
    transaction or waits for a confirmation -- the two transactions it
    builds and signs stay local. *)
Theorem compareTxSize_only_reads :
  forall (lookupTableAddress : PublicKey) (st : ledger net),
    let r := exec net (compareTxSize payer lookupTableAddress) st in
    submissions (trace r) = []
    /\ forallb read_only (trace r) = true
    /\ exists rest,
         [getAddressLookupTable lookupTableAddress; getLatestBlockhash finalized]
         = requests (trace r) ++ rest.
Proof.
  intros address st r. subst r. unfold compareTxSize. simpl.
  destruct (rpc net (getAddressLookupTable address) st)
    as [[[table|]|e] st1] eqn:Efetch; simpl;
    [| repeat split; eexists; reflexivity
     | repeat split; eexists; reflexivity ].
  repeat run_step; repeat split; eexists; reflexivity.
Qed.

(** [main] sends at most two transactions, and it reaches the comparison
    only after both were confirmed, with the one-minute wait in between:
    a run that asks the cluster for the table has announced two
    confirmations and slept 60000 ms. *)
Theorem main_compares_after_two_confirmations :
  forall st : ledger net,
    let r := exec net (main payer) st in
    (List.length (submissions (trace r)) <= 2)%nat
    /\ (In (Calls "getAddressLookupTable") (map step_of (trace r)) ->
        List.length (filter announces_confirmation (trace r)) = 2%nat
        /\ In (Slept 60000) (trace r)).
Proof.
  intros st r. subst r.
  unfold main, createALTs, addAddress, compareTxSize, createAndSendV0Tx.
  simpl.
  repeat run_step.
  all: split; [simpl; lia|]; intros H.
  all: try (split; [reflexivity|repeat (first [left; reflexivity|right])]).
  all: cbn [map step_of In] in H.
  all: repeat (destruct H as [H|H]; [discriminate H|]).
  all: contradiction.
Qed.

(** A run of [compareTxSize] in which one of the two transactions cannot be
    compiled or signed stops there, after the two fetches. *)
Lemma compareTxSize_run_throws :
  forall (lookupTableAddress : PublicKey) (st st1 st2 : ledger net)
         lookupTable txInstructions latestBlockhash e,
    rpc net (getAddressLookupTable lookupTableAddress) st
    = (Ok (Some lookupTable), st1) ->
    transferInstructions payer (addresses (state lookupTable))
    = Ok txInstructions ->
    rpc net (getLatestBlockhash finalized) st1 = (Ok latestBlockhash, st2) ->
    signedV0 payer (blockhash latestBlockhash) txInstructions
      (Some [lookupTable]) = Thrown e
    \/ (is_ok (signedV0 payer (blockhash latestBlockhash) txInstructions
                 (Some [lookupTable])) = true
        /\ signedV0 payer (blockhash latestBlockhash) txInstructions None
           = Thrown e) ->
    exec net (compareTxSize payer lookupTableAddress) st
    = {| trace := fetched_trace lookupTableAddress lookupTable latestBlockhash;
         final := st2;
         outcome := Thrown e |}.
Proof.
  intros a st st1 st2 table ixs bh e Htable Hixs Hbh Hsigned.
  unfold compareTxSize. simpl. rewrite Htable. simpl.
  rewrite Hixs. simpl. rewrite Hbh. simpl.
  unfold signedV0 in Hsigned.
  destruct (compileToV0Message (publicKey payer) (blockhash bh) ixs
              (Some [table])) as [mWith|e1]; simpl in *.
  2:{ destruct Hsigned as [H|[H _]]; [|discriminate H].
      injection H as <-. reflexivity. }
  destruct (sign (new_VersionedTransaction mWith) [payer]) as [txWith|e2];
    simpl in *.
  2:{ destruct Hsigned as [H|[H _]]; [|discriminate H].
      injection H as <-. reflexivity. }
  destruct Hsigned as [H|[_ H]]; [discriminate H|].
  destruct (compileToV0Message (publicKey payer) (blockhash bh) ixs None)
    as [mWithout|e3]; simpl in *.
  2:{ injection H as <-. reflexivity. }
  destruct (sign (new_VersionedTransaction mWithout) [payer])
    as [txWithout|e4]; simpl in *; [discriminate H|].
  injection H as <-. reflexivity.
Qed.

(** A run of [createAndSendV0Tx] in which the message compiles and the
    signature throws: nothing is sent. *)
Lemma createAndSendV0Tx_run_unsigned :
  forall arrayOfInstructions (st st1 : ledger net) latestBlockhash messageV0 e,
    rpc net (getLatestBlockhash finalized) st = (Ok latestBlockhash, st1) ->
    compileToV0Message (publicKey payer) (blockhash latestBlockhash)
      arrayOfInstructions None = Ok messageV0 ->
    sign (new_VersionedTransaction messageV0) [payer] = Thrown e ->
    exec net (createAndSendV0Tx payer arrayOfInstructions) st
    = {| trace := compiled_trace latestBlockhash;
         final := st1;
         outcome := Thrown e |}.
Proof.
  intros ixs st st1 bh m e Hbh Hm Hs.
  unfold createAndSendV0Tx. simpl.
  rewrite Hbh. simpl. rewrite Hm. simpl. rewrite Hs. reflexivity.
Qed.

(** Once the transaction is signed, [createAndSendV0Tx] submits it, and
    nothing else. *)
Lemma createAndSendV0Tx_submits :
  forall arrayOfInstructions (st st1 : ledger net) latestBlockhash
         transactionV0,
    rpc net (getLatestBlockhash finalized) st = (Ok latestBlockhash, st1) ->
    signedV0 payer (blockhash latestBlockhash) arrayOfInstructions None
    = Ok transactionV0 ->
    submissions (trace (exec net (createAndSendV0Tx payer arrayOfInstructions)
                          st))
    = [transactionV0].
Proof.
  intros ixs st st1 bh tx Hbh Hsigned.
  destruct (signedV0_inv _ _ _ Hsigned) as [m [Hm Hs]].
  unfold createAndSendV0Tx. simpl.
  rewrite Hbh. simpl. rewrite Hm. simpl. rewrite Hs. simpl.
  repeat run_step; reflexivity.
Qed.

(** [addAddress] is [createAndSendV0Tx] on the one instruction, then the
    line with the link. *)
Lemma addAddress_run :
  forall lookupTableAddress newAddresses extendInstruction (st : ledger net),
    extendLookupTable (publicKey payer) (publicKey payer) lookupTableAddress
      newAddresses = Ok extendInstruction ->
    exec net (addAddress payer lookupTableAddress newAddresses) st
    = andThen (exec net (createAndSendV0Tx payer [extendInstruction]) st)
        (fun _ st' =>
           exec net (console_log (entries_line lookupTableAddress)) st').
Proof.
  intros address l inst st H. unfold addAddress.
  rewrite exec_call_then, H, exec_bind. reflexivity.
Qed.

Lemma submissions_andThen_log :
  forall A (r : Run (ledger net) A) (args : list LogArg),
    submissions
      (trace (andThen r (fun _ st' => exec net (console_log args) st')))
    = submissions (trace r).
Proof.
  intros A r args. unfold andThen. destruct (outcome r); [|reflexivity].
  cbn [trace exec console_log after]. unfold submissions.
  rewrite flat_map_app. simpl. apply app_nil_r.
Qed.

Lemma addAddress_run_unsigned :
  forall lookupTableAddress newAddresses extendInstruction (st st1 : ledger net)
         latestBlockhash messageV0 e,
    extendLookupTable (publicKey payer) (publicKey payer) lookupTableAddress
      newAddresses = Ok extendInstruction ->
    rpc net (getLatestBlockhash finalized) st = (Ok latestBlockhash, st1) ->
    compileToV0Message (publicKey payer) (blockhash latestBlockhash)
      [extendInstruction] None = Ok messageV0 ->
    sign (new_VersionedTransaction messageV0) [payer] = Thrown e ->
    exec net (addAddress payer lookupTableAddress newAddresses) st
    = {| trace := compiled_trace latestBlockhash;
         final := st1;
         outcome := Thrown e |}.
Proof.
  intros address l inst st st1 bh m e Hextend Hbh Hm Hs.
  rewrite (addAddress_run _ _ st Hextend).
  rewrite (createAndSendV0Tx_run_unsigned _ st Hbh Hm Hs).
  reflexivity.
Qed.

Lemma addAddress_submits :
  forall lookupTableAddress newAddresses extendInstruction (st st1 : ledger net)
         latestBlockhash transactionV0,
    extendLookupTable (publicKey payer) (publicKey payer) lookupTableAddress
      newAddresses = Ok extendInstruction ->
    rpc net (getLatestBlockhash finalized) st = (Ok latestBlockhash, st1) ->
    signedV0 payer (blockhash latestBlockhash) [extendInstruction] None
    = Ok transactionV0 ->
    submissions
      (trace (exec net (addAddress payer lookupTableAddress newAddresses) st))
    = [transactionV0].
Proof.
  intros address l inst st st1 bh tx Hextend Hbh Hsigned.
  rewrite (addAddress_run _ _ st Hextend), submissions_andThen_log.
  exact (createAndSendV0Tx_submits _ st Hbh Hsigned).
Qed.

(** The loop of [compareTxSize] builds one transfer for each address of the
    table, from the payer, of [lamports_per_transfer] lamports, in table
    order: the instructions are as many as the addresses and the i-th pays
    the i-th address. *)
Theorem transferInstructions_one_per_address :
  forall (tableAddresses : list PublicKey)
         (txInstructions : list TransactionInstruction),
    transferInstructions payer tableAddresses = Ok txInstructions ->
    Forall2
      (fun address instruction =>
         SystemProgram_transfer (publicKey payer) address lamports_per_transfer
         = Ok instruction)
      tableAddresses txInstructions.
Proof.
  intros l. induction l as [|a rest IH]; intros ixs H; simpl in H.
  - injection H as <-. constructor.
  - destruct (SystemProgram_transfer (publicKey payer) a lamports_per_transfer)
      as [ix|e] eqn:Etransfer; simpl in H; [|discriminate H].
    destruct (transferInstructions payer rest) as [others|e] eqn:Erest;
      simpl in H; [|discriminate H].
    injection H as <-. constructor; [exact Etransfer|].
    apply IH. reflexivity.
Qed.

End Properties.

(** * Sizes of compiled transactions

    What [compareTxSize] prints with the SDK of [Web3js]: the two sizes as
    functions of the number of addresses in the table and of the number of
    those that the table replaces by an index. *)

Module Sizes.

Import Web3js.

Unset Implicit Arguments.

(** ** Encoders *)

Lemma le_bytes_length : forall width n, List.length (le_bytes width n) = width.
Proof.
  induction width as [|w IH]; intros n; simpl; [reflexivity|].
  now rewrite IH.
Qed.

Lemma toBytes_length : forall k, List.length (toBytes k) = 32%nat.
Proof.
  intros k. unfold toBytes, be_bytes.
  now rewrite length_rev, le_bytes_length.
Qed.

(** A length below 128 is encoded as one byte. *)
Lemma encodeLength_small : forall len,
    (len < 128)%nat -> encodeLength len = [Z.of_nat len].
Proof.
  intros len H. unfold encodeLength. simpl.
  assert (Hs : Z.shiftr (Z.of_nat len) 7 = 0%Z).
  { rewrite Z.shiftr_div_pow2 by lia. apply Z.div_small. lia. }
  rewrite Hs. simpl. f_equal.
  change 127%Z with (Z.ones 7). rewrite Z.land_ones by lia.
  apply Z.mod_small. lia.
Qed.

Lemma encode_fits : forall capacity src written,
    (List.length written + List.length src <= capacity)%nat ->
    encode capacity src written = Ok (written ++ src).
Proof.
  intros capacity src written H. unfold encode.
  apply Nat.leb_le in H. now rewrite H.
Qed.

Lemma encodeBlob_fits : forall n capacity src written,
    List.length src = n ->
    (List.length written + n <= capacity)%nat ->
    encodeBlob n capacity src written = Ok (written ++ src).
Proof.
  intros n capacity src written Hn H. unfold encodeBlob.
  rewrite Hn, Nat.eqb_refl. apply encode_fits. now rewrite Hn.
Qed.

(** A sequence of elements, each appending its bytes, appends them all. *)
Lemma encodeSeq_fits :
  forall A (element : A -> list Z -> Result (list Z)) (bytes : A -> list Z)
         capacity,
    (forall a written,
        (List.length written + List.length (bytes a) <= capacity)%nat ->
        element a written = Ok (written ++ bytes a)) ->
    forall src written,
      (List.length written + List.length (List.concat (map bytes src))
       <= capacity)%nat ->
      encodeSeq element src written
      = Ok (written ++ List.concat (map bytes src)).
Proof.
  intros A element bytes capacity Helement.
  induction src as [|a rest IH]; intros written H; simpl in *.
  - now rewrite app_nil_r.
  - rewrite length_app in H.
    rewrite Helement by lia. simpl.
    rewrite IH by (rewrite length_app; lia).
    now rewrite <- app_assoc.
Qed.

Lemma concat_length_const :
  forall A (bytes : A -> list Z) n (l : list A),
    (forall a, In a l -> List.length (bytes a) = n) ->
    List.length (List.concat (map bytes l)) = (n * List.length l)%nat.
Proof.
  intros A bytes n l. induction l as [|a rest IH]; intros H; simpl.
  - lia.
  - rewrite length_app, (H a) by now left.
    rewrite IH by (intros b Hb; apply H; now right). lia.
Qed.

Ltac lengths :=
  repeat (first [ rewrite length_app in *
                | progress simpl List.length in * ]);
  lia.

Lemma encodeInstruction_fits : forall capacity instruction written,
    (List.length written + List.length (instructionBytes instruction)
     <= capacity)%nat ->
    encodeInstruction capacity instruction written
    = Ok (written ++ instructionBytes instruction).
Proof.
  intros capacity ci w H. unfold encodeInstruction, instructionBytes in *.
  repeat (rewrite encode_fits by lengths; simpl rbind).
  now rewrite <- !app_assoc.
Qed.

Lemma serializeInstructions_fits : forall instructions,
    (List.length (List.concat (map instructionBytes instructions))
     <= PACKET_DATA_SIZE)%nat ->
    serializeInstructions instructions
    = Ok (List.concat (map instructionBytes instructions)).
Proof.
  intros cis H. unfold serializeInstructions.
  now rewrite (encodeSeq_fits _ _ instructionBytes _
                 (encodeInstruction_fits PACKET_DATA_SIZE)).
Qed.

Lemma encodeLookup_fits : forall capacity lookup written,
    (List.length written + List.length (lookupBytes lookup) <= capacity)%nat ->
    encodeLookup capacity lookup written = Ok (written ++ lookupBytes lookup).
Proof.
  intros capacity lk w H. unfold encodeLookup, lookupBytes in *.
  assert (H32 := toBytes_length (accountKey lk)).
  unfold PUBLIC_KEY_LENGTH.
  rewrite encodeBlob_fits; [|exact H32|lengths].
  simpl rbind.
  repeat (rewrite encode_fits by lengths; simpl rbind).
  now rewrite <- !app_assoc.
Qed.

Lemma serializeAddressTableLookups_fits : forall lookups,
    (List.length (List.concat (map lookupBytes lookups))
     <= PACKET_DATA_SIZE)%nat ->
    serializeAddressTableLookups lookups
    = Ok (List.concat (map lookupBytes lookups)).
Proof.
  intros lks H. unfold serializeAddressTableLookups.
  now rewrite (encodeSeq_fits _ _ lookupBytes _
                 (encodeLookup_fits PACKET_DATA_SIZE)).
Qed.

Lemma encodeKeys_fits : forall capacity ks written,
    (List.length written + List.length (List.concat (map toBytes ks))
     <= capacity)%nat ->
    encodeSeq (fun k => encodeBlob PUBLIC_KEY_LENGTH capacity (toBytes k))
      ks written
    = Ok (written ++ List.concat (map toBytes ks)).
Proof.
  intros capacity ks w H.
  apply (encodeSeq_fits _ _ toBytes capacity); [|exact H].
  intros k w' Hk. unfold PUBLIC_KEY_LENGTH. apply encodeBlob_fits.
  - apply toBytes_length.
  - now rewrite toBytes_length in Hk.
Qed.

(** A message that fits its buffer is serialized to [messageBytes]. *)
Lemma MessageV0_serialize_fits : forall m blockhashBytes,
    bs58_decode (recentBlockhash m) = Ok blockhashBytes ->
    List.length blockhashBytes = 32%nat ->
    (List.length (messageBytes m blockhashBytes) <= PACKET_DATA_SIZE)%nat ->
    MessageV0_serialize m = Ok (messageBytes m blockhashBytes).
Proof.
  intros m b Hb H32 H. unfold MessageV0_serialize, messageBytes in *.
  rewrite serializeInstructions_fits by lengths. simpl rbind.
  rewrite serializeAddressTableLookups_fits by lengths. simpl rbind.
  rewrite Hb. simpl rbind.
  repeat (first [ rewrite encode_fits by lengths
                | rewrite encodeKeys_fits by lengths
                | rewrite (encodeBlob_fits PUBLIC_KEY_LENGTH)
                    by (try exact H32; unfold PUBLIC_KEY_LENGTH; lengths) ];
          simpl rbind).
  simpl. now rewrite <- !app_assoc.
Qed.

(** ** Signing and serializing a message with one signer *)

Section OneSigner.

Context {primitives : Primitives}.

Lemma sign_serialize_fits : forall m body (signer : Keypair) others,
    MessageV0_serialize m = Ok body ->
    numRequiredSignatures (header m) = 1%Z ->
    staticAccountKeys m = publicKey signer :: others ->
    List.length (ed25519_sign body (secretKey signer)) = 64%nat ->
    (List.length body <= PACKET_DATA_SIZE)%nat ->
    exists transaction,
      sign (new_VersionedTransaction m) [signer] = Ok transaction
      /\ serialize transaction
         = Ok ([1%Z] ++ ed25519_sign body (secretKey signer) ++ body).
Proof.
  intros m body signer others Hbody Hone Hkeys H64 Hfit.
  exists {| signatures := [ed25519_sign body (secretKey signer)];
            message := m |}.
  split.
  - unfold sign, new_VersionedTransaction. simpl.
    rewrite Hbody, Hone, Hkeys. simpl.
    unfold equals. rewrite N.eqb_refl. reflexivity.
  - unfold serialize. simpl. rewrite Hbody. simpl.
    rewrite (encodeBlob_fits SIGNATURE_LENGTH_IN_BYTES)
      by (try exact H64; unfold SIGNATURE_LENGTH_IN_BYTES; simpl; lia).
    simpl. rewrite encode_fits.
    + reflexivity.
    + unfold PACKET_DATA_SIZE in Hfit. lengths.
Qed.

End OneSigner.

(** ** The keys of a transaction of transfers *)

#[local] Opaque SystemProgram_programId.

Lemma existsb_equals : forall (to : PublicKey) seen,
    existsb (equals to) seen = true <-> In to seen.
Proof.
  intros to seen. rewrite existsb_exists. unfold equals. split.
  - intros [x [Hin Heq]]. apply N.eqb_eq in Heq. now subst.
  - intros Hin. exists to. split; [exact Hin|apply N.eqb_refl].
Qed.

Lemma getOrInsertDefault_fresh : forall address f l,
    ~ In address l ->
    getOrInsertDefault address f (recipients l)
    = recipients l ++ [(address, f defaultKeyMeta)].
Proof.
  intros address f l. induction l as [|a rest IH]; intros H; simpl.
  - reflexivity.
  - unfold equals. destruct (N.eqb_spec a address) as [->|Hne].
    + exfalso. apply H. now left.
    + rewrite IH; [reflexivity|]. intros Hin. apply H. now right.
Qed.

Lemma getOrInsertDefault_recipient : forall a l,
    In a l ->
    getOrInsertDefault a
      (mergeAccountMeta {| pubkey := a; isSigner := false; isWritable := true |})
      (recipients l)
    = recipients l.
Proof.
  intros a l. induction l as [|b rest IH]; intros H; simpl.
  - destruct H.
  - unfold equals. destruct (N.eqb_spec b a) as [->|Hne].
    + reflexivity.
    + destruct H as [->|H]; [congruence|]. now rewrite IH.
Qed.

(** One more transfer: its recipient gets an entry unless it is the payer,
    the program, or a recipient seen before. *)
Lemma compileInstructionKeys_transfer : forall from to lamports w seen,
    from <> SystemProgram_programId ->
    compileInstructionKeys (transferKeys from w seen)
      (SystemProgram_transfer from to lamports)
    = transferKeys from (w || equals to SystemProgram_programId)
        (addRecipient from seen to).
Proof.
  intros from to lamports w seen Hfs.
  unfold compileInstructionKeys, SystemProgram_transfer, transferKeys,
    addRecipient.
  cbn [keys programId pubkey fold_left getOrInsertDefault].
  unfold equals at 1.
  rewrite (proj2 (N.eqb_neq from SystemProgram_programId) Hfs).
  unfold equals at 1. rewrite N.eqb_refl.
  cbn [getOrInsertDefault]. unfold equals at 1. rewrite N.eqb_refl.
  cbn [getOrInsertDefault]. unfold equals.
  rewrite (N.eqb_sym from to).
  destruct (N.eqb_spec to from) as [->|Htf].
  - rewrite (proj2 (N.eqb_neq from SystemProgram_programId) Hfs).
    rewrite orb_false_r. reflexivity.
  - rewrite (N.eqb_sym SystemProgram_programId to).
    destruct (N.eqb_spec to SystemProgram_programId) as [->|Hts].
    + rewrite orb_true_r.
      unfold mergeAccountMeta, setInvoked, programMetaOf, payerMeta.
      simpl. rewrite orb_true_r. reflexivity.
    + rewrite orb_false_r. cbn [orb].
      destruct (existsb (equals to) seen) eqn:Hseen;
        unfold equals in Hseen; rewrite Hseen.
      * rewrite getOrInsertDefault_recipient; [reflexivity|].
        now apply existsb_equals.
      * rewrite getOrInsertDefault_fresh.
        -- unfold recipients. rewrite map_app. reflexivity.
        -- intros Hin. apply existsb_equals in Hin. unfold equals in Hin.
           congruence.
Qed.

Lemma compileInstructionKeys_transfers : forall from lamports l w seen,
    from <> SystemProgram_programId ->
    fold_left compileInstructionKeys
      (map (fun to => SystemProgram_transfer from to lamports) l)
      (transferKeys from w seen)
    = transferKeys from
        (w || existsb (fun to => equals to SystemProgram_programId) l)
        (fold_left (addRecipient from) l seen).
Proof.
  intros from lamports l. induction l as [|a rest IH]; intros w seen Hfs.
  - simpl. now rewrite orb_false_r.
  - cbn [map fold_left existsb].
    rewrite compileInstructionKeys_transfer by exact Hfs.
    rewrite IH by exact Hfs. now rewrite orb_assoc.
Qed.

(** The key map of the transfers from [from] to the addresses of a
    non-empty list. *)
Lemma CompiledKeys_compile_transfers : forall from lamports a rest,
    from <> SystemProgram_programId ->
    keyMetaMap
      (CompiledKeys_compile
         (map (fun to => SystemProgram_transfer from to lamports) (a :: rest))
         from)
    = transferKeys from
        (existsb (fun to => equals to SystemProgram_programId) (a :: rest))
        (replaced from (a :: rest)).
Proof.
  intros from lamports a rest Hfs.
  unfold CompiledKeys_compile. cbn [keyMetaMap map fold_left].
  assert (Hfirst :
    compileInstructionKeys (getOrInsertDefault from setPayer [])
      (SystemProgram_transfer from a lamports)
    = compileInstructionKeys (transferKeys from false [])
        (SystemProgram_transfer from a lamports)).
  { unfold compileInstructionKeys, SystemProgram_transfer, transferKeys.
    cbn [keys programId pubkey fold_left getOrInsertDefault recipients map].
    repeat (first [ rewrite N.eqb_refl
                  | rewrite (proj2 (N.eqb_neq from SystemProgram_programId)
                               Hfs)
                  | progress cbn [getOrInsertDefault]
                  | progress unfold equals ]).
    reflexivity. }
  rewrite Hfirst, compileInstructionKeys_transfer by exact Hfs.
  rewrite compileInstructionKeys_transfers by exact Hfs.
  reflexivity.
Qed.

(** ** The replaced addresses *)

Lemma addRecipient_keeps : forall from seen to x,
    In x seen -> In x (addRecipient from seen to).
Proof.
  intros from seen to x H. unfold addRecipient.
  destruct (_ || _ || _); [exact H|]. apply in_or_app. now left.
Qed.

Lemma recipients_kept : forall from l seen x,
    In x seen -> In x (fold_left (addRecipient from) l seen).
Proof.
  intros from l. induction l as [|a rest IH]; intros seen x H; simpl.
  - exact H.
  - apply IH. now apply addRecipient_keeps.
Qed.

(** Every address of the list is the payer's, the program's, or replaced. *)
Lemma replaced_covers : forall from l seen x,
    In x l ->
    x = from \/ x = SystemProgram_programId
    \/ In x (fold_left (addRecipient from) l seen).
Proof.
  intros from l. induction l as [|a rest IH]; intros seen x H.
  - destruct H.
  - cbn [fold_left]. destruct H as [->|H]; [|apply IH; exact H].
    destruct (N.eqb_spec x from) as [->|Hxf]; [now left|].
    destruct (N.eqb_spec x SystemProgram_programId) as [->|Hxs];
      [right; now left|].
    right. right. apply recipients_kept. unfold addRecipient, equals.
    rewrite (proj2 (N.eqb_neq _ _) Hxf), (proj2 (N.eqb_neq _ _) Hxs).
    cbn [orb]. destruct (existsb (equals x) seen) eqn:Hseen;
      pose proof Hseen as Hseen'; unfold equals in Hseen'; rewrite Hseen'.
    + apply (proj1 (existsb_equals x seen)). exact Hseen.
    + apply in_or_app. right. now left.
Qed.

(** A replaced address is an address of the list, and neither the payer's
    nor the program's. *)
Lemma replaced_sound : forall from l seen x,
    In x (fold_left (addRecipient from) l seen) ->
    In x seen
    \/ (In x l /\ x <> from /\ x <> SystemProgram_programId).
Proof.
  intros from l. induction l as [|a rest IH]; intros seen x H.
  - now left.
  - cbn [fold_left] in H. apply IH in H. destruct H as [H|[H1 H2]].
    + unfold addRecipient, equals in H.
      destruct (N.eqb_spec a from) as [->|Haf]; [now left|].
      destruct (N.eqb_spec a SystemProgram_programId) as [->|Has];
        [now left|].
      cbn [orb] in H.
      destruct (existsb (equals a) seen) eqn:Hseen;
        pose proof Hseen as Hseen'; unfold equals in Hseen';
        rewrite Hseen' in H; [now left|].
      apply in_app_or in H. destruct H as [H|[<-|[]]]; [now left|].
      right. repeat split; [now left|assumption|assumption].
    + right. split; [now right|exact H2].
Qed.

Lemma replaced_NoDup : forall from l seen,
    NoDup seen -> NoDup (fold_left (addRecipient from) l seen).
Proof.
  intros from l. induction l as [|a rest IH]; intros seen H.
  - exact H.
  - cbn [fold_left]. apply IH. unfold addRecipient.
    destruct (equals a from || equals a SystemProgram_programId); [exact H|].
    cbn [orb]. destruct (existsb (equals a) seen) eqn:Hseen; [exact H|].
    apply NoDup_app; [exact H|repeat constructor; intros []|].
    intros x Hx [<-|[]].
    apply (proj2 (existsb_equals a seen)) in Hx. congruence.
Qed.

(** [replaced from l] lists, each once, the addresses of [l] other than the
    payer's and the System Program's. *)
Lemma replaced_spec : forall from l,
    NoDup (replaced from l)
    /\ forall x, In x (replaced from l)
                 <-> In x l /\ x <> from /\ x <> SystemProgram_programId.
Proof.
  intros from l. split.
  - apply replaced_NoDup. constructor.
  - intros x. split.
    + intros H. apply replaced_sound in H. destruct H as [[]|H]. exact H.
    + intros [Hin [Hf Hs]].
      destruct (replaced_covers from l [] x Hin) as [H|[H|H]];
        [congruence|congruence|exact H].
Qed.

Lemma replaced_distinct_list : forall from l,
    NoDup l -> ~ In from l -> ~ In SystemProgram_programId l ->
    List.length (replaced from l) = List.length l.
Proof.
  intros from l Hnodup Hf Hs.
  destruct (replaced_spec from l) as [Hnd Hin].
  apply Nat.le_antisymm.
  - apply NoDup_incl_length; [exact Hnd|].
    intros x Hx. now apply Hin in Hx.
  - apply NoDup_incl_length; [exact Hnodup|].
    intros x Hx. apply Hin. repeat split; [exact Hx| |];
      intros ->; contradiction.
Qed.

(** ** The header and the static keys *)

Lemma entries_where_recipients : forall p l,
    entries_where p (recipients l) = if p recipientMeta then l else [].
Proof.
  intros p l. unfold entries_where, recipients.
  induction l as [|a rest IH]; simpl.
  - now destruct (p recipientMeta).
  - destruct (p recipientMeta); simpl in *; now rewrite IH.
Qed.

Lemma entries_where_cons : forall p k meta m,
    entries_where p ((k, meta) :: m)
    = if p meta then k :: entries_where p m else entries_where p m.
Proof.
  intros p k meta m. unfold entries_where. simpl. now destruct (p meta).
Qed.

(** One required signature, the payer first, then the program and the
    recipients left in the map. *)
Lemma getMessageComponents_transfers : forall from w others,
    (List.length others + 2 <= 256)%nat ->
    exists h static,
      getMessageComponents
        {| payer := from; keyMetaMap := transferKeys from w others |}
      = Ok (h, from :: static)
      /\ numRequiredSignatures h = 1%Z
      /\ List.length static = S (List.length others)
      /\ In SystemProgram_programId static
      /\ (forall x, In x others -> In x static).
Proof.
  intros from w others Hlen. unfold getMessageComponents.
  cbn [keyMetaMap payer].
  assert (Hlt : Nat.ltb 256 (List.length (transferKeys from w others))
                = false).
  { apply Nat.ltb_ge. unfold transferKeys, recipients. simpl.
    rewrite length_map. lia. }
  rewrite Hlt. unfold transferKeys.
  rewrite !entries_where_cons, !entries_where_recipients.
  destruct w;
    cbn [payerMeta programMetaOf recipientMeta keyIsSigner keyIsWritable
         keyIsInvoked andb negb app List.length Nat.add];
    unfold equals; rewrite N.eqb_refl; do 2 eexists;
    (split; [reflexivity|]); (split; [reflexivity|]).
  - split; [simpl; rewrite length_app; simpl; lia|].
    split; [now left|]. intros x Hx. right. apply in_or_app. now left.
  - split; [rewrite length_app; simpl; lia|].
    split; [|intros x Hx]; apply in_or_app; [right; now left|now left].
Qed.

(** ** Compiled instructions *)

Lemma findIndex_in : forall (k : PublicKey) l,
    In k l -> exists i, findIndex (fun entry => equals entry k) l = Some i.
Proof.
  intros k l. induction l as [|a rest IH]; intros H; simpl.
  - destruct H.
  - unfold equals at 1. destruct (N.eqb_spec a k) as [->|Hne].
    + now exists O.
    + destruct H as [->|H]; [congruence|].
      destruct (IH H) as [i Hi]. rewrite Hi. now exists (S i).
Qed.

Lemma findIndex_bound : forall A (p : A -> bool) l i,
    findIndex p l = Some i -> (i < List.length l)%nat.
Proof.
  intros A p l. induction l as [|a rest IH]; intros i H; simpl in *.
  - discriminate H.
  - destruct (p a).
    + injection H as <-. lia.
    + destruct (findIndex p rest) as [j|]; [|discriminate H].
      injection H as <-. specialize (IH j eq_refl). lia.
Qed.

Lemma findKeyIndex_in : forall flat k,
    In k flat -> exists i, findKeyIndex flat k = Ok i.
Proof.
  intros flat k H. unfold findKeyIndex.
  destruct (findIndex_in k (rev flat)) as [i Hi].
  - now apply in_rev in H.
  - rewrite Hi. eauto.
Qed.

Lemma compileEach_transfers : forall flat from lamports l,
    In from flat -> In SystemProgram_programId flat ->
    (forall a, In a l -> In a flat) ->
    exists compiled,
      compileEach flat
        (map (fun to => SystemProgram_transfer from to lamports) l)
      = Ok compiled
      /\ List.length compiled = List.length l
      /\ Forall transferShape compiled.
Proof.
  intros flat from lamports l Hfrom Hsys.
  induction l as [|a rest IH]; intros Hin; simpl.
  - exists []. repeat split. constructor.
  - destruct (findKeyIndex_in flat SystemProgram_programId Hsys) as [p Hp].
    destruct (findKeyIndex_in flat from Hfrom) as [f Hf].
    destruct (findKeyIndex_in flat a (Hin a (or_introl eq_refl))) as [t Ht].
    destruct IH as [compiled [Hc [Hlen Hshape]]].
    { intros b Hb. apply Hin. now right. }
    rewrite Hp, Hf, Ht, Hc. simpl.
    eexists. split; [reflexivity|]. split; [simpl; now rewrite Hlen|].
    constructor; [|exact Hshape].
    split; reflexivity.
Qed.

Lemma instructionBytes_transfers : forall compiled,
    Forall transferShape compiled ->
    List.length (List.concat (map instructionBytes compiled))
    = (17 * List.length compiled)%nat.
Proof.
  intros compiled H. apply concat_length_const.
  intros ci Hci. rewrite Forall_forall in H.
  destruct (H ci Hci) as [H2 H12].
  unfold instructionBytes. rewrite H2, H12.
  rewrite !encodeLength_small by lia.
  rewrite !length_app, H2, H12. reflexivity.
Qed.

(** ** Draining the recipients into a lookup table *)

Lemma drain_recipients : forall lookupTableEntries l,
    (forall a, In a l -> In a lookupTableEntries) ->
    (List.length lookupTableEntries <= 256)%nat ->
    exists indexes,
      drainKeysFoundInLookupTable lookupTableEntries writableFilter
        (recipients l)
      = Ok (indexes, l, [])
      /\ List.length indexes = List.length l.
Proof.
  intros entries l. induction l as [|a rest IH]; intros Hin Hlen; simpl.
  - exists []. split; reflexivity.
  - destruct (findIndex_in a entries (Hin a (or_introl eq_refl))) as [i Hi].
    assert (Hi256 : Nat.ltb i 256 = true).
    { apply Nat.ltb_lt. apply findIndex_bound in Hi. lia. }
    destruct IH as [indexes [Hd Hl]];
      [intros b Hb; apply Hin; now right|exact Hlen|].
    cbn [writableFilter recipientMeta keyIsSigner keyIsInvoked keyIsWritable
         negb andb].
    rewrite Hi, Hi256, Hd. simpl.
    eexists. split; [reflexivity|]. simpl. now rewrite Hl.
Qed.

(** With a table that holds them, every recipient in the map is looked up;
    the payer and the program stay. *)
Lemma extractTableLookup_transfers :
  forall (lookupTable : AddressLookupTableAccount PublicKey) from w e others,
    (forall b, In b (e :: others) -> In b (addresses (state lookupTable))) ->
    (List.length (addresses (state lookupTable)) <= 256)%nat ->
    exists indexes,
      extractTableLookup lookupTable (transferKeys from w (e :: others))
      = Ok (Some ({| accountKey := key lookupTable;
                     writableIndexes := indexes;
                     readonlyIndexes := [] |},
                  {| writable := e :: others; readonly := [] |}),
            transferKeys from w [])
      /\ List.length indexes = S (List.length others).
Proof.
  intros table from w e others Hin Hlen.
  destruct (drain_recipients (addresses (state table)) (e :: others) Hin Hlen)
    as [indexes [Hd Hl]].
  exists indexes. split; [|exact Hl].
  unfold extractTableLookup, transferKeys.
  cbn [drainKeysFoundInLookupTable writableFilter payerMeta programMetaOf
       keyIsSigner keyIsInvoked keyIsWritable negb andb].
  rewrite Hd. simpl.
  destruct indexes as [|i indexes]; [discriminate Hl|reflexivity].
Qed.

Lemma replaced_length : forall from l,
    (List.length (replaced from l) <= List.length l)%nat.
Proof.
  intros from l. destruct (replaced_spec from l) as [Hnd Hin].
  apply NoDup_incl_length; [exact Hnd|].
  intros x Hx. now apply Hin in Hx.
Qed.

(** With no recipient in the map, nothing is looked up. *)
Lemma extractTableLookup_nothing :
  forall (lookupTable : AddressLookupTableAccount PublicKey) from w,
    extractTableLookup lookupTable (transferKeys from w [])
    = Ok (None, transferKeys from w []).
Proof.
  intros table from w. unfold extractTableLookup, transferKeys.
  cbn [drainKeysFoundInLookupTable writableFilter readonlyFilter payerMeta
       programMetaOf recipients map keyIsSigner keyIsInvoked keyIsWritable
       negb andb].
  reflexivity.
Qed.

(** ** The two messages of [compareTxSize] *)

Section Messages.

Variable from : PublicKey.
Variable lamports : Z.
Variable recentBlockhashText : string.
Variables (a : PublicKey) (rest : list PublicKey).

Hypothesis payer_is_no_program : from <> SystemProgram_programId.
Hypothesis few : (List.length (a :: rest) + 2 <= 256)%nat.

Let transfers : list TransactionInstruction :=
  map (fun to => SystemProgram_transfer from to lamports) (a :: rest).

(** Without a table: the payer, the program and every replaced address are
    static keys. *)
Lemma MessageV0_compile_without :
  exists m static,
    MessageV0_compile from recentBlockhashText transfers None = Ok m
    /\ numRequiredSignatures (header m) = 1%Z
    /\ staticAccountKeys m = from :: static
    /\ List.length static = S (List.length (replaced from (a :: rest)))
    /\ recentBlockhash m = recentBlockhashText
    /\ List.length (compiledInstructions m) = List.length (a :: rest)
    /\ Forall transferShape (compiledInstructions m)
    /\ addressTableLookups m = [].
Proof.
  pose proof (replaced_length from (a :: rest)) as Hle.
  destruct (getMessageComponents_transfers from
              (existsb (fun to => equals to SystemProgram_programId)
                 (a :: rest))
              (replaced from (a :: rest)))
    as [h [static [Hg [Hh [Hl [Hsys Hin]]]]]]; [lia|].
  destruct (compileEach_transfers (from :: static) from lamports (a :: rest))
    as [compiled [Hc [Hlen Hs]]].
  - now left.
  - now right.
  - intros b Hb.
    destruct (replaced_covers from (a :: rest) [] b Hb) as [->|[->|H]];
      [now left|now right|right; apply Hin; exact H].
  - exists {| header := h; staticAccountKeys := from :: static;
               recentBlockhash := recentBlockhashText;
               compiledInstructions := compiled;
               addressTableLookups := [] |}, static.
    repeat apply conj;
      [|exact Hh|reflexivity|exact Hl|reflexivity|exact Hlen|exact Hs
       |reflexivity].
    unfold MessageV0_compile, transfers.
    rewrite CompiledKeys_compile_transfers by assumption.
    cbn [extractLookups rbind snd fst payer CompiledKeys_compile].
    rewrite Hg. cbn [rbind snd fst]. unfold compileInstructions.
    cbn [writable readonly]. rewrite !app_nil_r.
    assert (Hlt : Nat.ltb 256 (List.length (from :: static)) = false).
    { apply Nat.ltb_ge. simpl. lia. }
    rewrite Hlt, Hc. reflexivity.
Qed.

Variable lookupTable : AddressLookupTableAccount PublicKey.
Hypothesis table_of_recipients : addresses (state lookupTable) = a :: rest.

(** With the table: every replaced address is looked up; the payer and the
    program stay static. *)
Lemma MessageV0_compile_with :
  replaced from (a :: rest) <> [] ->
  exists m static indexes,
    MessageV0_compile from recentBlockhashText transfers (Some [lookupTable])
    = Ok m
    /\ numRequiredSignatures (header m) = 1%Z
    /\ staticAccountKeys m = from :: static
    /\ List.length static = 1%nat
    /\ recentBlockhash m = recentBlockhashText
    /\ List.length (compiledInstructions m) = List.length (a :: rest)
    /\ Forall transferShape (compiledInstructions m)
    /\ addressTableLookups m
       = [ {| accountKey := key lookupTable;
              writableIndexes := indexes;
              readonlyIndexes := [] |} ]
    /\ List.length indexes = List.length (replaced from (a :: rest)).
Proof.
  intros Hsome.
  pose proof (replaced_length from (a :: rest)) as Hle.
  pose proof (replaced_covers from (a :: rest) []) as Hcovers.
  pose proof (replaced_sound from (a :: rest) []) as Hsound.
  pose proof (CompiledKeys_compile_transfers from lamports a rest
                payer_is_no_program) as Hkeys.
  fold (replaced from (a :: rest)) in Hcovers, Hsound.
  destruct (replaced from (a :: rest)) as [|e others] eqn:Hreplaced;
    [now destruct Hsome|].
  set (w := existsb (fun to => equals to SystemProgram_programId) (a :: rest))
    in *.
  destruct (extractTableLookup_transfers lookupTable from w e others)
    as [indexes [He Hi]].
  { intros b Hb. rewrite table_of_recipients.
    destruct (Hsound b Hb) as [[]|[H _]]. exact H. }
  { rewrite table_of_recipients. lia. }
  destruct (getMessageComponents_transfers from w [])
    as [h [static [Hg [Hh [Hl [Hsys _]]]]]]; [simpl; lia|].
  destruct (compileEach_transfers ((from :: static) ++ (e :: others) ++ [])
              from lamports (a :: rest))
    as [compiled [Hc [Hlen Hs]]].
  - now left.
  - right. apply in_or_app. now left.
  - intros b Hb. destruct (Hcovers b Hb) as [->|[->|H]].
    + now left.
    + right. apply in_or_app. now left.
    + right. apply in_or_app. right. apply in_or_app. now left.
  - exists {| header := h; staticAccountKeys := from :: static;
               recentBlockhash := recentBlockhashText;
               compiledInstructions := compiled;
               addressTableLookups :=
                 [ {| accountKey := key lookupTable;
                      writableIndexes := indexes;
                      readonlyIndexes := [] |} ] |}, static, indexes.
    repeat apply conj;
      [|exact Hh|reflexivity|exact Hl|reflexivity|exact Hlen|exact Hs
       |reflexivity|exact Hi].
    unfold MessageV0_compile, transfers. rewrite Hkeys.
    cbn [extractLookups]. rewrite He.
    cbn [rbind snd fst payer CompiledKeys_compile writable readonly app].
    rewrite Hg. cbn [rbind snd fst]. unfold compileInstructions.
    cbn [writable readonly]. rewrite !app_nil_r. rewrite app_nil_r in Hc.
    assert (Hlt : Nat.ltb 256
              (List.length ((from :: static) ++ (e :: others)))
            = false).
    { apply Nat.ltb_ge. rewrite !length_app. simpl in *. lia. }
    rewrite Hlt, Hc. reflexivity.
Qed.

(** When the table holds nothing but the payer's and the program's
    addresses it is not referenced: the message is the one compiled without
    it. *)
Lemma MessageV0_compile_nothing_replaced :
  replaced from (a :: rest) = [] ->
  MessageV0_compile from recentBlockhashText transfers (Some [lookupTable])
  = MessageV0_compile from recentBlockhashText transfers None.
Proof.
  intros Hnone. unfold MessageV0_compile, transfers.
  rewrite CompiledKeys_compile_transfers by assumption.
  rewrite Hnone. cbn [extractLookups].
  rewrite extractTableLookup_nothing. reflexivity.
Qed.

End Messages.

(** ** The sizes of the two messages *)

Lemma messageBytes_without_length : forall m blockhashBytes,
    List.length blockhashBytes = 32%nat ->
    Forall transferShape (compiledInstructions m) ->
    (List.length (staticAccountKeys m) < 128)%nat ->
    (List.length (compiledInstructions m) < 128)%nat ->
    addressTableLookups m = [] ->
    List.length (messageBytes m blockhashBytes)
    = (39 + 32 * List.length (staticAccountKeys m)
       + 17 * List.length (compiledInstructions m))%nat.
Proof.
  intros m b H32 Hshape Hs Hc Hnone.
  unfold messageBytes. rewrite Hnone. cbn [map List.concat].
  rewrite !length_app, !encodeLength_small by (simpl; lia).
  rewrite instructionBytes_transfers by exact Hshape.
  rewrite (concat_length_const _ toBytes 32)
    by (intros; apply toBytes_length).
  rewrite H32. simpl List.length. lia.
Qed.

Lemma messageBytes_with_length : forall m tableKey indexes blockhashBytes,
    List.length blockhashBytes = 32%nat ->
    Forall transferShape (compiledInstructions m) ->
    (List.length (staticAccountKeys m) < 128)%nat ->
    (List.length (compiledInstructions m) < 128)%nat ->
    (List.length indexes < 128)%nat ->
    addressTableLookups m
    = [ {| accountKey := tableKey; writableIndexes := indexes;
           readonlyIndexes := [] |} ] ->
    List.length (messageBytes m blockhashBytes)
    = (73 + 32 * List.length (staticAccountKeys m)
       + 17 * List.length (compiledInstructions m)
       + List.length indexes)%nat.
Proof.
  intros m tableKey indexes b H32 Hshape Hs Hc Hi Hone.
  unfold messageBytes, lookupBytes. rewrite Hone.
  cbn [map List.concat accountKey writableIndexes readonlyIndexes].
  rewrite !length_app, !encodeLength_small by (simpl; lia).
  rewrite instructionBytes_transfers by exact Hshape.
  rewrite (concat_length_const _ toBytes 32)
    by (intros; apply toBytes_length).
  rewrite H32, toBytes_length. simpl List.length. lia.
Qed.

(** ** What [compareTxSize] prints *)

Section Compare.

Context {primitives : Primitives}.

Variable me : Keypair.
Variable lookupTable : AddressLookupTableAccount PublicKey.
Variable latestBlockhash : BlockhashWithExpiryBlockHeight.
Variable blockhashBytes : list Z.
Variables (a : PublicKey) (rest : list PublicKey).

Hypothesis blockhash_decodes :
  bs58_decode (blockhash latestBlockhash) = Ok blockhashBytes.
Hypothesis blockhash_32 : List.length blockhashBytes = 32%nat.
Hypothesis signatures_64 :
  forall messageData,
    List.length (ed25519_sign messageData (secretKey me)) = 64%nat.
Hypothesis payer_is_no_program : publicKey me <> SystemProgram_programId.
Hypothesis table_addresses : addresses (state lookupTable) = a :: rest.

Let transfers : list TransactionInstruction :=
  map (fun to => SystemProgram_transfer (publicKey me) to lamports_per_transfer)
      (a :: rest).

Lemma transferInstructions_web3js : forall l,
    @transferInstructions web3js me l
    = Ok (map (fun to =>
                 SystemProgram_transfer (publicKey me) to lamports_per_transfer)
              l).
Proof.
  induction l as [|b l' IH]; simpl; [reflexivity|].
  simpl in IH. rewrite IH. reflexivity.
Qed.

Lemma signed_without_size :
  (103 + 32 * List.length (replaced (publicKey me) (a :: rest))
   + 17 * List.length (a :: rest) <= PACKET_DATA_SIZE)%nat ->
  exists transaction serialized,
    @signedV0 web3js me (blockhash latestBlockhash) transfers None
    = Ok transaction
    /\ serialize transaction = Ok serialized
    /\ List.length serialized
       = (168 + 32 * List.length (replaced (publicKey me) (a :: rest))
          + 17 * List.length (a :: rest))%nat.
Proof.
  intros Hfits. unfold PACKET_DATA_SIZE in Hfits.
  destruct (MessageV0_compile_without (publicKey me) lamports_per_transfer
              (blockhash latestBlockhash) a rest)
    as [m [static [Hcompile [Hone [Hkeys [Hstatic [Htext [Hlen [Hshape
         Hnone]]]]]]]]]; try assumption.
  { simpl in *. lia. }
  assert (Hsize : List.length (messageBytes m blockhashBytes)
                  = (103 + 32 * List.length
                                  (replaced (publicKey me) (a :: rest))
                     + 17 * List.length (a :: rest))%nat).
  { rewrite messageBytes_without_length; try assumption;
      rewrite ?Hkeys, ?Hlen; simpl List.length in *; rewrite ?Hstatic; lia. }
  assert (Hfit : (List.length (messageBytes m blockhashBytes)
                  <= PACKET_DATA_SIZE)%nat).
  { rewrite Hsize. unfold PACKET_DATA_SIZE. lia. }
  destruct (sign_serialize_fits m (messageBytes m blockhashBytes) me static)
    as [transaction [Hsign Hserialize]].
  - apply MessageV0_serialize_fits; try assumption.
    rewrite Htext. exact blockhash_decodes.
  - exact Hone.
  - exact Hkeys.
  - apply signatures_64.
  - exact Hfit.
  - exists transaction. eexists. split; [|split; [exact Hserialize|]].
    + change (rbind
                (MessageV0_compile (publicKey me) (blockhash latestBlockhash)
                   (map (fun to => SystemProgram_transfer (publicKey me) to
                                     lamports_per_transfer) (a :: rest))
                   None)
                (fun m => sign (new_VersionedTransaction m) [me])
              = Ok transaction).
      rewrite Hcompile. exact Hsign.
    + rewrite !length_app, signatures_64, Hsize. simpl List.length. lia.
Qed.

Lemma signed_with_size :
  replaced (publicKey me) (a :: rest) <> [] ->
  (137 + List.length (replaced (publicKey me) (a :: rest))
   + 17 * List.length (a :: rest) <= PACKET_DATA_SIZE)%nat ->
  exists transaction serialized,
    @signedV0 web3js me (blockhash latestBlockhash) transfers
      (Some [lookupTable])
    = Ok transaction
    /\ serialize transaction = Ok serialized
    /\ List.length serialized
       = (202 + List.length (replaced (publicKey me) (a :: rest))
          + 17 * List.length (a :: rest))%nat.
Proof.
  intros Hsome Hfits. unfold PACKET_DATA_SIZE in Hfits.
  pose proof (replaced_length (publicKey me) (a :: rest)) as Hle.
  destruct (MessageV0_compile_with (publicKey me) lamports_per_transfer
              (blockhash latestBlockhash) a rest)
    with (lookupTable := lookupTable)
    as [m [static [indexes [Hcompile [Hone [Hkeys [Hstatic [Htext [Hlen
         [Hshape [Hlookups Hindexes]]]]]]]]]]]; try assumption.
  { simpl in *. lia. }
  assert (Hsize : List.length (messageBytes m blockhashBytes)
                  = (137 + List.length (replaced (publicKey me) (a :: rest))
                     + 17 * List.length (a :: rest))%nat).
  { rewrite (messageBytes_with_length m (key lookupTable) indexes);
      try assumption;
      rewrite ?Hkeys, ?Hlen, ?Hindexes; simpl List.length in *;
      rewrite ?Hstatic; lia. }
  assert (Hfit : (List.length (messageBytes m blockhashBytes)
                  <= PACKET_DATA_SIZE)%nat).
  { rewrite Hsize. unfold PACKET_DATA_SIZE. lia. }
  destruct (sign_serialize_fits m (messageBytes m blockhashBytes) me static)
    as [transaction [Hsign Hserialize]].
  - apply MessageV0_serialize_fits; try assumption.
    rewrite Htext. exact blockhash_decodes.
  - exact Hone.
  - exact Hkeys.
  - apply signatures_64.
  - exact Hfit.
  - exists transaction. eexists. split; [|split; [exact Hserialize|]].
    + change (rbind
                (MessageV0_compile (publicKey me) (blockhash latestBlockhash)
                   (map (fun to => SystemProgram_transfer (publicKey me) to
                                     lamports_per_transfer) (a :: rest))
                   (Some [lookupTable]))
                (fun m => sign (new_VersionedTransaction m) [me])
              = Ok transaction).
      rewrite Hcompile. exact Hsign.
    + rewrite !length_app, signatures_64, Hsize. simpl List.length. lia.
Qed.

Lemma signed_with_nothing_replaced :
  replaced (publicKey me) (a :: rest) = [] ->
  @signedV0 web3js me (blockhash latestBlockhash) transfers
    (Some [lookupTable])
  = @signedV0 web3js me (blockhash latestBlockhash) transfers None.
Proof.
  intros Hnone.
  change (rbind
            (MessageV0_compile (publicKey me) (blockhash latestBlockhash)
               (map (fun to => SystemProgram_transfer (publicKey me) to
                                 lamports_per_transfer) (a :: rest))
               (Some [lookupTable]))
            (fun m => sign (new_VersionedTransaction m) [me])
          = rbind
              (MessageV0_compile (publicKey me) (blockhash latestBlockhash)
                 (map (fun to => SystemProgram_transfer (publicKey me) to
                                   lamports_per_transfer) (a :: rest))
                 None)
              (fun m => sign (new_VersionedTransaction m) [me])).
  rewrite (MessageV0_compile_nothing_replaced (publicKey me)
             lamports_per_transfer (blockhash latestBlockhash) a rest
             payer_is_no_program lookupTable Hnone).
  reflexivity.
Qed.

(** Both transactions, for any table of at least one address whose two
    messages fit the serialization buffer. *)
Lemma signed_sizes :
  (messageSizeWithout (List.length (replaced (publicKey me) (a :: rest)))
     (List.length (a :: rest)) <= PACKET_DATA_SIZE)%nat ->
  (messageSizeWith (List.length (replaced (publicKey me) (a :: rest)))
     (List.length (a :: rest)) <= PACKET_DATA_SIZE)%nat ->
  exists transactionWith transactionWithout serializedWith serializedWithout,
    @signedV0 web3js me (blockhash latestBlockhash) transfers
      (Some [lookupTable]) = Ok transactionWith
    /\ @signedV0 web3js me (blockhash latestBlockhash) transfers None
       = Ok transactionWithout
    /\ serialize transactionWith = Ok serializedWith
    /\ serialize transactionWithout = Ok serializedWithout
    /\ List.length serializedWith
       = signedSize
           (messageSizeWith
              (List.length (replaced (publicKey me) (a :: rest)))
              (List.length (a :: rest)))
    /\ List.length serializedWithout
       = signedSize
           (messageSizeWithout
              (List.length (replaced (publicKey me) (a :: rest)))
              (List.length (a :: rest))).
Proof.
  intros Hwithout Hwith.
  destruct (signed_without_size Hwithout)
    as [txWithout [bytesWithout [HsWithout [HserWithout HlenWithout]]]].
  destruct (replaced (publicKey me) (a :: rest)) as [|e others] eqn:Hreplaced.
  - exists txWithout, txWithout, bytesWithout, bytesWithout.
    repeat apply conj; try assumption.
    rewrite signed_with_nothing_replaced by exact Hreplaced.
    exact HsWithout.
  - destruct signed_with_size
      as [txWith [bytesWith [HsWith [HserWith HlenWith]]]].
    + rewrite Hreplaced. discriminate.
    + rewrite Hreplaced. exact Hwith.
    + exists txWith, txWithout, bytesWith, bytesWithout.
      repeat apply conj; try assumption.
      rewrite HlenWith, Hreplaced. reflexivity.
Qed.

End Compare.

Section Reported.

Context {primitives : Primitives}.

Variable me : Keypair.
Variable net : @Cluster web3js.

(** The two sizes [compareTxSize] prints for a table of [k >= 1] addresses
    of which [d] are replaced by an index, when both messages fit the
    serialization buffer. *)
Lemma compareTxSize_sizes :
  forall (st st1 st2 : ledger net) lookupTableAddress
         (lookupTable : AddressLookupTableAccount PublicKey)
         latestBlockhash blockhashBytes,
    rpc net (getAddressLookupTable lookupTableAddress) st
    = (Ok (Some lookupTable), st1) ->
    rpc net (getLatestBlockhash finalized) st1 = (Ok latestBlockhash, st2) ->
    bs58_decode (blockhash latestBlockhash) = Ok blockhashBytes ->
    List.length blockhashBytes = 32%nat ->
    (forall messageData,
        List.length (ed25519_sign messageData (secretKey me)) = 64%nat) ->
    publicKey me <> SystemProgram_programId ->
    addresses (state lookupTable) <> [] ->
    (messageSizeWithout
       (List.length (replaced (publicKey me) (addresses (state lookupTable))))
       (List.length (addresses (state lookupTable))) <= PACKET_DATA_SIZE)%nat ->
    (messageSizeWith
       (List.length (replaced (publicKey me) (addresses (state lookupTable))))
       (List.length (addresses (state lookupTable))) <= PACKET_DATA_SIZE)%nat ->
    exec net (@compareTxSize web3js me lookupTableAddress) st
    = {| trace :=
           compared_trace lookupTableAddress lookupTable latestBlockhash
             (Z.of_nat
                (signedSize
                   (messageSizeWithout
                      (List.length
                         (replaced (publicKey me)
                            (addresses (state lookupTable))))
                      (List.length (addresses (state lookupTable))))))
             (Z.of_nat
                (signedSize
                   (messageSizeWith
                      (List.length
                         (replaced (publicKey me)
                            (addresses (state lookupTable))))
                      (List.length (addresses (state lookupTable))))));
         final := st2;
         outcome := Ok tt |}.
Proof.
  intros st st1 st2 address table bh b Htable Hbh Hdecode H32 H64 Hpayer
         Hsome Hwithout Hwith.
  pose proof (transferInstructions_web3js me (addresses (state table)))
    as Hinstructions.
  destruct (addresses (state table)) as [|a rest] eqn:Haddresses;
    [now destruct Hsome|].
  destruct (signed_sizes me table bh b a rest)
    as [txWith [txWithout [bytesWith [bytesWithout
         [HsWith [HsWithout [HserWith [HserWithout [HlenWith
          HlenWithout]]]]]]]]];
    try assumption.
  rewrite (@compareTxSize_run web3js me net address st st1 st2 table
             (map (fun to => SystemProgram_transfer (publicKey me) to
                               lamports_per_transfer) (a :: rest))
             bh txWith txWithout bytesWithout bytesWith);
    try assumption.
  - rewrite HlenWithout, HlenWith. reflexivity.
  - transitivity (@transferInstructions web3js me (a :: rest)).
    + f_equal. exact Haddresses.
    + exact Hinstructions.
Qed.

(** C2 (amended). For a table of at least one address whose two messages
    fit the serialization buffer, [compareTxSize] prints a size with the
    table that is strictly smaller than the size without it exactly when the
    table holds at least two distinct addresses other than the payer's and
    the System Program's. *)
Theorem with_table_smaller_iff_two_replaced :
  forall (st st1 st2 : ledger net) lookupTableAddress
         (lookupTable : AddressLookupTableAccount PublicKey)
         latestBlockhash blockhashBytes,
    rpc net (getAddressLookupTable lookupTableAddress) st
    = (Ok (Some lookupTable), st1) ->
    rpc net (getLatestBlockhash finalized) st1 = (Ok latestBlockhash, st2) ->
    bs58_decode (blockhash latestBlockhash) = Ok blockhashBytes ->
    List.length blockhashBytes = 32%nat ->
    (forall messageData,
        List.length (ed25519_sign messageData (secretKey me)) = 64%nat) ->
    publicKey me <> SystemProgram_programId ->
    addresses (state lookupTable) <> [] ->
    (messageSizeWithout
       (List.length (replaced (publicKey me) (addresses (state lookupTable))))
       (List.length (addresses (state lookupTable))) <= PACKET_DATA_SIZE)%nat ->
    (messageSizeWith
       (List.length (replaced (publicKey me) (addresses (state lookupTable))))
       (List.length (addresses (state lookupTable))) <= PACKET_DATA_SIZE)%nat ->
    exists sizeWithout sizeWith,
      exec net (@compareTxSize web3js me lookupTableAddress) st
      = {| trace := compared_trace lookupTableAddress lookupTable
                      latestBlockhash sizeWithout sizeWith;
           final := st2;
           outcome := Ok tt |}
      /\ ((sizeWith < sizeWithout)%Z
          <-> (2 <= List.length
                      (replaced (publicKey me)
                         (addresses (state lookupTable))))%nat).
Proof.
  intros st st1 st2 address table bh b Htable Hbh Hdecode H32 H64 Hpayer
         Hsome Hwithout Hwith.
  do 2 eexists. split.
  - apply (compareTxSize_sizes st st1 st2 address table bh b); assumption.
  - unfold signedSize, messageSizeWith, messageSizeWithout.
    destruct (List.length (replaced (publicKey me) (addresses (state table))))
      as [|d]; lia.
Qed.


End Reported.

(** ** Overrunning the buffer

    Every encoder writes at the end of what is written or throws the same
    [RangeError], so a chain of encoders is one [encode] of the bytes
    concatenated. *)

Lemma rbind_assoc : forall A B C (r : Result A) (f : A -> Result B)
                           (g : B -> Result C),
    rbind (rbind r f) g = rbind r (fun a => rbind (f a) g).
Proof. intros A B C [a|e] f g; reflexivity. Qed.

Lemma encode_then : forall capacity x y written,
    rbind (encode capacity x written) (fun w => encode capacity y w)
    = encode capacity (x ++ y) written.
Proof.
  intros capacity x y written. unfold encode. rewrite length_app.
  destruct (Nat.leb (List.length written + List.length x) capacity) eqn:E1;
    simpl.
  - rewrite length_app, <- Nat.add_assoc, app_assoc. reflexivity.
  - destruct (Nat.leb (List.length written
                       + (List.length x + List.length y)) capacity) eqn:E2;
      [|reflexivity].
    apply Nat.leb_le in E2. apply Nat.leb_gt in E1. lia.
Qed.

Lemma encode_then_more : forall A capacity x y written
                                (k : list Z -> Result A),
    rbind (encode capacity x written)
      (fun w => rbind (encode capacity y w) k)
    = rbind (encode capacity (x ++ y) written) k.
Proof.
  intros A capacity x y written k.
  rewrite <- encode_then, rbind_assoc. reflexivity.
Qed.

Lemma encodeBlob_encode : forall n capacity src written,
    List.length src = n ->
    encodeBlob n capacity src written = encode capacity src written.
Proof.
  intros n capacity src written H. unfold encodeBlob.
  now rewrite H, Nat.eqb_refl.
Qed.

Lemma encodeBlob_then_more : forall A n capacity x src written
                                    (k : list Z -> Result A),
    List.length src = n ->
    rbind (encode capacity x written)
      (fun w => rbind (encodeBlob n capacity src w) k)
    = rbind (encode capacity (x ++ src) written) k.
Proof.
  intros A n capacity x src written k H.
  rewrite <- encode_then_more. destruct (encode capacity x written); simpl;
    [|reflexivity].
  now rewrite encodeBlob_encode.
Qed.

Lemma encodeSeq_then :
  forall A (element : A -> list Z -> Result (list Z)) (bytes : A -> list Z)
         capacity,
    (forall a written, element a written = encode capacity (bytes a) written) ->
    forall src x written,
      rbind (encode capacity x written)
        (fun w => encodeSeq element src w)
      = encode capacity (x ++ List.concat (map bytes src)) written.
Proof.
  intros A element bytes capacity Helement src.
  induction src as [|a rest IH]; intros x written.
  - simpl. rewrite app_nil_r. destruct (encode capacity x written); reflexivity.
  - cbn [encodeSeq map List.concat].
    transitivity
      (rbind (rbind (encode capacity x written)
                (fun w => encode capacity (bytes a) w))
         (fun w => encodeSeq element rest w)).
    + rewrite rbind_assoc. destruct (encode capacity x written); simpl;
        [|reflexivity].
      now rewrite Helement.
    + rewrite encode_then, IH, app_assoc. reflexivity.
Qed.

Lemma encodeSeq_then_more :
  forall A B (element : A -> list Z -> Result (list Z)) (bytes : A -> list Z)
         capacity,
    (forall a written, element a written = encode capacity (bytes a) written) ->
    forall src x written (k : list Z -> Result B),
      rbind (encode capacity x written)
        (fun w => rbind (encodeSeq element src w) k)
      = rbind (encode capacity (x ++ List.concat (map bytes src)) written) k.
Proof.
  intros A B element bytes capacity Helement src x written k.
  rewrite <- (encodeSeq_then A element bytes capacity Helement), rbind_assoc.
  reflexivity.
Qed.

Lemma encode_nothing : forall capacity, encode capacity [] [] = Ok [].
Proof. reflexivity. Qed.

Lemma encodeInstruction_encode : forall capacity instruction written,
    encodeInstruction capacity instruction written
    = encode capacity (instructionBytes instruction) written.
Proof.
  intros capacity ci w. unfold encodeInstruction, instructionBytes.
  rewrite !encode_then_more, encode_then, <- !app_assoc. reflexivity.
Qed.

Lemma encodeLookup_encode : forall capacity lookup written,
    encodeLookup capacity lookup written
    = encode capacity (lookupBytes lookup) written.
Proof.
  intros capacity lk w. unfold encodeLookup, lookupBytes.
  rewrite (encodeBlob_encode PUBLIC_KEY_LENGTH) by apply toBytes_length.
  rewrite !encode_then_more, encode_then, <- !app_assoc. reflexivity.
Qed.

Lemma serializeInstructions_encode : forall instructions,
    serializeInstructions instructions
    = encode PACKET_DATA_SIZE
        (List.concat (map instructionBytes instructions)) [].
Proof.
  intros instructions.
  exact (encodeSeq_then _ _ instructionBytes PACKET_DATA_SIZE
           (encodeInstruction_encode PACKET_DATA_SIZE) instructions [] []).
Qed.

Lemma serializeAddressTableLookups_encode : forall lookups,
    serializeAddressTableLookups lookups
    = encode PACKET_DATA_SIZE (List.concat (map lookupBytes lookups)) [].
Proof.
  intros lookups.
  exact (encodeSeq_then _ _ lookupBytes PACKET_DATA_SIZE
           (encodeLookup_encode PACKET_DATA_SIZE) lookups [] []).
Qed.

Lemma encode_overruns : forall capacity src,
    (capacity < List.length src)%nat ->
    encode capacity src []
    = Thrown (RangeError "encoding overruns Uint8Array").
Proof.
  intros capacity src H. unfold encode. simpl.
  apply Nat.leb_gt in H. now rewrite H.
Qed.

(** [MessageV0.serialize()] gives the bytes of the message when they fit
    the buffer of [PACKET_DATA_SIZE] bytes and throws a [RangeError] when
    they do not. *)
Lemma MessageV0_serialize_encode : forall m blockhashBytes,
    bs58_decode (recentBlockhash m) = Ok blockhashBytes ->
    List.length blockhashBytes = 32%nat ->
    MessageV0_serialize m
    = encode PACKET_DATA_SIZE (messageBytes m blockhashBytes) [].
Proof.
  intros m b Hb H32. unfold MessageV0_serialize.
  rewrite serializeInstructions_encode, serializeAddressTableLookups_encode,
    Hb.
  destruct (Nat.leb (List.length (messageBytes m b)) PACKET_DATA_SIZE)
    eqn:Efit.
  - apply Nat.leb_le in Efit.
    rewrite (encode_fits PACKET_DATA_SIZE
               (List.concat (map instructionBytes (compiledInstructions m))))
      by (unfold messageBytes in Efit; lengths).
    rewrite (encode_fits PACKET_DATA_SIZE
               (List.concat (map lookupBytes (addressTableLookups m))))
      by (unfold messageBytes in Efit; lengths).
    cbn [rbind app].
    rewrite !encode_then_more.
    rewrite (encodeSeq_then_more _ _
               (fun k => encodeBlob PUBLIC_KEY_LENGTH PACKET_DATA_SIZE
                           (toBytes k))
               toBytes PACKET_DATA_SIZE)
      by (intros k w; apply encodeBlob_encode, toBytes_length).
    rewrite (encodeBlob_then_more _ PUBLIC_KEY_LENGTH) by exact H32.
    rewrite !encode_then_more, encode_then.
    unfold messageBytes. rewrite <- !app_assoc. reflexivity.
  - apply Nat.leb_gt in Efit.
    rewrite (encode_overruns PACKET_DATA_SIZE (messageBytes m b)) by exact Efit.
    destruct (encode PACKET_DATA_SIZE
                (List.concat (map instructionBytes (compiledInstructions m)))
                []) as [si|e] eqn:Esi.
    2:{ unfold encode in Esi. simpl in Esi.
        destruct (Nat.leb _ _); [discriminate Esi|].
        injection Esi as <-. reflexivity. }
    destruct (encode PACKET_DATA_SIZE
                (List.concat (map lookupBytes (addressTableLookups m))) [])
      as [sl|e] eqn:Esl.
    2:{ unfold encode in Esl. simpl in Esl.
        destruct (Nat.leb _ _); [discriminate Esl|].
        injection Esl as <-. reflexivity. }
    assert (Hsi : si = List.concat
                         (map instructionBytes (compiledInstructions m))).
    { unfold encode in Esi. simpl in Esi.
      destruct (Nat.leb _ _); [now injection Esi|discriminate Esi]. }
    assert (Hsl : sl = List.concat
                         (map lookupBytes (addressTableLookups m))).
    { unfold encode in Esl. simpl in Esl.
      destruct (Nat.leb _ _); [now injection Esl|discriminate Esl]. }
    subst si sl. cbn [rbind app].
    rewrite !encode_then_more.
    rewrite (encodeSeq_then_more _ _
               (fun k => encodeBlob PUBLIC_KEY_LENGTH PACKET_DATA_SIZE
                           (toBytes k))
               toBytes PACKET_DATA_SIZE)
      by (intros k w; apply encodeBlob_encode, toBytes_length).
    rewrite (encodeBlob_then_more _ PUBLIC_KEY_LENGTH) by exact H32.
    rewrite !encode_then_more, encode_then.
    rewrite <- (encode_overruns PACKET_DATA_SIZE (messageBytes m b))
      by exact Efit.
    unfold messageBytes. rewrite <- !app_assoc. reflexivity.
Qed.

Lemma encodeLength_nonempty : forall len,
    (1 <= List.length (encodeLength len))%nat.
Proof.
  intros len. unfold encodeLength. cbn [encodeLength_fuel].
  destruct (Z.shiftr (Z.of_nat len) 7 =? 0)%Z; simpl; lia.
Qed.

(** A message of transfers has at least the bytes counted by
    [messageSizeWithout] and [messageSizeWith]: a count that needs more
    than one byte only makes it longer. *)
Lemma messageBytes_at_least : forall m blockhashBytes,
    List.length blockhashBytes = 32%nat ->
    Forall transferShape (compiledInstructions m) ->
    (39 + 32 * List.length (staticAccountKeys m)
     + 17 * List.length (compiledInstructions m)
     + List.length (List.concat (map lookupBytes (addressTableLookups m)))
     <= List.length (messageBytes m blockhashBytes))%nat.
Proof.
  intros m b H32 Hshape. unfold messageBytes.
  rewrite !length_app.
  rewrite instructionBytes_transfers by exact Hshape.
  rewrite (concat_length_const _ toBytes 32)
    by (intros; apply toBytes_length).
  pose proof (encodeLength_nonempty (List.length (staticAccountKeys m))).
  pose proof (encodeLength_nonempty (List.length (compiledInstructions m))).
  pose proof (encodeLength_nonempty (List.length (addressTableLookups m))).
  rewrite H32. simpl List.length. lia.
Qed.

Section Overrun.

Context {primitives : Primitives}.

Variable me : Keypair.
Variable lookupTable : AddressLookupTableAccount PublicKey.
Variable latestBlockhash : BlockhashWithExpiryBlockHeight.
Variable blockhashBytes : list Z.
Variables (a : PublicKey) (rest : list PublicKey).

Hypothesis blockhash_decodes :
  bs58_decode (blockhash latestBlockhash) = Ok blockhashBytes.
Hypothesis blockhash_32 : List.length blockhashBytes = 32%nat.
Hypothesis payer_is_no_program : publicKey me <> SystemProgram_programId.
Hypothesis table_addresses : addresses (state lookupTable) = a :: rest.
Hypothesis few : (List.length (a :: rest) + 2 <= 256)%nat.

Let transfers : list TransactionInstruction :=
  map (fun to => SystemProgram_transfer (publicKey me) to lamports_per_transfer)
      (a :: rest).

Lemma sign_overruns : forall m (signers : list Keypair),
    bs58_decode (recentBlockhash m) = Ok blockhashBytes ->
    (PACKET_DATA_SIZE < List.length (messageBytes m blockhashBytes))%nat ->
    sign (new_VersionedTransaction m) signers
    = Thrown (RangeError "encoding overruns Uint8Array").
Proof.
  intros m signers Hb H. unfold sign. cbn [message new_VersionedTransaction].
  rewrite (MessageV0_serialize_encode m blockhashBytes Hb blockhash_32).
  rewrite encode_overruns by exact H. reflexivity.
Qed.

Lemma signed_without_overruns :
  (PACKET_DATA_SIZE
   < messageSizeWithout (List.length (replaced (publicKey me) (a :: rest)))
       (List.length (a :: rest)))%nat ->
  @signedV0 web3js me (blockhash latestBlockhash) transfers None
  = Thrown (RangeError "encoding overruns Uint8Array").
Proof.
  intros Hover. unfold messageSizeWithout in Hover.
  destruct (MessageV0_compile_without (publicKey me) lamports_per_transfer
              (blockhash latestBlockhash) a rest)
    as [m [static [Hcompile [Hone [Hkeys [Hstatic [Htext [Hlen [Hshape
         Hnone]]]]]]]]]; try assumption.
  change (rbind
            (MessageV0_compile (publicKey me) (blockhash latestBlockhash)
               (map (fun to => SystemProgram_transfer (publicKey me) to
                                 lamports_per_transfer) (a :: rest))
               None)
            (fun m => sign (new_VersionedTransaction m) [me])
          = Thrown (RangeError "encoding overruns Uint8Array")).
  rewrite Hcompile. cbn [rbind]. apply sign_overruns.
  - rewrite Htext. exact blockhash_decodes.
  - pose proof (messageBytes_at_least m blockhashBytes blockhash_32 Hshape)
      as Hleast.
    rewrite Hnone, Hkeys, Hlen in Hleast. simpl List.length in *.
    rewrite Hstatic in Hleast. lia.
Qed.

Lemma signed_with_overruns :
  (PACKET_DATA_SIZE
   < messageSizeWith (List.length (replaced (publicKey me) (a :: rest)))
       (List.length (a :: rest)))%nat ->
  @signedV0 web3js me (blockhash latestBlockhash) transfers
    (Some [lookupTable])
  = Thrown (RangeError "encoding overruns Uint8Array").
Proof.
  intros Hover.
  destruct (replaced (publicKey me) (a :: rest)) as [|e others] eqn:Hreplaced.
  - rewrite (signed_with_nothing_replaced me lookupTable latestBlockhash a rest
               payer_is_no_program Hreplaced).
    apply signed_without_overruns. rewrite Hreplaced. exact Hover.
  - unfold messageSizeWith in Hover.
    destruct (MessageV0_compile_with (publicKey me) lamports_per_transfer
                (blockhash latestBlockhash) a rest)
      with (lookupTable := lookupTable)
      as [m [static [indexes [Hcompile [Hone [Hkeys [Hstatic [Htext [Hlen
           [Hshape [Hlookups Hindexes]]]]]]]]]]]; try assumption.
    { rewrite Hreplaced. discriminate. }
    change (rbind
              (MessageV0_compile (publicKey me) (blockhash latestBlockhash)
                 (map (fun to => SystemProgram_transfer (publicKey me) to
                                   lamports_per_transfer) (a :: rest))
                 (Some [lookupTable]))
              (fun m => sign (new_VersionedTransaction m) [me])
            = Thrown (RangeError "encoding overruns Uint8Array")).
    rewrite Hcompile. cbn [rbind]. apply sign_overruns.
    + rewrite Htext. exact blockhash_decodes.
    + pose proof (messageBytes_at_least m blockhashBytes blockhash_32 Hshape)
        as Hleast.
      rewrite Hlookups, Hkeys, Hlen in Hleast.
      unfold lookupBytes in Hleast.
      cbn [map List.concat accountKey writableIndexes readonlyIndexes]
        in Hleast.
      rewrite !length_app, toBytes_length, Hindexes, Hreplaced in Hleast.
      pose proof (encodeLength_nonempty (List.length indexes)) as Hone'.
      rewrite Hindexes, Hreplaced in Hone'.
      pose proof (encodeLength_nonempty 0) as Hzero.
      set (total := List.length (messageBytes m blockhashBytes)) in *.
      cbn [List.length] in Hover, Hleast, Hone'.
      rewrite Hstatic in Hleast. lia.
Qed.

End Overrun.

(** ** Signing any message with its first key *)

Lemma signedV0_size :
  forall {primitives : Primitives} (me : Keypair) text instructions tables
         m blockhashBytes others,
    MessageV0_compile (publicKey me) text instructions tables = Ok m ->
    numRequiredSignatures (header m) = 1%Z ->
    staticAccountKeys m = publicKey me :: others ->
    bs58_decode (recentBlockhash m) = Ok blockhashBytes ->
    List.length blockhashBytes = 32%nat ->
    (forall messageData,
        List.length (ed25519_sign messageData (secretKey me)) = 64%nat) ->
    (List.length (messageBytes m blockhashBytes) <= PACKET_DATA_SIZE)%nat ->
    exists transaction serialized,
      @signedV0 web3js me text instructions tables = Ok transaction
      /\ serialize transaction = Ok serialized
      /\ List.length serialized
         = signedSize (List.length (messageBytes m blockhashBytes)).
Proof.
  intros primitives me text ixs tables m b others Hcompile Hone Hkeys Hb H32
         H64 Hfit.
  destruct (sign_serialize_fits m (messageBytes m b) me others)
    as [transaction [Hsign Hserialize]]; try assumption.
  - apply MessageV0_serialize_fits; assumption.
  - apply H64.
  - exists transaction. eexists. split; [|split; [exact Hserialize|]].
    + change (rbind (MessageV0_compile (publicKey me) text ixs tables)
                (fun m => sign (new_VersionedTransaction m) [me])
              = Ok transaction).
      rewrite Hcompile. exact Hsign.
    + rewrite !length_app, H64. unfold signedSize. simpl List.length. lia.
Qed.

(** ** A table without addresses *)

Lemma extractTableLookup_payer_only :
  forall (lookupTable : AddressLookupTableAccount PublicKey) from,
    extractTableLookup lookupTable [(from, payerMeta)]
    = Ok (None, [(from, payerMeta)]).
Proof. intros table from. reflexivity. Qed.

(** With no instruction the only key is the payer's, with or without a
    table. *)
Lemma MessageV0_compile_nothing :
  forall from text
         (tables : option (list (AddressLookupTableAccount PublicKey))),
    (tables = None \/ exists lookupTable, tables = Some [lookupTable]) ->
    MessageV0_compile from text [] tables
    = Ok {| header := {| numRequiredSignatures := 1;
                         numReadonlySignedAccounts := 0;
                         numReadonlyUnsignedAccounts := 0 |};
            staticAccountKeys := [from];
            recentBlockhash := text;
            compiledInstructions := [];
            addressTableLookups := [] |}.
Proof.
  intros from text tables [->|[table ->]];
    unfold MessageV0_compile, CompiledKeys_compile;
    cbn [fold_left getOrInsertDefault keyMetaMap payer extractLookups];
    change (setPayer defaultKeyMeta) with payerMeta;
    rewrite ?extractTableLookup_payer_only;
    cbn [rbind fst snd]; unfold getMessageComponents;
    cbn [keyMetaMap payer List.length Nat.ltb Nat.leb entries_where filter
         map fst snd payerMeta keyIsSigner keyIsWritable keyIsInvoked
         andb negb];
    unfold equals; rewrite N.eqb_refl; reflexivity.
Qed.

Section Further.

Context {primitives : Primitives}.

Variable me : Keypair.
Variable net : @Cluster web3js.

(** Both sizes [compareTxSize] prints, for a table of which [d] addresses
    are replaced among its [k >= 1] addresses: [65 + 103 + 32 d + 17 k]
    bytes without the table and, when [d >= 1], [65 + 137 + d + 17 k] bytes
    with it; an address that is the payer's or the System Program's, or
    that the table holds already, adds its transfer and no key. *)
Theorem compareTxSize_reported_sizes :
  forall (st st1 st2 : ledger net) lookupTableAddress
         (lookupTable : AddressLookupTableAccount PublicKey)
         latestBlockhash blockhashBytes,
    rpc net (getAddressLookupTable lookupTableAddress) st
    = (Ok (Some lookupTable), st1) ->
    rpc net (getLatestBlockhash finalized) st1 = (Ok latestBlockhash, st2) ->
    bs58_decode (blockhash latestBlockhash) = Ok blockhashBytes ->
    List.length blockhashBytes = 32%nat ->
    (forall messageData,
        List.length (ed25519_sign messageData (secretKey me)) = 64%nat) ->
    publicKey me <> SystemProgram_programId ->
    addresses (state lookupTable) <> [] ->
    (messageSizeWithout
       (List.length (replaced (publicKey me) (addresses (state lookupTable))))
       (List.length (addresses (state lookupTable))) <= PACKET_DATA_SIZE)%nat ->
    (messageSizeWith
       (List.length (replaced (publicKey me) (addresses (state lookupTable))))
       (List.length (addresses (state lookupTable))) <= PACKET_DATA_SIZE)%nat ->
    exec net (@compareTxSize web3js me lookupTableAddress) st
    = {| trace :=
           compared_trace lookupTableAddress lookupTable latestBlockhash
             (Z.of_nat
                (signedSize
                   (messageSizeWithout
                      (List.length
                         (replaced (publicKey me)
                            (addresses (state lookupTable))))
                      (List.length (addresses (state lookupTable))))))
             (Z.of_nat
                (signedSize
                   (messageSizeWith
                      (List.length
                         (replaced (publicKey me)
                            (addresses (state lookupTable))))
                      (List.length (addresses (state lookupTable))))));
         final := st2;
         outcome := Ok tt |}.
Proof.
  intros st st1 st2 address table bh b.
  apply (compareTxSize_sizes me net st st1 st2 address table bh b).
Qed.

(** When one of the two messages does not fit the buffer of 1232 bytes,
    [compareTxSize] throws a [RangeError] while signing, after its two
    fetches: it prints no size at all. *)
Theorem compareTxSize_overruns :
  forall (st st1 st2 : ledger net) lookupTableAddress
         (lookupTable : AddressLookupTableAccount PublicKey)
         latestBlockhash blockhashBytes,
    rpc net (getAddressLookupTable lookupTableAddress) st
    = (Ok (Some lookupTable), st1) ->
    rpc net (getLatestBlockhash finalized) st1 = (Ok latestBlockhash, st2) ->
    bs58_decode (blockhash latestBlockhash) = Ok blockhashBytes ->
    List.length blockhashBytes = 32%nat ->
    (forall messageData,
        List.length (ed25519_sign messageData (secretKey me)) = 64%nat) ->
    publicKey me <> SystemProgram_programId ->
    (1 <= List.length (addresses (state lookupTable)) <= 254)%nat ->
    (PACKET_DATA_SIZE
     < messageSizeWithout
         (List.length
            (replaced (publicKey me) (addresses (state lookupTable))))
         (List.length (addresses (state lookupTable))))%nat
    \/ (PACKET_DATA_SIZE
        < messageSizeWith
            (List.length
               (replaced (publicKey me) (addresses (state lookupTable))))
            (List.length (addresses (state lookupTable))))%nat ->
    exec net (@compareTxSize web3js me lookupTableAddress) st
    = {| trace := fetched_trace lookupTableAddress lookupTable latestBlockhash;
         final := st2;
         outcome := Thrown (RangeError "encoding overruns Uint8Array") |}.
Proof.
  intros st st1 st2 address table bh b Htable Hbh Hdecode H32 H64 Hpayer
         Hk Hover.
  pose proof (transferInstructions_web3js me (addresses (state table)))
    as Hinstructions.
  destruct (addresses (state table)) as [|a rest] eqn:Haddresses;
    [simpl in Hk; lia|].
  assert (Hfew : (List.length (a :: rest) + 2 <= 256)%nat) by lia.
  apply (@compareTxSize_run_throws web3js me net address st st1 st2 table
           (map (fun to => SystemProgram_transfer (publicKey me) to
                             lamports_per_transfer) (a :: rest)) bh);
    try assumption.
  { transitivity (@transferInstructions web3js me (a :: rest));
      [f_equal; exact Haddresses|exact Hinstructions]. }
  destruct (Nat.leb
              (messageSizeWith
                 (List.length (replaced (publicKey me) (a :: rest)))
                 (List.length (a :: rest))) PACKET_DATA_SIZE) eqn:Ewith.
  - apply Nat.leb_le in Ewith. right.
    assert (Hwithout :
              (PACKET_DATA_SIZE
               < messageSizeWithout
                   (List.length (replaced (publicKey me) (a :: rest)))
                   (List.length (a :: rest)))%nat).
    { destruct Hover as [H|H]; [exact H|lia]. }
    split.
    + destruct (replaced (publicKey me) (a :: rest)) as [|e others]
        eqn:Hreplaced.
      * exfalso. cbn [messageSizeWith List.length] in Ewith.
        cbn [List.length] in Hwithout. lia.
      * destruct (signed_with_size me table bh b a rest)
          as [txWith [bytesWith [HsWith _]]]; try assumption.
        { rewrite Hreplaced. discriminate. }
        { rewrite Hreplaced. exact Ewith. }
        exact (f_equal (@is_ok _) HsWith).
    + apply (signed_without_overruns me bh b a rest); assumption.
  - apply Nat.leb_gt in Ewith. left.
    apply (signed_with_overruns me table bh b a rest); assumption.
Qed.

(** For a table without addresses [compareTxSize] compiles two transactions
    without instructions; the table is not referenced and both sizes are
    136 bytes. *)
Theorem compareTxSize_empty_table :
  forall (st st1 st2 : ledger net) lookupTableAddress
         (lookupTable : AddressLookupTableAccount PublicKey)
         latestBlockhash blockhashBytes,
    rpc net (getAddressLookupTable lookupTableAddress) st
    = (Ok (Some lookupTable), st1) ->
    rpc net (getLatestBlockhash finalized) st1 = (Ok latestBlockhash, st2) ->
    bs58_decode (blockhash latestBlockhash) = Ok blockhashBytes ->
    List.length blockhashBytes = 32%nat ->
    (forall messageData,
        List.length (ed25519_sign messageData (secretKey me)) = 64%nat) ->
    addresses (state lookupTable) = [] ->
    exec net (@compareTxSize web3js me lookupTableAddress) st
    = {| trace := compared_trace lookupTableAddress lookupTable
                    latestBlockhash 136 136;
         final := st2;
         outcome := Ok tt |}.
Proof.
  intros st st1 st2 address table bh b Htable Hbh Hdecode H32 H64 Hnone.
  set (m := {| header := {| numRequiredSignatures := 1;
                            numReadonlySignedAccounts := 0;
                            numReadonlyUnsignedAccounts := 0 |};
               staticAccountKeys := [publicKey me];
               recentBlockhash := blockhash bh;
               compiledInstructions := [];
               addressTableLookups := [] |}).
  assert (Hsize : List.length (messageBytes m b) = 71%nat).
  { rewrite messageBytes_without_length; try assumption; try reflexivity;
      try constructor; simpl; lia. }
  destruct (signedV0_size me (blockhash bh) [] (Some [table]) m b [])
    as [txWith [bytesWith [HsWith [HserWith HlenWith]]]];
    try assumption; try reflexivity.
  { apply MessageV0_compile_nothing. right. now exists table. }
  { rewrite Hsize. unfold PACKET_DATA_SIZE. lia. }
  destruct (signedV0_size me (blockhash bh) [] None m b [])
    as [txWithout [bytesWithout [HsWithout [HserWithout HlenWithout]]]];
    try assumption; try reflexivity.
  { apply MessageV0_compile_nothing. now left. }
  { rewrite Hsize. unfold PACKET_DATA_SIZE. lia. }
  rewrite (@compareTxSize_run web3js me net address st st1 st2 table []
             bh txWith txWithout bytesWithout bytesWith);
    try assumption.
  - rewrite HlenWithout, HlenWith, Hsize. reflexivity.
  - transitivity (@transferInstructions web3js me []);
      [f_equal; exact Hnone|reflexivity].
Qed.

End Further.

(** ** The transaction of [addAddress] *)

Lemma lookup_table_program_is_not_system :
  AddressLookupTableProgram_programId <> SystemProgram_programId.
Proof. intros H. vm_compute in H. discriminate H. Qed.

#[local] Opaque AddressLookupTableProgram_programId.

(** A length from 128 to 16383 is encoded as two bytes. *)
Lemma encodeLength_medium : forall len,
    (128 <= Z.of_nat len < 16384)%Z -> List.length (encodeLength len) = 2%nat.
Proof.
  intros len H. unfold encodeLength.
  assert (Hlog : (7 <= Z.log2 (Z.of_nat len))%Z).
  { apply Z.log2_le_pow2; [lia|]. change (2 ^ 7)%Z with 128%Z. lia. }
  destruct (Z.to_nat (Z.log2 (Z.of_nat len))) as [|fuel] eqn:Efuel; [lia|].
  cbn [encodeLength_fuel].
  assert (H1 : (Z.shiftr (Z.of_nat len) 7 =? 0)%Z = false).
  { apply Z.eqb_neq. rewrite Z.shiftr_div_pow2 by lia.
    change (2 ^ 7)%Z with 128%Z.
    intros Hz. apply Z.div_small_iff in Hz; lia. }
  assert (H2 : (Z.shiftr (Z.shiftr (Z.of_nat len) 7) 7 =? 0)%Z = true).
  { apply Z.eqb_eq. rewrite !Z.shiftr_div_pow2 by lia.
    change (2 ^ 7)%Z with 128%Z.
    rewrite Z.div_div by lia. apply Z.div_small. lia. }
  rewrite H1, H2. reflexivity.
Qed.

Lemma extend_data_length : forall payerKey authority lookupTable newAddresses,
    List.length
      (data (extendLookupTable payerKey authority lookupTable newAddresses))
    = (12 + 32 * List.length newAddresses)%nat.
Proof.
  intros payerKey authority table l. unfold extendLookupTable, u32, u64.
  cbn [data]. rewrite !length_app, !le_bytes_length.
  rewrite (concat_length_const _ toBytes 32)
    by (intros; apply toBytes_length).
  lia.
Qed.

Section Extend.

Variables (payerKey lookupTable : PublicKey).
Variable newAddresses : list PublicKey.
Variable text : string.

Hypothesis payer_is_no_program : payerKey <> SystemProgram_programId.
Hypothesis payer_is_no_table_program :
  payerKey <> AddressLookupTableProgram_programId.
Hypothesis table_is_not_payer : lookupTable <> payerKey.
Hypothesis table_is_no_program : lookupTable <> SystemProgram_programId.
Hypothesis table_is_no_table_program :
  lookupTable <> AddressLookupTableProgram_programId.

Let extendInstruction : TransactionInstruction :=
  extendLookupTable (Some payerKey) payerKey lookupTable newAddresses.

(** The message of the extension: four static keys -- the payer, the table,
    the lookup-table program and the System Program -- and the one
    instruction. *)
Lemma MessageV0_compile_extend :
  MessageV0_compile payerKey text [extendInstruction] None
  = Ok {| header := {| numRequiredSignatures := 1;
                       numReadonlySignedAccounts := 0;
                       numReadonlyUnsignedAccounts := 2 |};
          staticAccountKeys :=
            [payerKey; lookupTable; AddressLookupTableProgram_programId;
             SystemProgram_programId];
          recentBlockhash := text;
          compiledInstructions :=
            [ {| programIdIndex := 2;
                 accountKeyIndexes := [1; 0; 0; 3]%Z;
                 compiledData := data extendInstruction |} ];
          addressTableLookups := [] |}.
Proof.
  pose proof lookup_table_program_is_not_system as Hprograms.
  unfold MessageV0_compile, CompiledKeys_compile, compileInstructionKeys,
    getMessageComponents, compileInstructions, findKeyIndex, equals.
  subst extendInstruction. unfold extendLookupTable.
  cbn [keys programId data app fold_left getOrInsertDefault keyMetaMap payer
       extractLookups rbind fst snd pubkey].
  repeat (try unfold findKeyIndex; try unfold equals;
          match goal with
          | |- context [N.eqb ?x ?y] =>
              destruct (N.eqb_spec x y); [try congruence|try congruence]
          end;
          cbn [keys programId data app fold_left getOrInsertDefault keyMetaMap
               payer extractLookups rbind fst snd pubkey entries_where filter
               map List.length Nat.ltb Nat.leb setPayer setInvoked
               mergeAccountMeta defaultKeyMeta keyIsSigner keyIsWritable
               keyIsInvoked isSigner isWritable andb orb negb writable
               readonly rev findIndex option_map compileEach findKeyIndexes
               Nat.sub Nat.add]).
  unfold findKeyIndex.
  cbn [rev app findIndex option_map List.length Nat.sub rbind].
  reflexivity.
Qed.

End Extend.

Lemma extend_message_length :
  forall payerKey lookupTable newAddresses text blockhashBytes,
    List.length blockhashBytes = 32%nat ->
    List.length
      (messageBytes
         {| header := {| numRequiredSignatures := 1;
                         numReadonlySignedAccounts := 0;
                         numReadonlyUnsignedAccounts := 2 |};
            staticAccountKeys :=
              [payerKey; lookupTable; AddressLookupTableProgram_programId;
               SystemProgram_programId];
            recentBlockhash := text;
            compiledInstructions :=
              [ {| programIdIndex := 2;
                   accountKeyIndexes := [1; 0; 0; 3]%Z;
                   compiledData :=
                     data (extendLookupTable (Some payerKey) payerKey
                             lookupTable newAddresses) |} ];
            addressTableLookups := [] |} blockhashBytes)
    = (173
       + List.length (encodeLength (12 + 32 * List.length newAddresses))
       + (12 + 32 * List.length newAddresses))%nat.
Proof.
  intros payerKey table l text b H32.
  unfold messageBytes, instructionBytes.
  cbn [header staticAccountKeys recentBlockhash compiledInstructions
       addressTableLookups programIdIndex accountKeyIndexes compiledData
       map List.concat].
  rewrite extend_data_length.
  rewrite !length_app, !toBytes_length, extend_data_length, H32.
  cbn [List.length]. rewrite !encodeLength_small by lia.
  cbn [List.length]. rewrite ?(encodeLength_small 0) by lia.
  cbn [List.length]. lia.
Qed.

Section Extension.

Context {primitives : Primitives}.

Variable me : Keypair.
Variable net : @Cluster web3js.

(** With the SDK, a list of more than 32 addresses does not fit the one
    transaction [addAddress] builds: the message is compiled, signing it
    throws a [RangeError], and nothing is sent. *)
Theorem addAddress_overruns_above_32 :
  forall (st st1 : ledger net) (lookupTableAddress : PublicKey)
         (newAddresses : list PublicKey) latestBlockhash blockhashBytes,
    rpc net (getLatestBlockhash finalized) st = (Ok latestBlockhash, st1) ->
    bs58_decode (blockhash latestBlockhash) = Ok blockhashBytes ->
    List.length blockhashBytes = 32%nat ->
    publicKey me <> SystemProgram_programId ->
    publicKey me <> AddressLookupTableProgram_programId ->
    lookupTableAddress <> publicKey me ->
    lookupTableAddress <> SystemProgram_programId ->
    lookupTableAddress <> AddressLookupTableProgram_programId ->
    (32 < List.length newAddresses)%nat ->
    exec net (@addAddress web3js me lookupTableAddress newAddresses) st
    = {| trace := compiled_trace latestBlockhash;
         final := st1;
         outcome := Thrown (RangeError "encoding overruns Uint8Array") |}.
Proof.
  intros st st1 table l bh b Hbh Hdecode H32 Hp1 Hp2 Ht1 Ht2 Ht3 Hmany.
  pose proof (MessageV0_compile_extend (publicKey me) table l (blockhash bh)
                Hp1 Hp2 Ht1 Ht2 Ht3) as Hcompile.
  apply (@addAddress_run_unsigned web3js me net table l
           (extendLookupTable (Some (publicKey me)) (publicKey me) table l)
           st st1 bh _ (RangeError "encoding overruns Uint8Array")
           eq_refl Hbh Hcompile).
  apply (sign_overruns b H32).
  - exact Hdecode.
  - rewrite extend_message_length by exact H32.
    pose proof (encodeLength_nonempty (12 + 32 * List.length l)).
    unfold PACKET_DATA_SIZE. lia.
Qed.

(** Up to 32 addresses fit: the transaction is signed and it is the one
    transaction the run submits; it has [251 + 32 n] bytes for [n <= 3]
    addresses and [252 + 32 n] bytes from four addresses on. *)
Theorem addAddress_sends_up_to_32 :
  forall (st st1 : ledger net) (lookupTableAddress : PublicKey)
         (newAddresses : list PublicKey) latestBlockhash blockhashBytes,
    rpc net (getLatestBlockhash finalized) st = (Ok latestBlockhash, st1) ->
    bs58_decode (blockhash latestBlockhash) = Ok blockhashBytes ->
    List.length blockhashBytes = 32%nat ->
    (forall messageData,
        List.length (ed25519_sign messageData (secretKey me)) = 64%nat) ->
    publicKey me <> SystemProgram_programId ->
    publicKey me <> AddressLookupTableProgram_programId ->
    lookupTableAddress <> publicKey me ->
    lookupTableAddress <> SystemProgram_programId ->
    lookupTableAddress <> AddressLookupTableProgram_programId ->
    (List.length newAddresses <= 32)%nat ->
    exists transaction serialized,
      submissions
        (trace (exec net (@addAddress web3js me lookupTableAddress newAddresses)
                  st))
      = [transaction]
      /\ serialize transaction = Ok serialized
      /\ List.length serialized
         = ((if Nat.leb (List.length newAddresses) 3 then 251 else 252)
            + 32 * List.length newAddresses)%nat.
Proof.
  intros st st1 table l bh b Hbh Hdecode H32 H64 Hp1 Hp2 Ht1 Ht2 Ht3 Hfew.
  pose proof (MessageV0_compile_extend (publicKey me) table l (blockhash bh)
                Hp1 Hp2 Ht1 Ht2 Ht3) as Hcompile.
  pose proof (extend_message_length (publicKey me) table l (blockhash bh) b
                H32) as Hsize.
  assert (Hlength :
            List.length (encodeLength (12 + 32 * List.length l))
            = if Nat.leb (List.length l) 3 then 1%nat else 2%nat).
  { destruct (Nat.leb (List.length l) 3) eqn:E.
    - apply Nat.leb_le in E. rewrite encodeLength_small by lia. reflexivity.
    - apply Nat.leb_gt in E. apply encodeLength_medium. lia. }
  destruct (signedV0_size me (blockhash bh)
              [extendLookupTable (Some (publicKey me)) (publicKey me) table l]
              None _ b
              [table; AddressLookupTableProgram_programId;
               SystemProgram_programId] Hcompile)
    as [transaction [serialized [Hsigned [Hserialize Hlen]]]];
    try assumption; try reflexivity.
  { rewrite Hsize, Hlength. unfold PACKET_DATA_SIZE.
    destruct (Nat.leb (List.length l) 3); lia. }
  exists transaction, serialized. split; [|split; [exact Hserialize|]].
  - exact (@addAddress_submits web3js me net table l
             (extendLookupTable (Some (publicKey me)) (publicKey me) table l)
             st st1 bh transaction eq_refl Hbh Hsigned).
  - rewrite Hlen, Hsize, Hlength. unfold signedSize.
    destruct (Nat.leb (List.length l) 3); lia.
Qed.

End Extension.

End Sizes.

(** * Closed examples *)

Module Examples.

#[local] Existing Instance Demo.sdk.

(** C5, counterexample to the claim as stated.  On a cluster that rejects
    the confirmation, [createAndSendV0Tx] does request the confirmation
    after sending, throws what the request was rejected with, and does not
    print the line announcing a confirmed transaction. *)
Lemma rejected_confirmation_is_not_announced :
  map step_of
    (trace (exec Demo.expiringCluster
              (@createAndSendV0Tx Demo.sdk Demo.me [Demo.extendWithFour]) tt))
  = [ Calls "getLatestBlockhash";
      Prints "   ✅ - Fetched latest blockhash. Last valid height:";
      Prints "   ✅ - Compiled transaction message";
      Prints "   ✅ - Transaction Signed";
      Calls "sendTransaction";
      Calls "confirmTransaction" ]
  /\ outcome (exec Demo.expiringCluster
                (@createAndSendV0Tx Demo.sdk Demo.me [Demo.extendWithFour]) tt)
     = Thrown (RpcError "block height exceeded")
  /\ existsb announces_confirmation
       (trace (exec Demo.expiringCluster
                 (@createAndSendV0Tx Demo.sdk Demo.me [Demo.extendWithFour]) tt))
     = false.
Proof. repeat split; vm_compute; reflexivity. Qed.

(** C6, on a cluster where the table has no account. *)
Lemma fetchALTs_absent_throws_witness :
  exec Demo.absentCluster (@fetchALTs Demo.sdk Demo.tableAddress) tt
  = {| trace := [ Requested (getAddressLookupTable Demo.tableAddress) (Ok None);
                  Printed [LStr "lookupTableAccount:"; LAccount None] ];
       final := tt;
       outcome := Thrown (null_property "key") |}.
Proof.
  apply (@fetchALTs_absent_throws Demo.sdk Demo.absentCluster Demo.tableAddress
           tt tt).
  reflexivity.
Defined.

(** C10, on the same cluster. *)
Lemma compareTxSize_absent_returns_witness :
  exec Demo.absentCluster (@compareTxSize Demo.sdk Demo.me Demo.tableAddress) tt
  = {| trace := [ Requested (getAddressLookupTable Demo.tableAddress)
                    (Ok None) ];
       final := tt;
       outcome := Ok tt |}.
Proof.
  apply (@compareTxSize_absent_returns Demo.sdk Demo.me Demo.absentCluster
           Demo.tableAddress tt tt).
  reflexivity.
Defined.


(** C2, counterexample to the claim as stated.  For a table of one address
    (the first address of [main]) the size printed with the table, 220
    bytes, is larger than the size printed without it, 217 bytes. *)
Lemma one_address_table_is_larger :
  exec (Demo.clusterWith (firstn 1 Demo.fourAddresses))
    (@compareTxSize Demo.sdk Demo.me Demo.tableAddress) tt
  = {| trace := compared_trace Demo.tableAddress
                  (Demo.tableOf (firstn 1 Demo.fourAddresses))
                  (Demo.latestOf Demo.blockhash2) 217 220;
       final := tt;
       outcome := Ok tt |}
  /\ (217 < 220)%Z.
Proof. split; reflexivity. Qed.


(** C2 (amended), on the table of the four addresses of [main]. *)
Lemma with_table_smaller_witness :
  exists sizeWithout sizeWith,
    exec (Demo.clusterWith Demo.fourAddresses)
      (@compareTxSize Demo.sdk Demo.me Demo.tableAddress) tt
    = {| trace := compared_trace Demo.tableAddress
                    (Demo.tableOf Demo.fourAddresses)
                    (Demo.latestOf Demo.blockhash2) sizeWithout sizeWith;
         final := tt;
         outcome := Ok tt |}
    /\ ((sizeWith < sizeWithout)%Z
        <-> (2 <= List.length
                    (Web3js.replaced (Web3js.publicKey Demo.me)
                       (addresses (state (Demo.tableOf Demo.fourAddresses)))))
            %nat).
Proof.
  apply (@Sizes.with_table_smaller_iff_two_replaced Demo.primitives Demo.me
           (Demo.clusterWith Demo.fourAddresses) tt tt tt Demo.tableAddress
           (Demo.tableOf Demo.fourAddresses) (Demo.latestOf Demo.blockhash2)
           (repeat 1%Z 32)).
  - reflexivity.
  - reflexivity.
  - vm_compute. reflexivity.
  - reflexivity.
  - intros messageData. reflexivity.
  - intros H. discriminate H.
  - intros H. discriminate H.
  - apply Nat.leb_le. vm_compute. reflexivity.
  - apply Nat.leb_le. vm_compute. reflexivity.
Defined.


(** The sizes that run prints: four transfers, two replaced addresses. *)
Lemma repeated_addresses_count_once :
  exec (Demo.clusterWith (Web3js.publicKey Demo.me
                     :: firstn 1 Demo.fourAddresses
                     ++ firstn 2 Demo.fourAddresses))
    (@compareTxSize Demo.sdk Demo.me Demo.tableAddress) tt
  = {| trace := compared_trace Demo.tableAddress
                  (Demo.tableOf (Web3js.publicKey Demo.me
                                 :: firstn 1 Demo.fourAddresses
                                 ++ firstn 2 Demo.fourAddresses))
                  (Demo.latestOf Demo.blockhash2) 300 272;
       final := tt;
       outcome := Ok tt |}.
Proof. reflexivity. Qed.

(** [fetchALTs] on the table of the four addresses of [main]. *)
Lemma fetchALTs_present_witness :
  exec (Demo.clusterWith Demo.fourAddresses)
    (@fetchALTs Demo.sdk Demo.tableAddress) tt
  = {| trace :=
         Requested (getAddressLookupTable Demo.tableAddress)
           (Ok (Some (Demo.tableOf Demo.fourAddresses)))
         :: Printed [LStr "lookupTableAccount:";
                     LAccount (Some (Demo.tableOf Demo.fourAddresses))]
         :: Printed [LStr "Table address from cluster:";
                     LStr (toBase58 (key (Demo.tableOf Demo.fourAddresses)))]
         :: indexed_lines
              (addresses (state (Demo.tableOf Demo.fourAddresses)));
       final := tt;
       outcome := Ok (Some (Demo.tableOf Demo.fourAddresses)) |}.
Proof.
  apply (@fetchALTs_present_lists_addresses Demo.sdk
           (Demo.clusterWith Demo.fourAddresses) Demo.tableAddress
           (Demo.tableOf Demo.fourAddresses) tt tt).
  reflexivity.
Defined.

(** The sizes for the four addresses of [main]: 364 and 274 bytes. *)
Lemma compareTxSize_reported_sizes_witness :
  exec (Demo.clusterWith Demo.fourAddresses)
    (@compareTxSize Demo.sdk Demo.me Demo.tableAddress) tt
  = {| trace :=
         compared_trace Demo.tableAddress (Demo.tableOf Demo.fourAddresses)
           (Demo.latestOf Demo.blockhash2)
           (Z.of_nat
              (Web3js.signedSize
                 (Web3js.messageSizeWithout
                    (List.length
                       (Web3js.replaced (Web3js.publicKey Demo.me)
                          (addresses
                             (state (Demo.tableOf Demo.fourAddresses)))))
                    (List.length
                       (addresses (state (Demo.tableOf Demo.fourAddresses)))))))
           (Z.of_nat
              (Web3js.signedSize
                 (Web3js.messageSizeWith
                    (List.length
                       (Web3js.replaced (Web3js.publicKey Demo.me)
                          (addresses
                             (state (Demo.tableOf Demo.fourAddresses)))))
                    (List.length
                       (addresses (state (Demo.tableOf Demo.fourAddresses)))))));
       final := tt;
       outcome := Ok tt |}.
Proof.
  apply (@Sizes.compareTxSize_reported_sizes Demo.primitives Demo.me
           (Demo.clusterWith Demo.fourAddresses) tt tt tt Demo.tableAddress
           (Demo.tableOf Demo.fourAddresses) (Demo.latestOf Demo.blockhash2)
           (repeat 1%Z 32)).
  - reflexivity.
  - reflexivity.
  - vm_compute. reflexivity.
  - reflexivity.
  - intros messageData. reflexivity.
  - intros H. discriminate H.
  - intros H. discriminate H.
  - apply Nat.leb_le. vm_compute. reflexivity.
  - apply Nat.leb_le. vm_compute. reflexivity.
Defined.

(** A table of 24 distinct addresses: the message without the table would
    have 1279 bytes. *)
Lemma compareTxSize_overruns_witness :
  exec (Demo.clusterWith (Demo.addressesFrom 24))
    (@compareTxSize Demo.sdk Demo.me Demo.tableAddress) tt
  = {| trace :=
         fetched_trace Demo.tableAddress
           (Demo.tableOf (Demo.addressesFrom 24))
           (Demo.latestOf Demo.blockhash2);
       final := tt;
       outcome := Thrown (RangeError "encoding overruns Uint8Array") |}.
Proof.
  apply (@Sizes.compareTxSize_overruns Demo.primitives Demo.me
           (Demo.clusterWith (Demo.addressesFrom 24)) tt tt tt
           Demo.tableAddress (Demo.tableOf (Demo.addressesFrom 24))
           (Demo.latestOf Demo.blockhash2) (repeat 1%Z 32)).
  - reflexivity.
  - reflexivity.
  - vm_compute. reflexivity.
  - reflexivity.
  - intros messageData. reflexivity.
  - intros H. discriminate H.
  - split; apply Nat.leb_le; vm_compute; reflexivity.
  - left. apply Nat.ltb_lt. vm_compute. reflexivity.
Defined.

(** A table without addresses. *)
Lemma compareTxSize_empty_table_witness :
  exec (Demo.clusterWith [])
    (@compareTxSize Demo.sdk Demo.me Demo.tableAddress) tt
  = {| trace := compared_trace Demo.tableAddress (Demo.tableOf [])
                  (Demo.latestOf Demo.blockhash2) 136 136;
       final := tt;
       outcome := Ok tt |}.
Proof.
  apply (@Sizes.compareTxSize_empty_table Demo.primitives Demo.me
           (Demo.clusterWith []) tt tt tt Demo.tableAddress (Demo.tableOf [])
           (Demo.latestOf Demo.blockhash2) (repeat 1%Z 32)).
  - reflexivity.
  - reflexivity.
  - vm_compute. reflexivity.
  - reflexivity.
  - intros messageData. reflexivity.
  - reflexivity.
Defined.

(** [addAddress] on 33 addresses. *)
Lemma addAddress_overruns_witness :
  exec Demo.otherCluster
    (@addAddress Demo.sdk Demo.me Demo.tableAddress (Demo.addressesFrom 33)) tt
  = {| trace := compiled_trace (Demo.latestOf Demo.blockhash2);
       final := tt;
       outcome := Thrown (RangeError "encoding overruns Uint8Array") |}.
Proof.
  apply (@Sizes.addAddress_overruns_above_32 Demo.primitives Demo.me
           Demo.otherCluster tt tt Demo.tableAddress (Demo.addressesFrom 33)
           (Demo.latestOf Demo.blockhash2) (repeat 1%Z 32)).
  - reflexivity.
  - vm_compute. reflexivity.
  - reflexivity.
  - apply N.eqb_neq. reflexivity.
  - apply N.eqb_neq. reflexivity.
  - apply N.eqb_neq. reflexivity.
  - apply N.eqb_neq. reflexivity.
  - apply N.eqb_neq. reflexivity.
  - apply Nat.ltb_lt. reflexivity.
Defined.

(** [addAddress] on the four addresses of [main]: a transaction of 380
    bytes. *)
Lemma addAddress_sends_witness :
  exists transaction serialized,
    submissions
      (trace (exec Demo.otherCluster
                (@addAddress Demo.sdk Demo.me Demo.tableAddress
                   Demo.fourAddresses) tt))
    = [transaction]
    /\ @serialize Demo.sdk transaction = Ok serialized
    /\ List.length serialized
       = ((if Nat.leb (List.length Demo.fourAddresses) 3 then 251 else 252)
          + 32 * List.length Demo.fourAddresses)%nat.
Proof.
  apply (@Sizes.addAddress_sends_up_to_32 Demo.primitives Demo.me
           Demo.otherCluster tt tt Demo.tableAddress Demo.fourAddresses
           (Demo.latestOf Demo.blockhash2) (repeat 1%Z 32)).
  - reflexivity.
  - vm_compute. reflexivity.
  - reflexivity.
  - intros messageData. reflexivity.
  - apply N.eqb_neq. reflexivity.
  - apply N.eqb_neq. reflexivity.
  - apply N.eqb_neq. reflexivity.
  - apply N.eqb_neq. reflexivity.
  - apply N.eqb_neq. reflexivity.
  - apply Nat.leb_le. reflexivity.
Defined.

(** The transfers to the four addresses of [main]. *)
Lemma transferInstructions_witness :
  Forall2
    (fun address instruction =>
       @SystemProgram_transfer Demo.sdk (Web3js.publicKey Demo.me) address
         lamports_per_transfer
       = Ok instruction)
    Demo.fourAddresses
    (map (fun to => Web3js.SystemProgram_transfer (Web3js.publicKey Demo.me) to
                      lamports_per_transfer) Demo.fourAddresses).
Proof.
  apply (@transferInstructions_one_per_address Demo.sdk Demo.me
           Demo.fourAddresses).
  reflexivity.
Defined.

(** C4, on a cluster that answers every request: the whole schedule is gone
    through and the run completes. *)
Lemma createAndSendV0Tx_sequence_witness :
  map step_of
    (trace (exec Demo.otherCluster
              (@createAndSendV0Tx Demo.sdk Demo.me [Demo.extendWithFour]) tt))
  = submit_schedule
  /\ outcome (exec Demo.otherCluster
                (@createAndSendV0Tx Demo.sdk Demo.me [Demo.extendWithFour]) tt)
     = Ok tt.
Proof.
  assert (Hrun := proj1 (@createAndSendV0Tx_sequence Demo.sdk Demo.me
                           Demo.otherCluster [Demo.extendWithFour] tt)
                    (Demo.latestOf Demo.blockhash2)
                    Demo.extensionTransaction).
  cbv zeta in Hrun.
  erewrite Hrun; cycle 1; [reflexivity ..|].
  split; reflexivity.
Defined.

(** C1, on the table of the four addresses of [main]. *)
Lemma compareTxSize_reports_witness :
  exists sizeWithout sizeWith,
    exec (Demo.clusterWith Demo.fourAddresses)
      (@compareTxSize Demo.sdk Demo.me Demo.tableAddress) tt
    = {| trace := compared_trace Demo.tableAddress
                    (Demo.tableOf Demo.fourAddresses)
                    (Demo.latestOf Demo.blockhash2) sizeWithout sizeWith;
         final := tt;
         outcome := Ok tt |}.
Proof.
  assert (Hrun := proj1 (@compareTxSize_reports Demo.sdk Demo.me
                           (Demo.clusterWith Demo.fourAddresses)
                           Demo.tableAddress tt)
                    (Demo.tableOf Demo.fourAddresses) Demo.transfersToFour
                    (Demo.latestOf Demo.blockhash2) tt tt
                    Demo.withTable Demo.withoutTable
                    (Demo.serialized Demo.withoutTable)
                    (Demo.serialized Demo.withTable)).
  cbv zeta in Hrun.
  do 2 eexists. apply Hrun; reflexivity.
Defined.

(** C9, on the same cluster: the whole schedule of [main]. *)
Lemma main_sequential_witness :
  map step_of
    (trace (exec (Demo.clusterWith Demo.fourAddresses)
              (@main Demo.sdk Demo.me) tt))
  = main_schedule.
Proof.
  assert (Hrun := proj1 (proj2 (@main_sequential Demo.sdk Demo.me
                                  (Demo.clusterWith Demo.fourAddresses) tt))).
  cbv zeta in Hrun.
  erewrite (Hrun 250000000%Z (fst Demo.created) (snd Demo.created)
              (Demo.latestOf Demo.blockhash2) Demo.creationTransaction
              _ _ tt tt tt tt
              (nth 0 Demo.fourAddresses 0%N) (nth 1 Demo.fourAddresses 0%N)
              (nth 2 Demo.fourAddresses 0%N) (nth 3 Demo.fourAddresses 0%N)
              (Web3js.extendLookupTable (Some (Web3js.publicKey Demo.me))
                 (Web3js.publicKey Demo.me) (snd Demo.created)
                 Demo.fourAddresses)
              (Demo.latestOf Demo.blockhash2) Demo.extensionOfCreated
              _ _ tt tt tt); cycle 1.
  all: reflexivity.
Defined.

(** [createALTs] on a cluster that answers every request. *)
Lemma createALTs_returns_witness :
  map step_of
    (trace (exec Demo.otherCluster (@createALTs Demo.sdk Demo.me) tt))
  = [ Calls "getSlot"; Prints "slot:"; Prints "lookup table address:" ]
    ++ submit_schedule ++ [ Prints "   ✅ - Create lookup table" ]
  /\ is_ok (outcome (exec Demo.otherCluster (@createALTs Demo.sdk Demo.me) tt))
     = true.
Proof.
  assert (Hrun := proj1 (@createALTs_returns_after_confirmation Demo.sdk
                           Demo.me Demo.otherCluster tt)
                    250000000%Z (fst Demo.created) (snd Demo.created)
                    (Demo.latestOf Demo.blockhash2) Demo.creationTransaction).
  cbv zeta in Hrun.
  erewrite Hrun; cycle 1; [reflexivity ..|].
  split; reflexivity.
Defined.

End Examples.
